(** * btc-analyzer: the analytics engine, embedded and verified

    A shallow embedding of the Go packages [timeseries], [indicators],
    [statistics], [patterns] and [analyzer] of btc-analyzer and of the
    sample data and the validation of [dataloader], followed by the
    properties of the specification that were checked against it and by
    further properties of the code.

    Go's [float64] is kept abstract behind the interface [Float64Ops]:
    every function below is written once, over any carrier that offers
    the operations the Go code uses.  Three carriers are provided:

    - [float] (Rocq's primitive IEEE 754 binary64 numbers), on which the
      embedding computes what the Go program computes;
    - [Qc] (canonical rationals), exact arithmetic, a sub-field of the
      reals ([ExactArith]), on which the algebraic properties are proved;
    - [R] (the real numbers), exact arithmetic with a square root
      ([ExactMath]), for the properties that involve [math.Sqrt].

    Slices are lists; [make] is [replicate]; an indexed store [a[i] = v]
    is stdpp's [<[i:=v]> a]; a [for i := lo; i < hi; i++] loop is
    [for_range lo hi]; Go maps are [gmap string _]; [time.Time] is the
    integer number of nanoseconds since Go's zero time, and a
    [time.Duration] is such a number within [int64], at whose ends
    [Time.Sub] saturates.  A function that sorts its series in place
    returns the series next to its result.

    An [int] that is a length or a period is a [nat]; a negative period
    makes the Go functions panic (negative slice length or index) and is
    not modelled.  An indexed read [a[i]] is [a !!! i]: under the guard
    of each function every index read is within bounds, except in
    [CalculateMACD] when [fastPeriod > slowPeriod] and in [DetectTrend],
    [CalculateStochasticOscillator] and [CalculateFibonacciRetracements]
    when the period is 0, where Go panics; no property below is about
    those calls.  [GetTradingSignals] reads the lower Bollinger band
    under a guard on the upper band alone; it returns an [option], [None]
    where that read is out of range and Go panics. *)

From Stdlib Require Import ZArith QArith Qcanon Qabs Reals Qreals Lra Lia Floats Sorted.
From stdpp Require Import gmap strings list fin_maps sorting pretty.

Local Open Scope string_scope.
Local Open Scope list_scope.
Local Open Scope nat_scope.

(** ** The float64 interface *)

(** The arithmetic the Go sources use on [float64]: conversion from
    [int], the four operations, [math.Abs], the comparisons and the
    conversion [int(x)]. *)
Class Float64Ops (F : Type) := {
  fromZ : Z -> F;
  fadd : F -> F -> F;
  fsub : F -> F -> F;
  fmul : F -> F -> F;
  fdiv : F -> F -> F;
  fabs : F -> F;
  fltb : F -> F -> bool;
  fleb : F -> F -> bool;
  feqb : F -> F -> bool;
  ftoint : F -> Z;
}.

(** [math.Sqrt]. *)
Class Float64Math (F : Type) := {
  fsqrt : F -> F;
}.

Declare Scope f64_scope.
Delimit Scope f64_scope with f64.
Infix "+" := fadd : f64_scope.
Infix "-" := fsub : f64_scope.
Infix "*" := fmul : f64_scope.
Infix "/" := fdiv : f64_scope.
Infix "<?" := fltb : f64_scope.
Infix "<=?" := fleb : f64_scope.
Infix "=?" := feqb : f64_scope.
Notation "x >? y" := (fltb y x) (only parsing) : f64_scope.
Notation "x >=? y" := (fleb y x) (only parsing) : f64_scope.

(** A decimal literal [n/d] of the Go source.  On binary64 the division
    is correctly rounded, so [lit 5 100] is the double nearest to 0.05,
    which is what the Go compiler stores for the constant [0.05]. *)
Definition lit {F} `{Float64Ops F} (n d : Z) : F := (fromZ n / fromZ d)%f64.

(** [float64(n)] for an [int] that is a length or a period. *)
Definition float64 {F} `{Float64Ops F} (n : nat) : F := fromZ (Z.of_nat n).

#[export] Instance float64_inhabited {F} `{Float64Ops F} : Inhabited F :=
  populate (fromZ 0).

(** *** binary64 *)

Definition float_of_Z (z : Z) : float :=
  if (z <? 0)%Z
  then PrimFloat.opp (PrimFloat.of_uint63 (Uint63.of_Z (- z)))
  else PrimFloat.of_uint63 (Uint63.of_Z z).

(** [int(x)]: truncation toward zero of a finite value. *)
Definition float_to_Z (x : float) : Z :=
  match Prim2SF x with
  | S754_finite s m e =>
      let v := if (0 <=? e)%Z then Z.shiftl (Zpos m) e
               else Z.shiftr (Zpos m) (- e) in
      if s then (- v)%Z else v
  | _ => 0%Z
  end.

#[export] Instance binary64_ops : Float64Ops float := {|
  fromZ := float_of_Z;
  fadd := PrimFloat.add;
  fsub := PrimFloat.sub;
  fmul := PrimFloat.mul;
  fdiv := PrimFloat.div;
  fabs := PrimFloat.abs;
  fltb := PrimFloat.ltb;
  fleb := PrimFloat.leb;
  feqb := PrimFloat.eqb;
  ftoint := float_to_Z;
|}.

#[export] Instance binary64_math : Float64Math float := {|
  fsqrt := PrimFloat.sqrt;
|}.

(** *** exact rationals *)

#[export] Instance Qc_ops : Float64Ops Qc := {|
  fromZ z := Q2Qc (inject_Z z);
  fadd := Qcplus;
  fsub := Qcminus;
  fmul := Qcmult;
  fdiv := Qcdiv;
  fabs x := Q2Qc (Qabs x);
  fltb x y := if Qclt_le_dec x y then true else false;
  fleb x y := if Qclt_le_dec y x then false else true;
  feqb x y := if Qc_eq_dec x y then true else false;
  ftoint x := Z.quot (Qnum x) (Zpos (Qden x));
|}.

(** *** exact arithmetic

    A carrier is exact when it embeds in the real numbers and every
    operation is the real one.  [Qc] is; binary64 is not (it rounds). *)
Class ExactArith (F : Type) `{Float64Ops F} := {
  toR : F -> R;
  toR_inj : forall x y, toR x = toR y -> x = y;
  toR_fromZ : forall z, toR (fromZ z) = IZR z;
  toR_add : forall x y, toR (x + y)%f64 = (toR x + toR y)%R;
  toR_sub : forall x y, toR (x - y)%f64 = (toR x - toR y)%R;
  toR_mul : forall x y, toR (x * y)%f64 = (toR x * toR y)%R;
  toR_div : forall x y, toR y <> 0%R -> toR (x / y)%f64 = (toR x / toR y)%R;
  toR_abs : forall x, toR (fabs x) = Rabs (toR x);
  fltb_lt : forall x y, (x <? y)%f64 = true <-> (toR x < toR y)%R;
  fleb_le : forall x y, (x <=? y)%f64 = true <-> (toR x <= toR y)%R;
  feqb_eq : forall x y, (x =? y)%f64 = true <-> x = y;
}.

(** ** Loops and slices *)

(** [for i := lo; i < hi; i++ { s = body i s }]. *)
Definition for_range {St : Type} (lo hi : nat) (body : nat -> St -> St) (s : St) : St :=
  fold_left (fun s i => body i s) (seq lo (hi - lo)) s.

(** [sum := 0.0; for _, v := range l { sum += v }]. *)
Definition sum_range {F} `{Float64Ops F} (l : list F) : F :=
  fold_left fadd l (fromZ 0).

(** The inner loop of Go's [insertionSort_func]: the new element moves left
    past every element it is [less] than.  The sorted prefix is held
    reversed, its last element first. *)
Fixpoint sift {A} (less : A -> A -> bool) (x : A) (rprefix : list A) : list A :=
  match rprefix with
  | [] => [x]
  | y :: r => if less x y then y :: sift less x r else x :: y :: r
  end.

(** [sort.Slice] / [sort.Float64s] with the comparison [less], as the
    insertion sort Go's [pdqsort_func] runs on slices of at most twelve
    elements.  On longer slices Go switches to quicksort partitioning,
    which returns a sorted permutation as well and leaves a slice that is
    already in order untouched. *)
Definition insertion_sort {A} (less : A -> A -> bool) (l : list A) : list A :=
  rev (fold_left (fun rprefix x => sift less x rprefix) l []).

(** ** package types *)

Section Types.
Context {F : Type}.

Record BTCPrice := {
  Timestamp : Z;
  Open : F;
  High : F;
  Low : F;
  Close : F;
  Volume : F;
}.

Record BTCTimeSeries := {
  Symbol : string;
  Data : list BTCPrice;
}.

(** [Skewness] and [Kurtosis] (computed with [math.Pow]) are read by no
    function embedded here and are left out. *)
Record Statistics := {
  Count : nat;
  Mean : F;
  Median : F;
  StdDev : F;
  Min : F;
  Max : F;
  Variance : F;
}.

Record MACDData := {
  MACD : list F;
  Signal : list F;
  Histogram : list F;
}.

Record BollingerBandsData := {
  Upper : list F;
  Middle : list F;
  Lower : list F;
}.

Record SupportResistanceData := {
  SupportLevels : list F;
  ResistanceLevels : list F;
}.

(** [LogReturns] (computed with [math.Log]) is read by no function
    embedded here and is left out. *)
Record BTCAnalytics := {
  PriceStats : Statistics;
  VolumeStats : Statistics;
  Volatility : F;
  SharpeRatio : F;
  MaxDrawdown : F;
  Returns : list F;
  RSI : list F;
  MACD_ : MACDData;
  BollingerBands : BollingerBandsData;
  SupportResistance : SupportResistanceData;
}.
End Types.

Arguments BTCPrice : clear implicits.
Arguments BTCTimeSeries : clear implicits.
Arguments Statistics : clear implicits.
Arguments MACDData : clear implicits.
Arguments BollingerBandsData : clear implicits.
Arguments SupportResistanceData : clear implicits.
Arguments BTCAnalytics : clear implicits.

(** ** package timeseries *)

Section Timeseries.
Context {F : Type} `{Float64Ops F}.

(** [bts.Data[i].Timestamp.Before(bts.Data[j].Timestamp)]. *)
Definition before (a b : BTCPrice F) : bool := (Timestamp a <? Timestamp b)%Z.

(** [Sort] mutates [bts.Data] in place; the embedding returns the
    series after the call. *)
Definition Sort (bts : BTCTimeSeries F) : BTCTimeSeries F :=
  {| Symbol := Symbol bts; Data := insertion_sort before (Data bts) |}.

Definition GetClosePrices (bts : BTCTimeSeries F) : list F :=
  map Close (Data bts).

Definition GetVolumeData (bts : BTCTimeSeries F) : list F :=
  map Volume (Data bts).

(** The zero value [types.BTCPrice{}]. *)
Definition BTCPrice_zero : BTCPrice F :=
  {| Timestamp := 0; Open := fromZ 0; High := fromZ 0; Low := fromZ 0;
     Close := fromZ 0; Volume := fromZ 0 |}.

#[export] Instance BTCPrice_inhabited : Inhabited (BTCPrice F) :=
  populate BTCPrice_zero.

(** Returns the latest bar and the series as [Sort] left it. *)
Definition GetLatestPrice (bts : BTCTimeSeries F) : BTCPrice F * BTCTimeSeries F :=
  if decide (length (Data bts) = 0) then (BTCPrice_zero, bts)
  else let bts' := Sort bts in
       (Data bts' !!! (length (Data bts') - 1), bts').
End Timeseries.

(** ** package indicators *)

Section Indicators.
Context {F : Type} `{Float64Ops F}.

(** [changes[i-1] = prices[i] - prices[i-1]] for [i] from 1. *)
Definition price_changes (prices : list F) : list F :=
  for_range 1 (length prices)
    (fun i changes => <[i - 1 := (prices !!! i - prices !!! (i - 1)%nat)%f64]> changes)
    (replicate (length prices - 1) (fromZ 0)).

(** The seed loop of [CalculateRSI]: sums of the gains and of the
    losses over the first [period] changes. *)
Definition rsi_seed (changes : list F) (period : nat) : F * F :=
  for_range 0 period
    (fun i '(avgGain, avgLoss) =>
       if (changes !!! i >? fromZ 0)%f64
       then ((avgGain + changes !!! i)%f64, avgLoss)
       else (avgGain, (avgLoss + fabs (changes !!! i))%f64))
    (fromZ 0, fromZ 0).

(** One round of Wilder's smoothing: the new averages and the RSI
    value stored at [rsi[i-period]].  [period-1] is computed on [int]. *)
Definition rsi_smooth (period : nat) (change avgGain avgLoss : F) : F * F * F :=
  let '(gain, loss) :=
    if (change >? fromZ 0)%f64 then (change, fromZ 0)
    else (fromZ 0, fabs change) in
  let avgGain := ((avgGain * fromZ (Z.of_nat period - 1) + gain) / float64 period)%f64 in
  let avgLoss := ((avgLoss * fromZ (Z.of_nat period - 1) + loss) / float64 period)%f64 in
  let rsiValue :=
    if (avgLoss =? fromZ 0)%f64 then fromZ 100
    else let rs := (avgGain / avgLoss)%f64 in
         (fromZ 100 - fromZ 100 / (fromZ 1 + rs))%f64 in
  (avgGain, avgLoss, rsiValue).

Definition rsi_body (changes : list F) (period i : nat) (st : F * F * list F)
  : F * F * list F :=
  let '(avgGain, avgLoss, rsi) := st in
  let '(avgGain, avgLoss, rsiValue) :=
    rsi_smooth period (changes !!! i) avgGain avgLoss in
  (avgGain, avgLoss, <[i - period := rsiValue]> rsi).

Definition CalculateRSI (bts : BTCTimeSeries F) (period : nat) : list F :=
  if decide (length (Data bts) < period + 1) then []
  else
    let prices := GetClosePrices bts in
    let rsi := replicate (length prices - period) (fromZ 0) in
    let changes := price_changes prices in
    let '(avgGain, avgLoss) := rsi_seed changes period in
    let avgGain := (avgGain / float64 period)%f64 in
    let avgLoss := (avgLoss / float64 period)%f64 in
    (for_range period (length changes) (rsi_body changes period)
       (avgGain, avgLoss, rsi)).2.

Definition calculateEMA (prices : list F) (period : nat) : list F :=
  if decide (length prices < period) then []
  else
    let ema := replicate (length prices - period + 1) (fromZ 0) in
    let multiplier := (fromZ 2 / (float64 period + fromZ 1))%f64 in
    let sum := for_range 0 period (fun i sum => (sum + prices !!! i)%f64) (fromZ 0) in
    let ema := <[0 := (sum / float64 period)%f64]> ema in
    for_range 1 (length ema)
      (fun i ema =>
         <[i := (prices !!! (period + i - 1)%nat * multiplier
                 + ema !!! (i - 1)%nat * (fromZ 1 - multiplier))%f64]> ema)
      ema.

(** The zero value [types.MACDData{}]. *)
Definition MACDData_zero : MACDData F :=
  {| MACD := []; Signal := []; Histogram := [] |}.

(** [fastEMA[startIdx:]] needs [0 <= startIdx <= len(fastEMA)]: Go
    panics when [fastPeriod > slowPeriod]; the repository calls the
    function with 12 and 26. *)
Definition CalculateMACD (bts : BTCTimeSeries F)
    (fastPeriod slowPeriod signalPeriod : nat) : MACDData F :=
  let prices := GetClosePrices bts in
  if decide (length prices < slowPeriod) then MACDData_zero
  else
    let fastEMA := calculateEMA prices fastPeriod in
    let slowEMA := calculateEMA prices slowPeriod in
    let startIdx := slowPeriod - fastPeriod in
    let alignedFastEMA := drop startIdx fastEMA in
    let macdLine :=
      for_range 0 (length slowEMA)
        (fun i macdLine =>
           if decide (i < length alignedFastEMA)
           then <[i := (alignedFastEMA !!! i - slowEMA !!! i)%f64]> macdLine
           else macdLine)
        (replicate (length slowEMA) (fromZ 0)) in
    let signalLine := calculateEMA macdLine signalPeriod in
    let startIdx2 := length macdLine - length signalLine in
    let histogram :=
      for_range 0 (length signalLine)
        (fun i histogram =>
           if decide (startIdx2 + i < length macdLine)
           then <[i := (macdLine !!! (startIdx2 + i)%nat - signalLine !!! i)%f64]> histogram
           else histogram)
        (replicate (length signalLine) (fromZ 0)) in
    {| MACD := macdLine; Signal := signalLine; Histogram := histogram |}.
End Indicators.

Section IndicatorsMath.
Context {F : Type} `{Float64Ops F} `{Float64Math F}.

(** The zero value [types.BollingerBandsData{}]. *)
Definition BollingerBandsData_zero : BollingerBandsData F :=
  {| Upper := []; Middle := []; Lower := [] |}.

(** The Go loop runs [i] from [period-1]; the embedding indexes the
    output slot [k = i-period+1], whose window is
    [prices[k], ..., prices[k+period-1]]. *)
Definition CalculateBollingerBands (bts : BTCTimeSeries F) (period : nat)
    (stdDevFactor : F) : BollingerBandsData F :=
  let prices := GetClosePrices bts in
  if decide (length prices < period) then BollingerBandsData_zero
  else
    let n := length prices - period + 1 in
    let z := replicate n (fromZ 0) in
    for_range 0 n
      (fun k bands =>
         let sum := for_range k (k + period)
                      (fun j sum => (sum + prices !!! j)%f64) (fromZ 0) in
         let sma := (sum / float64 period)%f64 in
         let sumSquaredDiff :=
           for_range k (k + period)
             (fun j acc => let diff := (prices !!! j - sma)%f64 in
                           (acc + diff * diff)%f64) (fromZ 0) in
         let stdDev := fsqrt (sumSquaredDiff / float64 period)%f64 in
         {| Upper := <[k := (sma + stdDevFactor * stdDev)%f64]> (Upper bands);
            Middle := <[k := sma]> (Middle bands);
            Lower := <[k := (sma - stdDevFactor * stdDev)%f64]> (Lower bands) |})
      {| Upper := z; Middle := z; Lower := z |}.
End IndicatorsMath.

(** ** package statistics *)

Section Statistics.
Context {F : Type} `{Float64Ops F} `{Float64Math F}.

(** [Float64Slice.Less]: ascending, with NaNs first. *)
Definition isNaN (x : F) : bool := negb (x =? x)%f64.
Definition float64_less (x y : F) : bool :=
  (x <? y)%f64 || (isNaN x && negb (isNaN y)).

Definition sort_Float64s (l : list F) : list F := insertion_sort float64_less l.

(** The zero value [types.Statistics{}]. *)
Definition Statistics_zero : Statistics F :=
  {| Count := 0; Mean := fromZ 0; Median := fromZ 0; StdDev := fromZ 0;
     Min := fromZ 0; Max := fromZ 0; Variance := fromZ 0 |}.

Definition Calculate (values : list F) : Statistics F :=
  if decide (length values = 0) then Statistics_zero
  else
    let sortedValues := sort_Float64s values in
    let n := length values in
    let min := sortedValues !!! 0 in
    let max := sortedValues !!! (n - 1) in
    let sum := sum_range values in
    let mean := (sum / float64 n)%f64 in
    let median :=
      if decide (n mod 2 = 0)
      then ((sortedValues !!! (n / 2 - 1)%nat + sortedValues !!! (n / 2)%nat) / fromZ 2)%f64
      else sortedValues !!! (n / 2) in
    let sumSquaredDiff :=
      fold_left (fun acc v => let diff := (v - mean)%f64 in (acc + diff * diff)%f64)
        values (fromZ 0) in
    let variance := (sumSquaredDiff / float64 n)%f64 in
    let stdDev := fsqrt variance in
    {| Count := n; Mean := mean; Median := median; StdDev := stdDev;
       Min := min; Max := max; Variance := variance |}.

(** The simple returns; the log returns of the second result are not
    embedded. *)
Definition CalculateReturns (bts : BTCTimeSeries F) : list F :=
  if decide (length (Data bts) < 2) then []
  else
    for_range 1 (length (Data bts))
      (fun i returns =>
         let prevPrice := Close (Data bts !!! (i - 1)) in
         let currPrice := Close (Data bts !!! i) in
         if (prevPrice >? fromZ 0)%f64
         then <[i - 1 := ((currPrice - prevPrice) / prevPrice)%f64]> returns
         else returns)
      (replicate (length (Data bts) - 1) (fromZ 0)).

Definition CalculateVolatility (returns : list F) (periodsPerYear : nat) : F :=
  if decide (length returns = 0) then fromZ 0
  else
    let stats := Calculate returns in
    (StdDev stats * fsqrt (float64 periodsPerYear))%f64.

Definition CalculateSharpeRatio (returns : list F) (riskFreeRate : F)
    (periodsPerYear : nat) : F :=
  if decide (length returns = 0) then fromZ 0
  else
    let stats := Calculate returns in
    if (StdDev stats =? fromZ 0)%f64 then fromZ 0
    else
      let annualizedReturn := (Mean stats * float64 periodsPerYear)%f64 in
      let annualizedVolatility := (StdDev stats * fsqrt (float64 periodsPerYear))%f64 in
      ((annualizedReturn - riskFreeRate) / annualizedVolatility)%f64.
End Statistics.

Section Drawdown.
Context {F : Type} `{Float64Ops F}.

(** One iteration of the loop of [CalculateMaxDrawdown] on the state
    [(peak, maxDrawdown)]. *)
Definition drawdown_step (st : F * F) (price : F) : F * F :=
  let '(peak, maxDrawdown) := st in
  let peak := if (price >? peak)%f64 then price else peak in
  let drawdown := ((peak - price) / peak)%f64 in
  let maxDrawdown := if (drawdown >? maxDrawdown)%f64 then drawdown else maxDrawdown in
  (peak, maxDrawdown).

Definition CalculateMaxDrawdown (bts : BTCTimeSeries F) : F :=
  let prices := GetClosePrices bts in
  if decide (length prices = 0) then fromZ 0
  else
    let maxDrawdown := fromZ 0 in
    let peak := prices !!! 0 in
    (fold_left drawdown_step prices (peak, maxDrawdown)).2.
End Drawdown.

Section RiskMetrics.
Context {F : Type} `{Float64Ops F} `{Float64Math F}.

Definition GetRiskMetrics (bts : BTCTimeSeries F) : gmap string F :=
  let metrics : gmap string F := ∅ in
  if decide (length (Data bts) < 30) then metrics
  else
    let returns := CalculateReturns bts in
    if decide (length returns = 0) then metrics
    else
      let volatility := CalculateVolatility returns 365 in
      let maxDrawdown := CalculateMaxDrawdown bts in
      let sharpeRatio := CalculateSharpeRatio returns (fromZ 0) 365 in
      let metrics := <["volatility_annual" := volatility]> metrics in
      let metrics := <["max_drawdown" := maxDrawdown]> metrics in
      let metrics := <["sharpe_ratio" := sharpeRatio]> metrics in
      let returnStats := Calculate returns in
      let var_95 := (Mean returnStats - lit 1645 1000 * StdDev returnStats)%f64 in
      let metrics := <["var_95" := var_95]> metrics in
      let metrics := <["var_95_annual" := (var_95 * fsqrt (fromZ 365))%f64]> metrics in
      let sortedReturns := sort_Float64s returns in
      let var5Index := ftoint (lit 5 100 * float64 (length sortedReturns))%f64 in
      let metrics :=
        if decide (var5Index < Z.of_nat (length sortedReturns))%Z
        then
          let cvarSum :=
            for_range 0 (Z.to_nat (var5Index + 1))
              (fun i cvarSum => (cvarSum + sortedReturns !!! i)%f64) (fromZ 0) in
          <["cvar_95" := (cvarSum / fromZ (var5Index + 1))%f64]> metrics
        else metrics in
      let downsideReturns := List.filter (fun ret => (ret <? fromZ 0)%f64) returns in
      let metrics :=
        if decide (0 < length downsideReturns)
        then
          let downsideStats := Calculate downsideReturns in
          let downsideDeviation := (StdDev downsideStats * fsqrt (fromZ 365))%f64 in
          if (downsideDeviation >? fromZ 0)%f64
          then <["sortino_ratio" :=
                   ((Mean returnStats * fromZ 365) / downsideDeviation)%f64]> metrics
          else metrics
        else metrics in
      let marketVolatility := lit 16 100 in
      <["beta_estimate" := (volatility / marketVolatility)%f64]> metrics.
End RiskMetrics.

(** ** package patterns *)

Section Patterns.
Context {F : Type} `{Float64Ops F}.

(** [sum/float64(len(currentCluster))]. *)
Definition cluster_mean (currentCluster : list F) : F :=
  (sum_range currentCluster / float64 (length currentCluster))%f64.

(** The loop of [clusterLevels] on the state
    [(clustered, currentCluster)]. *)
Definition cluster_body (levels : list F) (tolerance : F) (i : nat)
    (st : list F * list F) : list F * list F :=
  let '(clustered, currentCluster) := st in
  if (fabs (levels !!! i - levels !!! (i - 1)%nat) / levels !!! (i - 1)%nat
      <=? tolerance)%f64
  then (clustered, currentCluster ++ [levels !!! i])
  else (clustered ++ [cluster_mean currentCluster], [levels !!! i]).

Definition clusterLevels (levels : list F) (tolerance : F) : list F :=
  if decide (length levels = 0) then levels
  else
    let levels := sort_Float64s levels in
    let '(clustered, currentCluster) :=
      for_range 1 (length levels) (cluster_body levels tolerance)
        ([], [levels !!! 0]) in
    if decide (0 < length currentCluster)
    then clustered ++ [cluster_mean currentCluster]
    else clustered.

(** The zero value [types.SupportResistanceData{}]. *)
Definition SupportResistanceData_zero : SupportResistanceData F :=
  {| SupportLevels := []; ResistanceLevels := [] |}.

(** The inner loop: is bar [i] a local minimum of the lows, a local
    maximum of the highs, in the window of radius [lookbackPeriod]? *)
Definition local_extremum (data : list (BTCPrice F)) (lookbackPeriod i : nat)
    : bool * bool :=
  let currentPrice := data !!! i in
  for_range (i - lookbackPeriod) (i + lookbackPeriod + 1)
    (fun j '(isSupport, isResistance) =>
       if decide (j ≠ i)
       then (if (Low (data !!! j) <? Low currentPrice)%f64 then false else isSupport,
             if (High (data !!! j) >? High currentPrice)%f64 then false else isResistance)
       else (isSupport, isResistance))
    (true, true).

(** Returns the levels and the series as [timeseries.Sort] left it. *)
Definition FindSupportResistanceLevels (bts : BTCTimeSeries F)
    (lookbackPeriod : nat) (tolerance : F)
    : SupportResistanceData F * BTCTimeSeries F :=
  if decide (length (Data bts) < lookbackPeriod * 2)
  then (SupportResistanceData_zero, bts)
  else
    let bts := Sort bts in
    let '(supportLevels, resistanceLevels) :=
      for_range lookbackPeriod (length (Data bts) - lookbackPeriod)
        (fun i '(supportLevels, resistanceLevels) =>
           let currentPrice := Data bts !!! i in
           let '(isSupport, isResistance) :=
             local_extremum (Data bts) lookbackPeriod i in
           (if isSupport then supportLevels ++ [Low currentPrice] else supportLevels,
            if isResistance then resistanceLevels ++ [High currentPrice]
            else resistanceLevels))
        ([], []) in
    ({| SupportLevels := clusterLevels supportLevels tolerance;
        ResistanceLevels := clusterLevels resistanceLevels tolerance |}, bts).

(** [prices[len(prices)-period]] needs [period >= 1]; the repository
    calls the function with 30. *)
Definition DetectTrend (bts : BTCTimeSeries F) (period : nat) : string :=
  if decide (length (Data bts) < period) then "insufficient_data"
  else
    let prices := GetClosePrices bts in
    let startPrice := prices !!! (length prices - period) in
    let endPrice := prices !!! (length prices - 1) in
    let change := ((endPrice - startPrice) / startPrice)%f64 in
    if (change >? lit 5 100)%f64 then "uptrend"
    else if (change <? lit (-5) 100)%f64 then "downtrend"
    else "sideways".

Definition FindPivotPoints (bts : BTCTimeSeries F) : gmap string F :=
  let pivots : gmap string F := ∅ in
  if decide (length (Data bts) = 0) then pivots
  else
    let latest := Data bts !!! (length (Data bts) - 1) in
    let high := High latest in
    let low := Low latest in
    let close := Close latest in
    let pivot := ((high + low + close) / fromZ 3)%f64 in
    let pivots := <["pivot" := pivot]> pivots in
    let pivots := <["r1" := (fromZ 2 * pivot - low)%f64]> pivots in
    let pivots := <["s1" := (fromZ 2 * pivot - high)%f64]> pivots in
    let pivots := <["r2" := (pivot + (high - low))%f64]> pivots in
    let pivots := <["s2" := (pivot - (high - low))%f64]> pivots in
    let pivots := <["r3" := (high + fromZ 2 * (pivot - low))%f64]> pivots in
    let pivots := <["s3" := (low - fromZ 2 * (high - pivot))%f64]> pivots in
    pivots.
End Patterns.

(** ** package analyzer *)

Section Analyzer.
Context {F : Type} `{Float64Ops F} `{Float64Math F}.

(** The zero value [types.BTCAnalytics{}]. *)
Definition BTCAnalytics_zero : BTCAnalytics F :=
  {| PriceStats := Statistics_zero; VolumeStats := Statistics_zero;
     Volatility := fromZ 0; SharpeRatio := fromZ 0; MaxDrawdown := fromZ 0;
     Returns := []; RSI := []; MACD_ := MACDData_zero;
     BollingerBands := BollingerBandsData_zero;
     SupportResistance := SupportResistanceData_zero |}.

(** Returns the aggregate and the series as the call left it
    ([FindSupportResistanceLevels] sorts it in place). *)
Definition PerformComprehensiveAnalysis (bts : BTCTimeSeries F)
    : BTCAnalytics F * BTCTimeSeries F :=
  if decide (length (Data bts) < 2) then (BTCAnalytics_zero, bts)
  else
    let prices := GetClosePrices bts in
    let volumes := GetVolumeData bts in
    let priceStats := Calculate prices in
    let volumeStats := Calculate volumes in
    let returns := CalculateReturns bts in
    let '(volatility, sharpeRatio, maxDrawdown) :=
      if decide (0 < length returns)
      then (CalculateVolatility returns 365,
            CalculateSharpeRatio returns (fromZ 0) 365,
            CalculateMaxDrawdown bts)
      else (fromZ 0, fromZ 0, fromZ 0) in
    let rsi := if decide (14 ≤ length (Data bts)) then CalculateRSI bts 14 else [] in
    let macd := if decide (26 ≤ length (Data bts)) then CalculateMACD bts 12 26 9
                else MACDData_zero in
    let bollingerBands :=
      if decide (20 ≤ length (Data bts)) then CalculateBollingerBands bts 20 (fromZ 2)
      else BollingerBandsData_zero in
    let '(supportResistance, bts') :=
      if decide (10 ≤ length (Data bts))
      then FindSupportResistanceLevels bts 5 (lit 2 100)
      else (SupportResistanceData_zero, bts) in
    ({| PriceStats := priceStats; VolumeStats := volumeStats;
        Volatility := volatility; SharpeRatio := sharpeRatio;
        MaxDrawdown := maxDrawdown; Returns := returns; RSI := rsi;
        MACD_ := macd; BollingerBands := bollingerBands;
        SupportResistance := supportResistance |}, bts').

(** Each block of [GetTradingSignals] updates the map of signals and,
    where it calls [GetLatestPrice], the series. *)
Definition rsi_signal (analytics : BTCAnalytics F) (signals : gmap string string)
    : gmap string string :=
  if decide (0 < length (RSI analytics))
  then
    let latestRSI := RSI analytics !!! (length (RSI analytics) - 1) in
    if (latestRSI >? fromZ 70)%f64 then <["RSI" := "SELL - Overbought"]> signals
    else if (latestRSI <? fromZ 30)%f64 then <["RSI" := "BUY - Oversold"]> signals
    else <["RSI" := "HOLD - Neutral"]> signals
  else signals.

Definition macd_signal (analytics : BTCAnalytics F) (signals : gmap string string)
    : gmap string string :=
  let macd := MACD (MACD_ analytics) in
  let signal := Signal (MACD_ analytics) in
  if decide (1 < length macd ∧ 1 < length signal)
  then
    let latestMACD := macd !!! (length macd - 1) in
    let prevMACD := macd !!! (length macd - 2) in
    let latestSignal := signal !!! (length signal - 1) in
    let prevSignal := signal !!! (length signal - 2) in
    if (prevMACD <=? prevSignal)%f64 && (latestMACD >? latestSignal)%f64
    then <["MACD" := "BUY - Bullish crossover"]> signals
    else if (prevMACD >=? prevSignal)%f64 && (latestMACD <? latestSignal)%f64
    then <["MACD" := "SELL - Bearish crossover"]> signals
    else if (latestMACD >? latestSignal)%f64
    then <["MACD" := "HOLD - Bullish"]> signals
    else <["MACD" := "HOLD - Bearish"]> signals
  else signals.

(** [Lower[latest]] is read under the guard on [len(Upper)] alone: where
    [Lower] is shorter the read is out of range, the call panics and
    returns nothing, here [None]. *)
Definition bollinger_signal (analytics : BTCAnalytics F)
    (st : gmap string string * BTCTimeSeries F)
    : option (gmap string string * BTCTimeSeries F) :=
  let '(signals, bts) := st in
  let bands := BollingerBands analytics in
  if decide (0 < length (Upper bands))
  then
    let '(latestBar, bts) := GetLatestPrice bts in
    let latestPrice := Close latestBar in
    let latest := length (Upper bands) - 1 in
    let upper := Upper bands !!! latest in
    match Lower bands !! latest with
    | None => None
    | Some lower =>
        Some (if (latestPrice >? upper)%f64
              then <["Bollinger" := "SELL - Price above upper band"]> signals
              else if (latestPrice <? lower)%f64
              then <["Bollinger" := "BUY - Price below lower band"]> signals
              else <["Bollinger" := "HOLD - Price in normal range"]> signals, bts)
    end
  else Some (signals, bts).

Definition trend_signal (bts : BTCTimeSeries F) (signals : gmap string string)
    : gmap string string :=
  let trend := DetectTrend bts 30 in
  if decide (trend = "uptrend") then <["Trend" := "BUY - Uptrend detected"]> signals
  else if decide (trend = "downtrend")
  then <["Trend" := "SELL - Downtrend detected"]> signals
  else <["Trend" := "HOLD - Sideways movement"]> signals.

(** [math.Abs(latestPrice-level)/level < 0.02]. *)
Definition near (latestPrice level : F) : bool :=
  (fabs (latestPrice - level) / level <? lit 2 100)%f64.

Definition level_signal (analytics : BTCAnalytics F)
    (st : gmap string string * BTCTimeSeries F)
    : gmap string string * BTCTimeSeries F :=
  let '(signals, bts) := st in
  let sr := SupportResistance analytics in
  if decide (0 < length (SupportLevels sr) ∨ 0 < length (ResistanceLevels sr))
  then
    let '(latestBar, bts) := GetLatestPrice bts in
    let latestPrice := Close latestBar in
    let signals :=
      if existsb (near latestPrice) (SupportLevels sr)
      then <["Support" := "BUY - Near support level"]> signals else signals in
    let signals :=
      if existsb (near latestPrice) (ResistanceLevels sr)
      then <["Resistance" := "SELL - Near resistance level"]> signals else signals in
    (signals, bts)
  else (signals, bts).

(** Returns the signals and the series as the call left it, or [None]
    where the call panics. *)
Definition GetTradingSignals (bts : BTCTimeSeries F) (analytics : BTCAnalytics F)
    : option (gmap string string * BTCTimeSeries F) :=
  let signals : gmap string string := ∅ in
  let signals := rsi_signal analytics signals in
  let signals := macd_signal analytics signals in
  match bollinger_signal analytics (signals, bts) with
  | None => None
  | Some (signals, bts) =>
      let signals := trend_signal bts signals in
      Some (level_signal analytics (signals, bts))
  end.
End Analyzer.

(** * Vocabulary of the specification *)

(** [ascending less l]: no element is [less] than its predecessor. *)
Fixpoint ascending {A} (less : A -> A -> bool) (l : list A) : Prop :=
  match l with
  | a :: (b :: _) as t => less b a = false ∧ ascending less t
  | _ => True
  end.

(** The same for a prefix held reversed. *)
Fixpoint descending {A} (less : A -> A -> bool) (r : list A) : Prop :=
  match r with
  | y :: (z :: _) as t => less y z = false ∧ descending less t
  | _ => True
  end.

Section Vocabulary.
Context {F : Type} `{Float64Ops F}.

(** The smoothing constant [2/(period+1)]. *)
Definition ema_multiplier (period : nat) : F :=
  (fromZ 2 / (float64 period + fromZ 1))%f64.

(** [sum/float64(period)] over the first [period] values. *)
Definition simple_mean (values : list F) (period : nat) : F :=
  (sum_range (take period values) / float64 period)%f64.

(** The loop of [clusterLevels] read as a recursion over the sorted
    levels that remain: [prev] is [levels[i-1]], [cur] the cluster
    being collected. *)
Fixpoint cluster_run (tolerance prev : F) (cur rest : list F) : list F :=
  match rest with
  | [] => [cluster_mean cur]
  | x :: rest' =>
      if (fabs (x - prev) / prev <=? tolerance)%f64
      then cluster_run tolerance x (cur ++ [x]) rest'
      else cluster_mean cur :: cluster_run tolerance x [x] rest'
  end.

(** Two bars in ascending order of their timestamps. *)
Definition by_timestamp (a b : BTCPrice F) : Prop := (Timestamp a <= Timestamp b)%Z.

(** A series with the given closes, one flat bar a day. *)
Definition series_of_closes (closes : list F) : BTCTimeSeries F :=
  {| Symbol := "BTC";
     Data := imap (fun i c => {| Timestamp := Z.of_nat i; Open := c; High := c;
                                  Low := c; Close := c; Volume := fromZ 0 |})
               closes |}.
End Vocabulary.

Section DrawdownSpec.
Context {F : Type} `{Float64Ops F}.

(** The greater of two values. *)
Definition fmax (a b : F) : F := if (a <? b)%f64 then b else a.

(** The highest close among bars [0..i], scanning from [start]. *)
Definition running_peak_from (start : F) (prices : list F) (i : nat) : F :=
  fold_left fmax (take (S i) prices) start.

(** The running peak at bar [i]: the highest close so far. *)
Definition running_peak (prices : list F) (i : nat) : F :=
  running_peak_from (prices !!! 0) prices i.


End DrawdownSpec.

Section VocabularyMath.
Context {F : Type} `{Float64Ops F} `{Float64Math F}.

(** The returns below zero, in their order. *)
Definition downsideReturns (returns : list F) : list F :=
  List.filter (fun ret => (ret <? fromZ 0)%f64) returns.

(** [downsideStats.StdDev * math.Sqrt(365)]. *)
Definition downsideDeviation (returns : list F) : F :=
  (StdDev (Calculate (downsideReturns returns)) * fsqrt (fromZ 365))%f64.

(** Some return is below zero. *)
Definition has_negative (returns : list F) : bool :=
  existsb (fun ret => (ret <? fromZ 0)%f64) returns.
End VocabularyMath.

Section VocabularyExact.
Context {F : Type} `{ExactArith F}.

(** A value of the RSI scale. *)
Definition in_0_100 (v : F) : Prop := (0 <= toR v <= 100)%R.


(** What one pass leaves: levels in ascending order, each more than
    [tolerance] (relatively) above the one before. *)
Fixpoint well_separated (tolerance : F) (l : list F) : Prop :=
  match l with
  | a :: (b :: _) as t =>
      ((toR a <= toR b)%R
       ∧ (fabs (b - a) / a <=? tolerance)%f64 = false)
      ∧ well_separated tolerance t
  | _ => True
  end.

(** The clusters behind the output: the level [m] of a cluster lies in
    its span [lo', hi'], and the span starts more than [tolerance]
    above the end [hi] of the cluster before. *)
Inductive spans (tolerance : F) : R -> list F -> Prop :=
| spans_nil hi : spans tolerance hi []
| spans_cons hi lo' hi' m out :
    (hi <= lo')%R ->
    (toR tolerance < (lo' - hi) / hi)%R ->
    (lo' <= toR m <= hi')%R ->
    spans tolerance hi' out ->
    spans tolerance hi (m :: out).
End VocabularyExact.

(** * The rest of the packages *)

(** ** A third carrier: the real numbers

    Exact arithmetic with a square root.  Nothing is computed on it; it
    shows that the laws asked of a carrier with [math.Sqrt] can be met. *)

Definition R_to_Z (x : R) : Z :=
  if Rlt_dec x 0 then (- Int_part (- x))%Z else Int_part x.

#[export] Instance R_ops : Float64Ops R := {|
  fromZ := IZR;
  fadd := Rplus;
  fsub := Rminus;
  fmul := Rmult;
  fdiv := Rdiv;
  fabs := Rabs;
  fltb x y := if Rlt_dec x y then true else false;
  fleb x y := if Rle_dec x y then true else false;
  feqb x y := if Req_dec_T x y then true else false;
  ftoint := R_to_Z;
|}.

#[export] Instance R_math : Float64Math R := {|
  fsqrt := R_sqrt.sqrt;
|}.

(** An exact carrier whose [math.Sqrt] is the real square root on the
    values that have one. *)
Class ExactMath (F : Type) `{ExactArith F} `{!Float64Math F} : Type := {
  toR_sqrt : forall x, (0 <= toR x)%R -> toR (fsqrt x) = R_sqrt.sqrt (toR x);
}.

(** ** package timeseries, continued *)

Section TimeseriesMore.
Context {F : Type} `{Float64Ops F}.

Definition New (symbol : string) : BTCTimeSeries F :=
  {| Symbol := symbol; Data := [] |}.

Definition AddPrice (bts : BTCTimeSeries F) (price : BTCPrice F) : BTCTimeSeries F :=
  {| Symbol := Symbol bts; Data := Data bts ++ [price] |}.

(** Returns the first and the last timestamp and the series as [Sort]
    left it; [time.Time{}] is the timestamp 0. *)
Definition GetTimeRange (bts : BTCTimeSeries F) : (Z * Z) * BTCTimeSeries F :=
  if decide (length (Data bts) = 0) then ((0, 0)%Z, bts)
  else let bts' := Sort bts in
       ((Timestamp (Data bts' !!! 0),
         Timestamp (Data bts' !!! (length (Data bts') - 1))), bts').

(** [(t.Equal(start) || t.After(start)) && (t.Equal(end) || t.Before(end))]. *)
Definition in_date_range (start end_ : Z) (price : BTCPrice F) : bool :=
  ((Timestamp price =? start) || (start <? Timestamp price))%Z
  && ((Timestamp price =? end_) || (Timestamp price <? end_))%Z.

Definition FilterByDateRange (bts : BTCTimeSeries F) (start end_ : Z)
    : BTCTimeSeries F :=
  fold_left
    (fun filtered price =>
       if in_date_range start end_ price then AddPrice filtered price else filtered)
    (Data bts) (New (String.append (Symbol bts) "_filtered")).

(** [t.Truncate(d)]: [t] rounded down to a multiple of [d] since the
    zero time. *)
Definition Truncate (t d : Z) : Z := (t - t mod d)%Z.

(** [24 * time.Hour], in nanoseconds. *)
Definition day_ns : Z := 86400000000000.

(** The loop of [aggregateDayData] on the state [(high, low, volume)]. *)
Definition aggregate_step (st : F * F * F) (price : BTCPrice F) : F * F * F :=
  let '(high, low, volume) := st in
  (if (High price >? high)%f64 then High price else high,
   if (Low price <? low)%f64 then Low price else low,
   (volume + Volume price)%f64).

Definition aggregateDayData (dayData : list (BTCPrice F)) (day : Z) : BTCPrice F :=
  if decide (length dayData = 0) then BTCPrice_zero
  else
    let open := Open (dayData !!! 0) in
    let close := Close (dayData !!! (length dayData - 1)) in
    let '(high, low, volume) :=
      fold_left aggregate_step dayData
        (High (dayData !!! 0), Low (dayData !!! 0), fromZ 0) in
    {| Timestamp := day; Open := open; High := high; Low := low;
       Close := close; Volume := volume |}.

(** "Process accumulated day data": the bars of the day, if any, become
    one bar of the resampled series. *)
Definition flush_day (resampled : BTCTimeSeries F) (dayData : list (BTCPrice F))
    (currentDay : Z) : BTCTimeSeries F :=
  if decide (0 < length dayData)
  then AddPrice resampled (aggregateDayData dayData currentDay)
  else resampled.

(** The loop of [ResampleToDaily] on the state
    [(resampled, currentDay, dayData)]. *)
Definition resample_step (st : BTCTimeSeries F * Z * list (BTCPrice F))
    (price : BTCPrice F) : BTCTimeSeries F * Z * list (BTCPrice F) :=
  let '(resampled, currentDay, dayData) := st in
  let priceDay := Truncate (Timestamp price) day_ns in
  if (priceDay =? currentDay)%Z
  then (resampled, currentDay, dayData ++ [price])
  else (flush_day resampled dayData currentDay, priceDay, [price]).

(** Returns the daily series and the input series as [Sort] left it. *)
Definition ResampleToDaily (bts : BTCTimeSeries F)
    : BTCTimeSeries F * BTCTimeSeries F :=
  if decide (length (Data bts) = 0)
  then (New (String.append (Symbol bts) "_daily"), bts)
  else
    let bts := Sort bts in
    let resampled := New (String.append (Symbol bts) "_daily") in
    let currentDay := Truncate (Timestamp (Data bts !!! 0)) day_ns in
    let '(resampled, currentDay, dayData) :=
      fold_left resample_step (Data bts) (resampled, currentDay, []) in
    (flush_day resampled dayData currentDay, bts).
End TimeseriesMore.

(** ** package indicators, continued *)

Section IndicatorsMore.
Context {F : Type} `{Float64Ops F}.

(** [sum/float64(period)] over the window that starts at [k]. *)
Definition window_mean (prices : list F) (period k : nat) : F :=
  (for_range k (k + period) (fun j sum => (sum + prices !!! j)%f64) (fromZ 0)
   / float64 period)%f64.

(** As in [CalculateBollingerBands], the output slot [k = i-period+1]
    indexes the loop. *)
Definition CalculateMovingAverage (bts : BTCTimeSeries F) (period : nat) : list F :=
  if decide (length (Data bts) < period) then []
  else
    let prices := GetClosePrices bts in
    let n := length prices - period + 1 in
    for_range 0 n (fun k ma => <[k := window_mean prices period k]> ma)
      (replicate n (fromZ 0)).

(** The inner loop of [CalculateStochasticOscillator] over the bars
    [start..i], on the state [(highestHigh, lowestLow)]. *)
Definition window_extremes (data : list (BTCPrice F)) (start i : nat) : F * F :=
  for_range start (i + 1)
    (fun j '(highestHigh, lowestLow) =>
       (if (High (data !!! j) >? highestHigh)%f64 then High (data !!! j)
        else highestHigh,
        if (Low (data !!! j) <? lowestLow)%f64 then Low (data !!! j)
        else lowestLow))
    (High (data !!! start), Low (data !!! start)).

(** The output slot [k = i-kPeriod+1] indexes the loop; [kPeriod >= 1]
    (with [kPeriod = 0] the Go function reads [Data[-1]] and panics). *)
Definition CalculateStochasticOscillator (bts : BTCTimeSeries F) (kPeriod : nat)
    : list F :=
  if decide (length (Data bts) < kPeriod) then []
  else
    let n := length (Data bts) - kPeriod + 1 in
    for_range 0 n
      (fun k stochastic =>
         let i := k + kPeriod - 1 in
         let '(highestHigh, lowestLow) := window_extremes (Data bts) k i in
         let currentClose := Close (Data bts !!! i) in
         if negb (highestHigh - lowestLow =? fromZ 0)%f64
         then <[k := ((currentClose - lowestLow) / (highestHigh - lowestLow)
                      * fromZ 100)%f64]> stochastic
         else <[k := fromZ 50]> stochastic)
      (replicate n (fromZ 0)).
End IndicatorsMore.

(** ** package statistics, continued *)

Section StatisticsMore.
Context {F : Type} `{Float64Ops F} `{Float64Math F}.

(** The five running sums of [CalculateCorrelation]. *)
Definition correlation_sums (x y : list F) : F * F * F * F * F :=
  for_range 0 (length x)
    (fun i '(sumX, sumY, sumXY, sumX2, sumY2) =>
       ((sumX + x !!! i)%f64, (sumY + y !!! i)%f64,
        (sumXY + x !!! i * y !!! i)%f64,
        (sumX2 + x !!! i * x !!! i)%f64,
        (sumY2 + y !!! i * y !!! i)%f64))
    (fromZ 0, fromZ 0, fromZ 0, fromZ 0, fromZ 0).

Definition CalculateCorrelation (x y : list F) : F :=
  if decide (length x ≠ length y ∨ length x = 0) then fromZ 0
  else
    let n := length x in
    let '(sumX, sumY, sumXY, sumX2, sumY2) := correlation_sums x y in
    let numerator := (float64 n * sumXY - sumX * sumY)%f64 in
    let denominator :=
      fsqrt ((float64 n * sumX2 - sumX * sumX) * (float64 n * sumY2 - sumY * sumY))%f64 in
    if (denominator =? fromZ 0)%f64 then fromZ 0
    else (numerator / denominator)%f64.
End StatisticsMore.

(** [math.Pow]. *)
Class Float64Pow (F : Type) := {
  fpow : F -> F -> F;
}.

#[export] Instance R_pow : Float64Pow R := {|
  fpow := Rpower;
|}.

Section Backtest.
Context {F : Type} `{Float64Ops F} `{Float64Pow F}.

(** [time.Hour], in nanoseconds. *)
Definition hour_ns : Z := 3600000000000.

(** The least and the greatest [time.Duration], an [int64] of
    nanoseconds. *)
Definition minDuration : Z := - 2 ^ 63.
Definition maxDuration : Z := 2 ^ 63 - 1.

(** [Time.Sub] of two times without monotonic clock reading: the
    difference [t - u], or the nearest end of [int64] when the difference
    does not fit a [Duration] (about 292 years). *)
Definition Sub (t u : Z) : Z :=
  let d := (t - u)%Z in
  if (d <? minDuration)%Z then minDuration
  else if (maxDuration <? d)%Z then maxDuration
  else d.

(** [Duration.Hours]: the whole hours and the rest are converted apart. *)
Definition Hours (d : Z) : F :=
  (fromZ (Z.quot d hour_ns) + fromZ (Z.rem d hour_ns) / fromZ hour_ns)%f64.

(** Returns the results and the series as [timeseries.Sort] left it. *)
Definition PerformBacktest (bts : BTCTimeSeries F) (startAmount : F)
    : gmap string F * BTCTimeSeries F :=
  let results : gmap string F := ∅ in
  if decide (length (Data bts) < 2) then (results, bts)
  else
    let bts := Sort bts in
    let first := Data bts !!! 0 in
    let last := Data bts !!! (length (Data bts) - 1) in
    let startPrice := Close first in
    let endPrice := Close last in
    let btcAmount := (startAmount / startPrice)%f64 in
    let endValue := (btcAmount * endPrice)%f64 in
    let totalReturn := ((endValue - startAmount) / startAmount)%f64 in
    let days := (Hours (Sub (Timestamp last) (Timestamp first)) / fromZ 24)%f64 in
    let annualizedReturn :=
      (fpow (fromZ 1 + totalReturn) (fromZ 365 / days) - fromZ 1)%f64 in
    let results := <["start_amount" := startAmount]> results in
    let results := <["end_value" := endValue]> results in
    let results := <["total_return" := totalReturn]> results in
    let results := <["annualized_return" := annualizedReturn]> results in
    let results := <["btc_purchased" := btcAmount]> results in
    let results := <["days_held" := days]> results in
    let results := <["start_price" := startPrice]> results in
    let results := <["end_price" := endPrice]> results in
    (results, bts).
End Backtest.

(** ** package patterns, continued *)

Section PatternsMore.
Context {F : Type} `{Float64Ops F}.

(** [math.IsInf(x, -1)], [math.IsInf(x, 1)] and, for a zero,
    [math.Signbit], written with the operations of the interface. *)
Definition isNegInf (x : F) : bool := (x <? fromZ 0)%f64 && (x + x =? x)%f64.
Definition isPosInf (x : F) : bool := (fromZ 0 <? x)%f64 && (x + x =? x)%f64.
Definition zero_signbit (x : F) : bool := (fromZ 1 / x <? fromZ 0)%f64.

(** [math.Min] and [math.Max] with their special cases: an infinity
    first, then a NaN, then the two zeros. *)
Definition math_Min (x y : F) : F :=
  if isNegInf x then x else if isNegInf y then y
  else if isNaN x then x else if isNaN y then y
  else if (x =? fromZ 0)%f64 && (x =? y)%f64
       then if zero_signbit x then x else y
  else if (x <? y)%f64 then x else y.

Definition math_Max (x y : F) : F :=
  if isPosInf x then x else if isPosInf y then y
  else if isNaN x then x else if isNaN y then y
  else if (x =? fromZ 0)%f64 && (x =? y)%f64
       then if zero_signbit x then y else x
  else if (x >? y)%f64 then x else y.

Definition isDoji (candle : BTCPrice F) : bool :=
  let body := fabs (Close candle - Open candle)%f64 in
  let range_ := (High candle - Low candle)%f64 in
  (range_ >? fromZ 0)%f64 && (body / range_ <? lit 1 10)%f64.

Definition isHammer (candle : BTCPrice F) : bool :=
  let body := fabs (Close candle - Open candle)%f64 in
  let lowerShadow := (math_Min (Open candle) (Close candle) - Low candle)%f64 in
  let upperShadow := (High candle - math_Max (Open candle) (Close candle))%f64 in
  let range_ := (High candle - Low candle)%f64 in
  (range_ >? fromZ 0)%f64 && (lowerShadow >? fromZ 2 * body)%f64
  && (upperShadow <? body * lit 5 10)%f64.

Definition isShootingStar (candle : BTCPrice F) : bool :=
  let body := fabs (Close candle - Open candle)%f64 in
  let lowerShadow := (math_Min (Open candle) (Close candle) - Low candle)%f64 in
  let upperShadow := (High candle - math_Max (Open candle) (Close candle))%f64 in
  let range_ := (High candle - Low candle)%f64 in
  (range_ >? fromZ 0)%f64 && (upperShadow >? fromZ 2 * body)%f64
  && (lowerShadow <? body * lit 5 10)%f64.

Definition isBullishEngulfing (prev curr : BTCPrice F) : bool :=
  let prevBearish := (Close prev <? Open prev)%f64 in
  let currBullish := (Close curr >? Open curr)%f64 in
  prevBearish && currBullish
  && (Open curr <? Close prev)%f64 && (Close curr >? Open prev)%f64.

Definition isBearishEngulfing (prev curr : BTCPrice F) : bool :=
  let prevBullish := (Close prev >? Open prev)%f64 in
  let currBearish := (Close curr <? Open curr)%f64 in
  prevBullish && currBearish
  && (Open curr >? Close prev)%f64 && (Close curr <? Open prev)%f64.

Definition isMorningStar (first second third : BTCPrice F) : bool :=
  let firstBearish := (Close first <? Open first)%f64 in
  let secondSmall :=
    (fabs (Close second - Open second) <? fabs (Close first - Open first) * lit 3 10)%f64 in
  let thirdBullish := (Close third >? Open third)%f64 in
  firstBearish && secondSmall && thirdBullish
  && (High second <? Low first)%f64
  && (Close third >? (Open first + Close first) / fromZ 2)%f64.

Definition isEveningStar (first second third : BTCPrice F) : bool :=
  let firstBullish := (Close first >? Open first)%f64 in
  let secondSmall :=
    (fabs (Close second - Open second) <? fabs (Close first - Open first) * lit 3 10)%f64 in
  let thirdBearish := (Close third <? Open third)%f64 in
  firstBullish && secondSmall && thirdBearish
  && (Low second >? High first)%f64
  && (Close third <? (Open first + Close first) / fromZ 2)%f64.

(** [patterns[key] = append(patterns[key], i)] when [found]; a key
    that is missing reads as the nil slice. *)
Definition mark (found : bool) (key : string) (i : nat)
    (patterns : gmap string (list nat)) : gmap string (list nat) :=
  if found then <[key := default [] (patterns !! key) ++ [i]]> patterns
  else patterns.

(** One bar of the loop of [DetectCandlestickPatterns]. *)
Definition candlestick_body (data : list (BTCPrice F)) (i : nat)
    (patterns : gmap string (list nat)) : gmap string (list nat) :=
  let prev := data !!! (i - 1) in
  let curr := data !!! i in
  let patterns := mark (isDoji curr) "doji" i patterns in
  let patterns := mark (isHammer curr) "hammer" i patterns in
  let patterns := mark (isShootingStar curr) "shooting_star" i patterns in
  let patterns := mark (isBullishEngulfing prev curr) "bullish_engulfing" i patterns in
  let patterns := mark (isBearishEngulfing prev curr) "bearish_engulfing" i patterns in
  if decide (1 < i)
  then
    let prevPrev := data !!! (i - 2) in
    let patterns := mark (isMorningStar prevPrev prev curr) "morning_star" i patterns in
    mark (isEveningStar prevPrev prev curr) "evening_star" i patterns
  else patterns.

(** Returns the patterns and the series as [timeseries.Sort] left it. *)
Definition DetectCandlestickPatterns (bts : BTCTimeSeries F)
    : gmap string (list nat) * BTCTimeSeries F :=
  let patterns : gmap string (list nat) := ∅ in
  if decide (length (Data bts) < 3) then (patterns, bts)
  else
    let bts := Sort bts in
    (for_range 1 (length (Data bts) - 1) (candlestick_body (Data bts)) patterns, bts).

(** One bar of the loop of [DetectVolumePatterns]. *)
Definition volume_body (data : list (BTCPrice F)) (avgVolume : F) (i : nat)
    (patterns : gmap string (list nat)) : gmap string (list nat) :=
  let curr := data !!! i in
  let prev := data !!! (i - 1) in
  let patterns :=
    mark ((Volume curr >? avgVolume * fromZ 2)%f64
          && (Close curr >? Close prev * lit 102 100)%f64)
      "volume_breakout" i patterns in
  let patterns :=
    mark ((Volume curr >? avgVolume * fromZ 2)%f64
          && (Close curr <? Close prev * lit 98 100)%f64)
      "volume_selloff" i patterns in
  mark (Volume curr <? avgVolume * lit 5 10)%f64 "low_volume" i patterns.

Definition DetectVolumePatterns (bts : BTCTimeSeries F) : gmap string (list nat) :=
  let patterns : gmap string (list nat) := ∅ in
  if decide (length (Data bts) < 20) then patterns
  else
    let volumes := GetVolumeData bts in
    let sum := sum_range volumes in
    let avgVolume := (sum / float64 (length volumes))%f64 in
    for_range 1 (length (Data bts)) (volume_body (Data bts) avgVolume) patterns.

(** The loop of [CalculateFibonacciRetracements] over the recent bars,
    on the state [(high, low)]. *)
Definition extremes_step (st : F * F) (data : BTCPrice F) : F * F :=
  let '(high, low) := st in
  (if (High data >? high)%f64 then High data else high,
   if (Low data <? low)%f64 then Low data else low).

Definition fibLevels : list F :=
  [fromZ 0; lit 236 1000; lit 382 1000; lit 5 10; lit 618 1000; lit 786 1000; fromZ 1].

Definition fibNames : list string :=
  ["high"; "fib_76_4"; "fib_61_8"; "fib_50"; "fib_38_2"; "fib_23_6"; "low"].

(** [period >= 1]: with [period = 0] the Go function reads
    [recentData[0]] of an empty slice and panics. *)
Definition CalculateFibonacciRetracements (bts : BTCTimeSeries F) (period : nat)
    : gmap string F :=
  let fibs : gmap string F := ∅ in
  if decide (length (Data bts) < period) then fibs
  else
    let recentData := drop (length (Data bts) - period) (Data bts) in
    let '(high, low) :=
      fold_left extremes_step recentData
        (High (recentData !!! 0), Low (recentData !!! 0)) in
    let range_ := (high - low)%f64 in
    for_range 0 (length (fibLevels : list F))
      (fun i fibs => <[fibNames !!! i := (high - range_ * fibLevels !!! i)%f64]> fibs)
      fibs.
End PatternsMore.

(** ** package analyzer, continued *)

Section Portfolio.
Context {F : Type} `{Float64Ops F} `{Float64Math F} `{Float64Pow F}.

(** The map holds [interface{}] values, all of them [float64].  Copying
    the risk metrics after the backtest results lets a risk metric win a
    shared key.  Returns the metrics and the series as [PerformBacktest]
    left it. *)
Definition CalculatePortfolioMetrics (bts : BTCTimeSeries F) (initialInvestment : F)
    : gmap string F * BTCTimeSeries F :=
  let metrics : gmap string F := ∅ in
  if decide (length (Data bts) < 2) then (metrics, bts)
  else
    let '(backtest, bts) := PerformBacktest bts initialInvestment in
    let metrics := backtest ∪ metrics in
    let riskMetrics := GetRiskMetrics bts in
    let metrics := riskMetrics ∪ metrics in
    let metrics :=
      match riskMetrics !! "volatility_annual" with
      | Some volatility =>
          if (volatility >? fromZ 0)%f64
          then match backtest !! "annualized_return" with
               | Some totalReturn =>
                   <["information_ratio" := (totalReturn / volatility)%f64]> metrics
               | None => metrics
               end
          else metrics
      | None => metrics
      end in
    (metrics, bts).
End Portfolio.

(** ** package dataloader *)

Section Dataloader.
Context {F : Type} `{Float64Ops F}.

(** [t.Unix()]: whole seconds since 1970, for a timestamp in
    nanoseconds since the zero time. *)
Definition Unix (t : Z) : Z := (t / 1000000000 - 62135596800)%Z.

(** [fmt.Sprintf] of a message that ends in [%d]. *)
Definition issue_at (message : string) (i : nat) : string :=
  String.append message (pretty i).

(** The issues of bar [i], in the order the checks are made. *)
Definition bar_issues (now : Z) (i : nat) (data : BTCPrice F) : list string :=
  (if (Open data <=? fromZ 0)%f64 || (High data <=? fromZ 0)%f64
      || (Low data <=? fromZ 0)%f64 || (Close data <=? fromZ 0)%f64
   then [issue_at "Invalid price data at index " i] else [])
  ++ (if (High data <? Low data)%f64
      then [issue_at "High < Low at index " i] else [])
  ++ (if (High data <? Open data)%f64 || (High data <? Close data)%f64
      then [issue_at "High is not highest at index " i] else [])
  ++ (if (Low data >? Open data)%f64 || (Low data >? Close data)%f64
      then [issue_at "Low is not lowest at index " i] else [])
  ++ (if (Volume data <? fromZ 0)%f64
      then [issue_at "Negative volume at index " i] else [])
  ++ (if (now <? Timestamp data)%Z
      then [issue_at "Future date at index " i] else []).

(** The second loop, on the state [(issues, timestampMap)]. *)
Definition duplicate_step (data : list (BTCPrice F)) (i : nat)
    (st : list string * gset Z) : list string * gset Z :=
  let '(issues, timestampMap) := st in
  let timestamp := Unix (Timestamp (data !!! i)) in
  (if decide (timestamp ∈ timestampMap)
   then issues ++ [issue_at "Duplicate timestamp at index " i] else issues,
   {[timestamp]} ∪ timestampMap).

(** [now i] is the value of [time.Now()] when bar [i] is checked. *)
Definition ValidateData (now : nat -> Z) (bts : BTCTimeSeries F) : list string :=
  if decide (length (Data bts) = 0) then ["No data points found"]
  else
    let issues :=
      for_range 0 (length (Data bts))
        (fun i issues => issues ++ bar_issues (now i) i (Data bts !!! i)) [] in
    (for_range 0 (length (Data bts)) (duplicate_step (Data bts)) (issues, ∅)).1.

(** One day of [GenerateSampleData], on the state [(bts, currentPrice)];
    [stamp i] is [currentTime.AddDate(0, 0, i)]. *)
Definition sample_step (stamp : nat -> Z) (i : nat) (st : BTCTimeSeries F * F)
    : BTCTimeSeries F * F :=
  let '(bts, currentPrice) := st in
  let change := ((fromZ (Z.of_nat (i mod 10)) - lit 45 10) / fromZ 100)%f64 in
  let open := currentPrice in
  let high := (open * (fromZ 1 + fabs change + lit 1 100))%f64 in
  let low := (open * (fromZ 1 - fabs change - lit 1 100))%f64 in
  let close := (open * (fromZ 1 + change))%f64 in
  let volume := (fromZ 1000000 + fromZ (Z.of_nat (i mod 100)) * fromZ 10000)%f64 in
  (AddPrice bts {| Timestamp := stamp i; Open := open; High := high; Low := low;
                   Close := close; Volume := volume |},
   close).

(** The calendar arithmetic on [time.Now()] is the parameter [stamp]. *)
Definition GenerateSampleData (stamp : nat -> Z) (days : nat) (startPrice : F)
    : BTCTimeSeries F :=
  (for_range 0 days (sample_step stamp) (New "BTC-USD-SAMPLE", startPrice)).1.
End Dataloader.

(** ** Vocabulary of the further properties *)

(** The lesser of two values, the counterpart of [fmax]. *)
Definition fmin {F} `{Float64Ops F} (a b : F) : F := if (b <? a)%f64 then b else a.

(** The calendar day of a bar: its timestamp truncated to 24 hours. *)
Definition day_of {F} (price : BTCPrice F) : Z := Truncate (Timestamp price) day_ns.

(** The state of the loop of [ResampleToDaily] after the bars [pre]:
    [dayData] holds the bars of the current day, and the resampled
    series one bar for each earlier day, in ascending order. *)
Definition resample_inv {F} `{Float64Ops F} (pre : list (BTCPrice F))
    (resampled : BTCTimeSeries F) (currentDay : Z) (dayData : list (BTCPrice F))
    : Prop :=
  dayData = filter (fun p => day_of p = currentDay) pre
  ∧ (forall p, p ∈ pre -> (day_of p <= currentDay)%Z)
  ∧ StronglySorted Z.lt (map Timestamp (Data resampled))
  ∧ (forall b, b ∈ Data resampled ->
       (Timestamp b < currentDay)%Z
       ∧ (exists p, p ∈ pre ∧ day_of p = Timestamp b)
       ∧ b = aggregateDayData (filter (fun p => day_of p = Timestamp b) pre)
               (Timestamp b))
  ∧ (forall p, p ∈ pre ->
       day_of p = currentDay ∨ day_of p ∈ map Timestamp (Data resampled)).

Section VocabularyIndicators.
Context {F : Type} `{Float64Ops F} `{Float64Math F}.

(** The standard deviation [CalculateBollingerBands] computes over the
    window that starts at [k]. *)
Definition window_std (prices : list F) (period k : nat) : F :=
  fsqrt (for_range k (k + period)
           (fun j acc => let diff := (prices !!! j - window_mean prices period k)%f64 in
                         (acc + diff * diff)%f64) (fromZ 0)
         / float64 period)%f64.

(** The value [CalculateStochasticOscillator] stores in slot [k]. *)
Definition stochastic_value (data : list (BTCPrice F)) (kPeriod k : nat) : F :=
  let i := k + kPeriod - 1 in
  let '(highestHigh, lowestLow) := window_extremes data k i in
  let currentClose := Close (data !!! i) in
  if negb (highestHigh - lowestLow =? fromZ 0)%f64
  then ((currentClose - lowestLow) / (highestHigh - lowestLow) * fromZ 100)%f64
  else fromZ 50.
End VocabularyIndicators.

(** The simple return [CalculateReturns] stores in slot [k]: the change
    from bar [k] to bar [k+1] over the close of bar [k], and 0 when that
    close is not above 0. *)
Definition return_at {F} `{Float64Ops F} (data : list (BTCPrice F)) (k : nat) : F :=
  if (Close (data !!! k) >? fromZ 0)%f64
  then ((Close (data !!! (k + 1)%nat) - Close (data !!! k)) / Close (data !!! k))%f64
  else fromZ 0.

(** The growth factor of a run of returns: the product of the [1 + r]. *)
Definition compound {F} `{ExactArith F} (returns : list F) : R :=
  fold_right (fun r acc => ((1 + toR r) * acc)%R) 1%R returns.

(** The keys [DetectCandlestickPatterns] and [DetectVolumePatterns] can
    write. *)
Definition candlestick_names : list string :=
  ["doji"; "hammer"; "shooting_star"; "bullish_engulfing"; "bearish_engulfing";
   "morning_star"; "evening_star"].

Definition volume_names : list string :=
  ["volume_breakout"; "volume_selloff"; "low_volume"].

(** [sum / float64(len(volumes))] of [DetectVolumePatterns]. *)
Definition average_volume {F} `{Float64Ops F} (bts : BTCTimeSeries F) : F :=
  (sum_range (GetVolumeData bts) / float64 (length (GetVolumeData bts)))%f64.

(** Is bar [i] marked under the key [k] by the loop of
    [DetectCandlestickPatterns]? *)
Definition candlestick_test {F} `{Float64Ops F} (data : list (BTCPrice F))
    (k : string) (i : nat) : bool :=
  if bool_decide (k = "doji") then isDoji (data !!! i)
  else if bool_decide (k = "hammer") then isHammer (data !!! i)
  else if bool_decide (k = "shooting_star") then isShootingStar (data !!! i)
  else if bool_decide (k = "bullish_engulfing")
       then isBullishEngulfing (data !!! (i - 1)) (data !!! i)
  else if bool_decide (k = "bearish_engulfing")
       then isBearishEngulfing (data !!! (i - 1)) (data !!! i)
  else if bool_decide (k = "morning_star")
       then bool_decide (1 < i)
            && isMorningStar (data !!! (i - 2)) (data !!! (i - 1)) (data !!! i)
  else bool_decide (1 < i)
       && isEveningStar (data !!! (i - 2)) (data !!! (i - 1)) (data !!! i).

(** The same for [DetectVolumePatterns]. *)
Definition volume_test {F} `{Float64Ops F} (bts : BTCTimeSeries F)
    (k : string) (i : nat) : bool :=
  let curr := Data bts !!! i in
  let prev := Data bts !!! (i - 1) in
  if bool_decide (k = "volume_breakout")
  then (Volume curr >? average_volume bts * fromZ 2)%f64
       && (Close curr >? Close prev * lit 102 100)%f64
  else if bool_decide (k = "volume_selloff")
  then (Volume curr >? average_volume bts * fromZ 2)%f64
       && (Close curr <? Close prev * lit 98 100)%f64
  else (Volume curr <? average_volume bts * lit 5 10)%f64.

(** The signals [GetTradingSignals] can give, by key. *)
Definition signal_table : list (string * string) :=
  [("RSI", "SELL - Overbought"); ("RSI", "BUY - Oversold"); ("RSI", "HOLD - Neutral");
   ("MACD", "BUY - Bullish crossover"); ("MACD", "SELL - Bearish crossover");
   ("MACD", "HOLD - Bullish"); ("MACD", "HOLD - Bearish");
   ("Bollinger", "SELL - Price above upper band");
   ("Bollinger", "BUY - Price below lower band");
   ("Bollinger", "HOLD - Price in normal range");
   ("Trend", "BUY - Uptrend detected"); ("Trend", "SELL - Downtrend detected");
   ("Trend", "HOLD - Sideways movement");
   ("Support", "BUY - Near support level");
   ("Resistance", "SELL - Near resistance level")].

(** Every entry of the map is one of the table. *)
Definition from_table (signals : gmap string string) : Prop :=
  forall k v, signals !! k = Some v -> (k, v) ∈ signal_table.

(** A bar [ValidateData] finds nothing wrong with, at the time [now]:
    prices above 0, open and close between low and high, a volume that
    is not negative, a timestamp that is not in the future. *)
Definition well_formed {F} `{ExactArith F} (now : Z) (bar : BTCPrice F) : Prop :=
  ((0 < toR (Open bar))%R ∧ (0 < toR (High bar))%R
   ∧ (0 < toR (Low bar))%R ∧ (0 < toR (Close bar))%R)
  ∧ (toR (Low bar) <= toR (Open bar) <= toR (High bar))%R
  ∧ (toR (Low bar) <= toR (Close bar) <= toR (High bar))%R
  ∧ (0 <= toR (Volume bar))%R
  ∧ (Timestamp bar <= now)%Z.

(** * Properties *)

(** ** Loops *)

Section ForRange.
Context {St : Type}.
Implicit Types (body : nat -> St -> St) (s : St).

Lemma for_range_empty lo hi body s : hi ≤ lo -> for_range lo hi body s = s.
Proof.
  intros Hle. unfold for_range.
  replace (hi - lo) with 0 by lia. reflexivity.
Qed.

Lemma for_range_snoc lo hi body s :
  lo ≤ hi -> for_range lo (S hi) body s = body hi (for_range lo hi body s).
Proof.
  intros Hle. unfold for_range.
  replace (S hi - lo) with (S (hi - lo)) by lia.
  rewrite seq_S, fold_left_app. simpl.
  replace (lo + (hi - lo)) with hi by lia. reflexivity.
Qed.

Lemma for_range_first lo hi body s :
  lo < hi -> for_range lo hi body s = for_range (S lo) hi body (body lo s).
Proof.
  intros Hlt. unfold for_range.
  replace (hi - lo) with (S (hi - S lo)) by lia. reflexivity.
Qed.

(** The loop invariant rule. *)
Lemma for_range_ind (P : nat -> St -> Prop) lo hi body s :
  lo ≤ hi ->
  P lo s ->
  (forall i t, lo ≤ i < hi -> P i t -> P (S i) (body i t)) ->
  P hi (for_range lo hi body s).
Proof.
  intros Hle Hinit Hstep.
  induction hi as [|hi IH].
  - assert (lo = 0) as -> by lia. rewrite for_range_empty by lia. exact Hinit.
  - destruct (decide (lo = S hi)) as [->|Hne].
    + rewrite for_range_empty by lia. exact Hinit.
    + rewrite for_range_snoc by lia.
      apply Hstep; [lia|]. apply IH; [lia|].
      intros i t Hi. apply Hstep. lia.
Qed.

Lemma for_range_ext lo hi body body' s :
  (forall i t, lo ≤ i < hi -> body i t = body' i t) ->
  for_range lo hi body s = for_range lo hi body' s.
Proof.
  intros Hext.
  destruct (decide (lo ≤ hi)) as [Hle|Hgt].
  - apply (for_range_ind (fun i t => for_range lo i body s = t) lo hi body' s Hle).
    + apply for_range_empty. lia.
    + intros i t Hi <-. rewrite for_range_snoc by lia. apply Hext. lia.
  - rewrite !for_range_empty by lia. reflexivity.
Qed.
End ForRange.

(** ** CalculateRSI: shape of the result *)

Section RSIShape.
Context {F : Type} `{Float64Ops F}.

Lemma price_changes_length (prices : list F) :
  length (price_changes prices) = length prices - 1.
Proof.
  unfold price_changes.
  destruct (decide (1 ≤ length prices)) as [Hle|Hgt].
  - apply (for_range_ind (fun _ ch => length ch = length prices - 1)); [lia| |].
    + apply length_replicate.
    + intros i ch _ Hch. rewrite length_insert. exact Hch.
  - rewrite for_range_empty by lia. apply length_replicate.
Qed.

Lemma rsi_body_snd (changes : list F) period i st :
  exists v, (rsi_body changes period i st).2 = <[i - period := v]> (st.2).
Proof.
  destruct st as [[g l] rsi]. unfold rsi_body.
  destruct (rsi_smooth period (changes !!! i) g l) as [[g' l'] v].
  exists v. reflexivity.
Qed.

Lemma CalculateRSI_short (bts : BTCTimeSeries F) period :
  length (Data bts) < period + 1 -> CalculateRSI bts period = [].
Proof. intros Hlt. unfold CalculateRSI. rewrite decide_True by lia. reflexivity. Qed.

(** The slice returned has [len(prices)-period] slots, and the loop
    never stores into the last one. *)
Lemma CalculateRSI_slots (bts : BTCTimeSeries F) period :
  period + 1 ≤ length (Data bts) ->
  length (CalculateRSI bts period) = length (Data bts) - period
  ∧ CalculateRSI bts period !! (length (Data bts) - period - 1) = Some (fromZ 0).
Proof.
  intros Hle. unfold CalculateRSI. rewrite decide_False by lia.
  destruct (rsi_seed _ _) as [g l].
  set (changes := price_changes (GetClosePrices bts)).
  assert (Hn : length (GetClosePrices bts) = length (Data bts))
    by (unfold GetClosePrices; apply length_map).
  assert (Hch : length changes = length (Data bts) - 1)
    by (unfold changes; rewrite price_changes_length; lia).
  rewrite Hn, Hch.
  apply (for_range_ind
           (fun _ st => length st.2 = length (Data bts) - period
                        ∧ st.2 !! (length (Data bts) - period - 1) = Some (fromZ 0)));
    [lia| |].
  - simpl. rewrite length_replicate. split; [reflexivity|].
    apply lookup_replicate_2. lia.
  - intros i st Hi [Hlen Hlast].
    destruct (rsi_body_snd changes period i st) as [v ->].
    rewrite length_insert. split; [exact Hlen|].
    rewrite list_lookup_insert_ne by lia. exact Hlast.
Qed.

Lemma CalculateRSI_nonempty (bts : BTCTimeSeries F) period :
  CalculateRSI bts period ≠ [] -> period + 1 ≤ length (Data bts).
Proof.
  intros Hne. destruct (decide (period + 1 ≤ length (Data bts))); [assumption|].
  exfalso. apply Hne, CalculateRSI_short. lia.
Qed.

Lemma CalculateRSI_last (bts : BTCTimeSeries F) period :
  CalculateRSI bts period ≠ [] -> last (CalculateRSI bts period) = Some (fromZ 0).
Proof.
  intros Hne. apply CalculateRSI_nonempty in Hne.
  destruct (CalculateRSI_slots bts period Hne) as [Hlen Hlast].
  rewrite last_lookup, Hlen.
  replace (Init.Nat.pred (length (Data bts) - period))
    with (length (Data bts) - period - 1) by lia.
  exact Hlast.
Qed.

(** A flat market at period 14: with 15 closes the only slot is the one
    the loop never writes; with 16 the computed value is 100. *)
Example CalculateRSI_flat_market :
  CalculateRSI (series_of_closes (replicate 15 100%float)) 14 = [0%float]
  ∧ CalculateRSI (series_of_closes (replicate 16 100%float)) 14 = [100; 0]%float.
Proof. split; vm_compute; reflexivity. Qed.
End RSIShape.

(** ** calculateEMA *)

Section EMA.
Context {F : Type} `{Float64Ops F}.

Lemma sum_loop_take (prices : list F) period :
  period ≤ length prices ->
  for_range 0 period (fun i sum => (sum + prices !!! i)%f64) (fromZ 0)
  = sum_range (take period prices).
Proof.
  induction period as [|p IH]; intros Hle.
  - reflexivity.
  - rewrite for_range_snoc by lia. rewrite IH by lia.
    destruct (lookup_lt_is_Some_2 prices p ltac:(lia)) as [x Hx].
    rewrite (take_S_r _ _ _ Hx). unfold sum_range.
    rewrite fold_left_app. simpl.
    rewrite (list_lookup_total_correct _ _ _ Hx). reflexivity.
Qed.

Lemma calculateEMA_short (prices : list F) period :
  length prices < period -> calculateEMA prices period = [].
Proof. intros Hlt. unfold calculateEMA. rewrite decide_True by lia. reflexivity. Qed.

Lemma calculateEMA_length (prices : list F) period :
  period ≤ length prices ->
  length (calculateEMA prices period) = length prices - period + 1.
Proof.
  intros Hle. unfold calculateEMA. rewrite decide_False by lia.
  rewrite !length_insert, length_replicate.
  apply (for_range_ind (fun _ ema => length ema = length prices - period + 1));
    [lia| |].
  - rewrite length_insert. apply length_replicate.
  - intros i ema _ Hlen. rewrite length_insert. exact Hlen.
Qed.

Lemma calculateEMA_entries (prices : list F) period :
  period ≤ length prices ->
  calculateEMA prices period !! 0 = Some (simple_mean prices period)
  ∧ forall i, 1 ≤ i < length (calculateEMA prices period) ->
      calculateEMA prices period !! i
      = Some (prices !!! (period + i - 1)%nat * ema_multiplier period
              + calculateEMA prices period !!! (i - 1)%nat
                * (fromZ 1 - ema_multiplier period))%f64.
Proof.
  intros Hle.
  pose proof (calculateEMA_length prices period Hle) as Hlen.
  revert Hlen. unfold calculateEMA. rewrite decide_False by lia.
  rewrite !length_insert, length_replicate.
  rewrite sum_loop_take by lia. fold (simple_mean prices period).
  fold (ema_multiplier period).
  set (L := length prices - period + 1).
  set (body := fun i ema => <[i := _]> ema).
  intros Hlen.
  assert (Hinv : forall hi, 1 ≤ hi ≤ L ->
    let e := for_range 1 hi body (<[0 := simple_mean prices period]> (replicate L (fromZ 0))) in
    length e = L
    ∧ e !! 0 = Some (simple_mean prices period)
    ∧ forall i, 1 ≤ i < hi ->
        e !! i = Some (prices !!! (period + i - 1)%nat * ema_multiplier period
                       + e !!! (i - 1)%nat * (fromZ 1 - ema_multiplier period))%f64).
  { intros hi Hhi. simpl.
    apply (for_range_ind
      (fun hi e => length e = L ∧ e !! 0 = Some (simple_mean prices period)
         ∧ forall i, 1 ≤ i < hi ->
             e !! i = Some (prices !!! (period + i - 1)%nat * ema_multiplier period
                            + e !!! (i - 1)%nat * (fromZ 1 - ema_multiplier period))%f64));
      [lia| |].
    - rewrite length_insert, length_replicate. split; [reflexivity|]. split.
      + apply list_lookup_insert_eq. rewrite length_replicate. lia.
      + intros i Hi. lia.
    - intros i e Hi (Hl & H0 & Hrec). unfold body.
      rewrite length_insert. split; [exact Hl|]. split.
      + rewrite list_lookup_insert_ne by lia. exact H0.
      + intros j Hj.
        assert (Hprev : forall k, k < i -> <[i := (prices !!! (period + i - 1)%nat * ema_multiplier period
                       + e !!! (i - 1)%nat * (fromZ 1 - ema_multiplier period))%f64]> e !!! k = e !!! k).
        { intros k Hk. rewrite !list_lookup_total_alt.
          rewrite list_lookup_insert_ne by lia. reflexivity. }
        destruct (decide (j = i)) as [->|Hne].
        * rewrite list_lookup_insert_eq by lia.
          rewrite Hprev by lia. reflexivity.
        * rewrite list_lookup_insert_ne by lia.
          rewrite Hprev by lia. apply Hrec. lia. }
  destruct (Hinv L ltac:(lia)) as (Hl & H0 & Hrec).
  split; [exact H0|]. intros i Hi. apply Hrec. lia.
Qed.
End EMA.

(** ** CalculateMACD *)

Section MACDProps.
Context {F : Type} `{Float64Ops F}.

(** A loop that fills slot [i] with [f i] when the guard [g i] holds. *)
Lemma for_range_fill (f : nat -> F) (g : nat -> Prop) `{!forall i, Decision (g i)}
    (n : nat) (init : list F) :
  length init = n ->
  let r := for_range 0 n (fun i acc => if decide (g i) then <[i := f i]> acc else acc) init in
  length r = n
  ∧ forall i, i < n -> r !! i = if decide (g i) then Some (f i) else init !! i.
Proof.
  intros Hlen. simpl.
  assert (Hinv : forall hi, hi ≤ n ->
    let r := for_range 0 hi (fun i acc => if decide (g i) then <[i := f i]> acc else acc) init in
    length r = n
    ∧ forall i, i < n ->
        r !! i = if decide (i < hi) then (if decide (g i) then Some (f i) else init !! i)
                 else init !! i).
  { intros hi Hhi. simpl.
    pose (P := fun (k : nat) (r : list F) => length r = n ∧ forall i, i < n ->
        r !! i = if decide (i < k) then (if decide (g i) then Some (f i) else init !! i)
                 else init !! i).
    apply (for_range_ind P); unfold P; [lia| |].
    - split; [exact Hlen|]. intros i Hi.
      destruct (decide (i < 0)); [lia|reflexivity].
    - intros i r Hi [Hl Hr]. split.
      + destruct (decide (g i)); [rewrite length_insert|]; exact Hl.
      + intros j Hj. destruct (decide (j = i)) as [->|Hne].
        * destruct (decide (i < S i)); [|lia].
          destruct (decide (g i)).
          -- apply list_lookup_insert_eq. lia.
          -- rewrite Hr by lia. destruct (decide (i < i)); [lia|reflexivity].
        * assert (Hsame : (if decide (g i) then <[i := f i]> r else r) !! j = r !! j).
          { destruct (decide (g i)); [apply list_lookup_insert_ne; lia|reflexivity]. }
          rewrite Hsame, Hr by lia.
          destruct (decide (j < i)), (decide (j < S i)); try lia; reflexivity. }
  destruct (Hinv n ltac:(lia)) as [Hl Hr]. split; [exact Hl|].
  intros i Hi. rewrite Hr by lia. destruct (decide (i < n)); [reflexivity|lia].
Qed.


Lemma CalculateMACD_shape (bts : BTCTimeSeries F) fastPeriod slowPeriod signalPeriod :
  slowPeriod ≤ length (Data bts) ->
  let m := CalculateMACD bts fastPeriod slowPeriod signalPeriod in
  length (MACD m) = length (Data bts) - slowPeriod + 1
  ∧ Signal m = calculateEMA (MACD m) signalPeriod
  ∧ length (Histogram m) = length (Signal m)
  ∧ (length (Signal m) ≤ length (MACD m) ->
     forall i, i < length (Signal m) ->
       Histogram m !! i
       = Some (MACD m !!! (length (MACD m) - length (Signal m) + i)%nat
               - Signal m !!! i)%f64).
Proof.
  intros Hle. unfold CalculateMACD.
  assert (Hn : length (GetClosePrices bts) = length (Data bts))
    by (unfold GetClosePrices; apply length_map).
  rewrite decide_False by lia. simpl.
  set (slowEMA := calculateEMA (GetClosePrices bts) slowPeriod).
  set (aligned := drop (slowPeriod - fastPeriod) (calculateEMA (GetClosePrices bts) fastPeriod)).
  set (macdLine := for_range 0 (length slowEMA) _ _).
  set (signalLine := calculateEMA macdLine signalPeriod).
  assert (Hmacd : length macdLine = length slowEMA).
  { unfold macdLine.
    apply (for_range_fill (fun i => (aligned !!! i - slowEMA !!! i)%f64)
             (fun i => i < length aligned)).
    apply length_replicate. }
  split.
  { rewrite Hmacd. unfold slowEMA. rewrite calculateEMA_length by lia. lia. }
  split; [reflexivity|].
  destruct (for_range_fill
              (fun i => (macdLine !!! (length macdLine - length signalLine + i)%nat
                         - signalLine !!! i)%f64)
              (fun i => length macdLine - length signalLine + i < length macdLine)
              (length signalLine) (replicate (length signalLine) (fromZ 0))
              (length_replicate _ _)) as [Hl Hv].
  split; [exact Hl|].
  intros Hsm i Hi. rewrite Hv by lia.
  destruct (decide (_ < length macdLine)); [reflexivity|lia].
Qed.
End MACDProps.

(** ** Insertion sort *)

Section InsertionSort.
Context {A : Type} (less : A -> A -> bool).
Hypothesis less_asym : forall x y, less x y = true -> less y x = false.

Lemma sift_head x r :
  head (sift less x r) = Some x ∨ (head (sift less x r) = head r ∧ exists y, head r = Some y ∧ less x y = true).
Proof.
  destruct r as [|y r]; simpl; [left; reflexivity|].
  destruct (less x y) eqn:E; simpl; [right; eauto|left; reflexivity].
Qed.

Lemma descending_cons y r :
  descending less r ->
  (forall z, head r = Some z -> less y z = false) ->
  descending less (y :: r).
Proof. destruct r as [|z r]; simpl; auto. Qed.

Lemma descending_tail y r : descending less (y :: r) -> descending less r.
Proof. destruct r as [|z r]; simpl; tauto. Qed.

Lemma descending_head y z r : descending less (y :: z :: r) -> less y z = false.
Proof. simpl. tauto. Qed.

Lemma sift_descending x r : descending less r -> descending less (sift less x r).
Proof using less_asym.
  induction r as [|y r IH]; intros Hd; simpl; [exact I|].
  destruct (less x y) eqn:E.
  - apply descending_cons.
    + apply IH. eapply descending_tail, Hd.
    + intros z Hz. destruct (sift_head x r) as [Hx|[Hr _]].
      * rewrite Hx in Hz. injection Hz as <-. apply less_asym, E.
      * rewrite Hr in Hz. destruct r as [|z' r]; [discriminate|].
        injection Hz as <-. eapply descending_head, Hd.
  - apply descending_cons; [exact Hd|].
    intros z Hz. injection Hz as <-. exact E.
Qed.

Lemma sift_all_descending l r :
  descending less r ->
  descending less (fold_left (fun rprefix x => sift less x rprefix) l r).
Proof using less_asym.
  revert r. induction l as [|x l IH]; intros r Hr; simpl; [exact Hr|].
  apply IH, sift_descending, Hr.
Qed.

Lemma ascending_cons a l :
  ascending less l ->
  (forall b, head l = Some b -> less b a = false) ->
  ascending less (a :: l).
Proof. destruct l as [|b l]; simpl; auto. Qed.

Lemma ascending_tail a l : ascending less (a :: l) -> ascending less l.
Proof. destruct l as [|b l]; simpl; tauto. Qed.

Lemma rev_append_ascending r acc :
  descending less r -> ascending less acc ->
  (forall y a, head r = Some y -> head acc = Some a -> less a y = false) ->
  ascending less (rev_append r acc).
Proof.
  revert acc. induction r as [|y r IH]; intros acc Hr Hacc Hlink; simpl; [exact Hacc|].
  apply IH.
  - eapply descending_tail, Hr.
  - apply ascending_cons; [exact Hacc|]. intros b Hb. eapply Hlink; [reflexivity|exact Hb].
  - intros z a Hz Ha. injection Ha as <-.
    destruct r as [|z' r]; [discriminate|]. injection Hz as <-.
    eapply descending_head, Hr.
Qed.

(** The result is in order. *)
Lemma insertion_sort_ascending l : ascending less (insertion_sort less l).
Proof using less_asym.
  unfold insertion_sort. rewrite rev_alt.
  apply rev_append_ascending.
  - apply sift_all_descending. exact I.
  - exact I.
  - intros y a _ Ha. discriminate.
Qed.

Lemma sift_permutation x r : sift less x r ≡ₚ x :: r.
Proof.
  induction r as [|y r IH]; simpl; [reflexivity|].
  destruct (less x y); [|reflexivity].
  rewrite IH. apply Permutation_swap.
Qed.

(** The result is a rearrangement of the input. *)
Lemma insertion_sort_permutation l : insertion_sort less l ≡ₚ l.
Proof.
  unfold insertion_sort.
  assert (Hgen : forall l r, fold_left (fun rprefix x => sift less x rprefix) l r ≡ₚ l ++ r).
  { clear l. induction l as [|x l IH]; intros r; simpl; [reflexivity|].
    rewrite IH, sift_permutation. symmetry. apply Permutation_middle. }
  rewrite <- Permutation_rev, Hgen, app_nil_r. reflexivity.
Qed.

Lemma insertion_sort_length l : length (insertion_sort less l) = length l.
Proof. apply Permutation_length, insertion_sort_permutation. Qed.

Lemma ascending_app_head p x l :
  ascending less (p ++ x :: l) ->
  forall y, head (rev p) = Some y -> less x y = false.
Proof.
  induction p as [|a p IH]; intros Hasc y Hy; [discriminate|].
  destruct p as [|b p].
  - simpl in *. injection Hy as <-. tauto.
  - apply IH.
    + eapply ascending_tail, Hasc.
    + change (rev (a :: b :: p)) with (rev (b :: p) ++ [a]) in Hy.
      destruct (rev (b :: p)) eqn:E; [|exact Hy].
      apply (f_equal (@length A)) in E. rewrite length_rev in E. discriminate.
Qed.

(** A slice that is already in order is left as it is. *)
Lemma insertion_sort_ascending_id l : ascending less l -> insertion_sort less l = l.
Proof.
  intros Hasc. unfold insertion_sort.
  assert (Hgen : forall l r, ascending less (rev r ++ l) ->
            fold_left (fun rprefix x => sift less x rprefix) l r = rev l ++ r).
  { clear l Hasc. induction l as [|x l IH]; intros r Hasc; simpl; [reflexivity|].
    assert (Hs : sift less x r = x :: r).
    { destruct r as [|y r]; [reflexivity|]. simpl.
      rewrite (ascending_app_head (rev (y :: r)) x l Hasc y); [reflexivity|].
      rewrite rev_involutive. reflexivity. }
    rewrite Hs, IH.
    - rewrite <- app_assoc. reflexivity.
    - simpl. rewrite <- app_assoc. exact Hasc. }
  rewrite Hgen by exact Hasc. rewrite app_nil_r. apply rev_involutive.
Qed.

End InsertionSort.

(** ** Exact arithmetic: the rationals *)

Lemma Q2R_Q2Qc (q : Q) : Q2R (Q2Qc q) = Q2R q.
Proof. apply Qeq_eqR. simpl. apply Qred_correct. Qed.

Lemma Q2R_inject_Z (z : Z) : Q2R (inject_Z z) = IZR z.
Proof. unfold Q2R, inject_Z. simpl. rewrite Rinv_1, Rmult_1_r. reflexivity. Qed.

Lemma Q2R_Qabs (q : Q) : Q2R (Qabs q) = Rabs (Q2R q).
Proof.
  apply Qabs_case; intros Hq.
  - apply Qle_Rle in Hq. change (Q2R 0) with (Q2R (inject_Z 0)) in Hq.
    rewrite Q2R_inject_Z in Hq. rewrite Rabs_pos_eq; [reflexivity|exact Hq].
  - apply Qle_Rle in Hq. change (Q2R 0) with (Q2R (inject_Z 0)) in Hq.
    rewrite Q2R_inject_Z in Hq. rewrite Q2R_opp.
    rewrite Rabs_left1; [reflexivity|exact Hq].
Qed.

Lemma Q2R_nonzero (q : Q) : Q2R q <> 0%R -> ~ (q == 0)%Q.
Proof.
  intros Hne Heq. apply Hne. apply Qeq_eqR in Heq. rewrite Heq.
  change (Q2R 0) with (Q2R (inject_Z 0)). apply Q2R_inject_Z.
Qed.

Ltac qc_ops :=
  cbn beta; cbn [fromZ fadd fsub fmul fdiv fabs fltb fleb feqb Qc_ops].

#[export] Program Instance Qc_exact : ExactArith Qc := {|
  toR x := Q2R x;
|}.
Next Obligation. intros x y Hxy. apply Qc_is_canon, eqR_Qeq, Hxy. Qed.
Next Obligation. intros z. qc_ops. rewrite Q2R_Q2Qc. apply Q2R_inject_Z. Qed.
Next Obligation. intros x y. qc_ops. unfold Qcplus. rewrite Q2R_Q2Qc. apply Q2R_plus. Qed.
Next Obligation.
  intros x y. qc_ops. unfold Qcminus, Qcplus, Qcopp.
  rewrite Q2R_Q2Qc, Q2R_plus, Q2R_Q2Qc, Q2R_opp. reflexivity.
Qed.
Next Obligation. intros x y. qc_ops. unfold Qcmult. rewrite Q2R_Q2Qc. apply Q2R_mult. Qed.
Next Obligation.
  intros x y Hy. qc_ops. unfold Qcdiv, Qcmult, Qcinv.
  rewrite Q2R_Q2Qc, Q2R_mult, Q2R_Q2Qc, Q2R_inv; [reflexivity|].
  apply Q2R_nonzero, Hy.
Qed.
Next Obligation. intros x. qc_ops. rewrite Q2R_Q2Qc. apply Q2R_Qabs. Qed.
Next Obligation.
  intros x y. qc_ops. destruct (Qclt_le_dec x y) as [Hlt|Hle]; split; intros Hyp.
  - apply Qlt_Rlt, Hlt.
  - reflexivity.
  - discriminate.
  - apply Rlt_Qlt in Hyp. exfalso. apply (Qlt_not_le _ _ Hyp), Hle.
Qed.
Next Obligation.
  intros x y. qc_ops. destruct (Qclt_le_dec y x) as [Hlt|Hle]; split; intros Hyp.
  - discriminate.
  - apply Rle_Qle in Hyp. exfalso. apply (Qlt_not_le _ _ Hlt), Hyp.
  - apply Qle_Rle, Hle.
  - reflexivity.
Qed.
Next Obligation.
  intros x y. qc_ops. destruct (Qc_eq_dec x y) as [Heq|Hne]; split; intros Hyp;
    try assumption; try reflexivity; try discriminate; contradiction.
Qed.

(** ** Exact arithmetic: derived rules *)

Section ExactRules.
Context {F : Type} `{ExactArith F}.

Lemma toR_float64 (n : nat) : toR (float64 n) = INR n.
Proof. unfold float64. rewrite toR_fromZ. symmetry. apply INR_IZR_INZ. Qed.

Lemma fltb_ge (x y : F) : (x <? y)%f64 = false <-> (toR y <= toR x)%R.
Proof.
  pose proof (fltb_lt x y) as Hlt.
  destruct (x <? y)%f64; split; intros Hyp; try reflexivity; try discriminate.
  - assert (toR x < toR y)%R by (apply Hlt; reflexivity). lra.
  - destruct (Rle_or_lt (toR y) (toR x)) as [Hle|Hgt]; [exact Hle|].
    apply Hlt in Hgt. discriminate.
Qed.

Lemma fleb_gt (x y : F) : (x <=? y)%f64 = false <-> (toR y < toR x)%R.
Proof.
  pose proof (fleb_le x y) as Hle.
  destruct (x <=? y)%f64; split; intros Hyp; try reflexivity; try discriminate.
  - assert (toR x <= toR y)%R by (apply Hle; reflexivity). lra.
  - destruct (Rle_or_lt (toR x) (toR y)) as [Hle'|Hgt]; [|exact Hgt].
    apply Hle in Hle'. discriminate.
Qed.

Lemma feqb_refl (x : F) : (x =? x)%f64 = true.
Proof. apply feqb_eq. reflexivity. Qed.

Lemma feqb_neq (x y : F) : (x =? y)%f64 = false <-> x <> y.
Proof.
  pose proof (feqb_eq x y) as Heq.
  destruct (x =? y)%f64; split; intros Hyp; try reflexivity; try discriminate.
  - exfalso. apply Hyp, Heq. reflexivity.
  - intros Hxy. apply Heq in Hxy. discriminate.
Qed.

Lemma toR_eq_0 (x : F) : toR x = 0%R <-> x = fromZ 0.
Proof.
  split; intros Hx.
  - apply toR_inj. rewrite toR_fromZ. exact Hx.
  - rewrite Hx. apply toR_fromZ.
Qed.

(** No value is a NaN: [sort.Float64s] compares with [<]. *)
Lemma float64_less_exact (x y : F) : float64_less x y = (x <? y)%f64.
Proof.
  unfold float64_less, isNaN. rewrite feqb_refl. simpl.
  apply orb_false_r.
Qed.

Lemma float64_less_asym (x y : F) :
  float64_less x y = true -> float64_less y x = false.
Proof.
  rewrite !float64_less_exact. intros Hlt.
  apply fltb_lt in Hlt. apply fltb_ge. lra.
Qed.
End ExactRules.

(** ** CalculateRSI: range of the values *)

Section RSIBounds.
Context {F : Type} `{ExactArith F}.


Lemma period_pos (period : nat) : 1 ≤ period -> (0 < toR (float64 period))%R.
Proof. intros Hp. rewrite toR_float64. apply lt_0_INR. lia. Qed.





End RSIBounds.

(** ** CalculateMaxDrawdown *)

Section DrawdownProps.
Context {F : Type} `{ExactArith F}.





End DrawdownProps.

(** ** clusterLevels *)

Section ClusterRun.
Context {F : Type} `{Float64Ops F}.

Lemma cluster_loop_run (tolerance : F) (rest pre : list F) (x : F)
    (clustered cur : list F) :
  0 < length cur ->
  let levels := pre ++ x :: rest in
  let st := for_range (S (length pre)) (length levels)
              (cluster_body levels tolerance) (clustered, cur) in
  (if decide (0 < length st.2) then st.1 ++ [cluster_mean st.2] else st.1)
  = clustered ++ cluster_run tolerance x cur rest.
Proof.
  revert pre x clustered cur.
  induction rest as [|y rest IH]; intros pre x clustered cur Hcur; simpl.
  - rewrite for_range_empty by (rewrite length_app; simpl; lia). simpl.
    destruct (decide (0 < length cur)); [reflexivity|lia].
  - rewrite for_range_first by (rewrite length_app; simpl; lia).
    assert (Hy : (pre ++ x :: y :: rest) !!! S (length pre) = y).
    { rewrite list_lookup_total_alt.
      replace (pre ++ x :: y :: rest) with ((pre ++ [x]) ++ y :: rest)
        by (rewrite <- app_assoc; reflexivity).
      rewrite lookup_app_r by (rewrite length_app; simpl; lia).
      rewrite length_app. simpl.
      replace (S (length pre) - (length pre + 1)) with 0 by lia. reflexivity. }
    assert (Hx : (pre ++ x :: y :: rest) !!! (S (length pre) - 1)%nat = x).
    { rewrite list_lookup_total_alt, lookup_app_r by lia.
      replace (S (length pre) - 1 - length pre) with 0 by lia. reflexivity. }
    assert (Hstep : cluster_body (pre ++ x :: y :: rest) tolerance (S (length pre))
                      (clustered, cur)
                    = if (fabs (y - x) / x <=? tolerance)%f64
                      then (clustered, cur ++ [y])
                      else (clustered ++ [cluster_mean cur], [y])).
    { unfold cluster_body. rewrite Hy, Hx. reflexivity. }
    rewrite Hstep.
    specialize (IH (pre ++ [x]) y).
    replace ((pre ++ [x]) ++ y :: rest) with (pre ++ x :: y :: rest) in IH
      by (rewrite <- app_assoc; reflexivity).
    replace (length (pre ++ [x])) with (S (length pre)) in IH
      by (rewrite length_app; simpl; lia).
    destruct (fabs (y - x) / x <=? tolerance)%f64.
    + apply IH. rewrite length_app. simpl. lia.
    + rewrite (IH (clustered ++ [cluster_mean cur]) [y]) by (simpl; lia).
      rewrite <- app_assoc. reflexivity.
Qed.

Lemma clusterLevels_run (levels : list F) (tolerance : F) (x : F) (rest : list F) :
  sort_Float64s levels = x :: rest ->
  clusterLevels levels tolerance = cluster_run tolerance x [x] rest.
Proof.
  intros Hsort. unfold clusterLevels.
  destruct (decide (length levels = 0)) as [Hz|Hnz].
  - apply length_zero_iff_nil in Hz. subst levels. discriminate.
  - rewrite Hsort.
    pose proof (cluster_loop_run tolerance rest [] x [] [x] ltac:(simpl; lia)) as Hrun.
    simpl in Hrun.
    change ((x :: rest) !!! 0) with x.
    destruct (for_range 1 (length (x :: rest)) _ _) as [clustered cur].
    exact Hrun.
Qed.
End ClusterRun.

Section ClusterExact.
Context {F : Type} `{ExactArith F}.

Lemma ascending_exact (a b : F) (l : list F) :
  ascending float64_less (a :: b :: l) ->
  (toR a <= toR b)%R ∧ ascending float64_less (b :: l).
Proof.
  simpl. intros [Hab Hrest]. split; [|exact Hrest].
  rewrite float64_less_exact in Hab. apply fltb_ge in Hab. exact Hab.
Qed.

Lemma sum_range_bounds (l : list F) (a : F) (lo hi : R) :
  Forall (fun c => (lo <= toR c <= hi)%R) l ->
  (toR a + INR (length l) * lo <= toR (fold_left fadd l a)
   <= toR a + INR (length l) * hi)%R.
Proof.
  revert a. induction l as [|c l IH]; intros a Hall.
  - simpl. lra.
  - inversion Hall as [|? ? Hc Hl]; subst.
    specialize (IH (a + c)%f64 Hl). rewrite toR_add in IH.
    change (fold_left fadd (c :: l) a) with (fold_left fadd l (a + c)%f64).
    rewrite length_cons, S_INR. lra.
Qed.

(** The mean of a cluster lies between its bounds. *)
Lemma cluster_mean_bounds (cur : list F) (lo hi : R) :
  0 < length cur ->
  Forall (fun c => (lo <= toR c <= hi)%R) cur ->
  (lo <= toR (cluster_mean cur) <= hi)%R.
Proof.
  intros Hlen Hall. unfold cluster_mean, sum_range.
  assert (Hn : (0 < INR (length cur))%R) by (apply lt_0_INR; lia).
  rewrite toR_div by (rewrite toR_float64; lra).
  rewrite toR_float64.
  pose proof (sum_range_bounds cur (fromZ 0) lo hi Hall) as Hs.
  rewrite toR_fromZ in Hs.
  set (s := toR (fold_left fadd cur (fromZ 0))) in *.
  set (n := INR (length cur)) in *.
  assert (Hinv : (0 < / n)%R) by (apply Rinv_0_lt_compat, Hn).
  assert (Hone : (n * / n = 1)%R) by (apply Rinv_r; lra).
  unfold Rdiv. split.
  - replace lo with ((n * lo) * / n)%R by (rewrite (Rmult_comm n lo), Rmult_assoc, Hone; lra).
    apply Rmult_le_compat_r; lra.
  - replace hi with ((n * hi) * / n)%R by (rewrite (Rmult_comm n hi), Rmult_assoc, Hone; lra).
    apply Rmult_le_compat_r; lra.
Qed.

Lemma cluster_mean_single (x : F) : cluster_mean [x] = x.
Proof.
  apply toR_inj. unfold cluster_mean, sum_range. simpl.
  rewrite toR_div by (rewrite toR_float64; simpl; lra).
  rewrite toR_add, toR_fromZ, toR_float64. simpl. unfold Rdiv. lra.
Qed.

(** The relative gap test of the loop, over the reals. *)
Lemma gap_test_false (tolerance prev x : F) :
  (0 < toR prev)%R -> (toR prev <= toR x)%R ->
  (fabs (x - prev) / prev <=? tolerance)%f64 = false <->
  (toR tolerance < (toR x - toR prev) / toR prev)%R.
Proof.
  intros Hpos Hle. rewrite fleb_gt.
  rewrite toR_div by lra. rewrite toR_abs, toR_sub.
  rewrite Rabs_pos_eq by lra. reflexivity.
Qed.

Lemma spans_separated (tolerance : F) (out : list F) :
  forall (m : F) (lo hi : R),
    (0 < lo)%R -> (lo <= toR m <= hi)%R -> spans tolerance hi out ->
    well_separated tolerance (m :: out).
Proof.
  induction out as [|m' out IH]; intros m lo hi Hlo Hm Hsp; [exact I|].
  inversion Hsp as [|? lo' hi' ? ? Hle Hgap Hm' Hrest]; subst.
  assert (Hmm : (toR m <= toR m')%R) by lra.
  split; [split; [exact Hmm|]|].
  - apply gap_test_false; [lra|exact Hmm|].
    assert (Hhi : (0 < hi)%R) by lra.
    assert (Hm0 : (0 < toR m)%R) by lra.
    apply Rlt_le_trans with (1 := Hgap).
    assert (Hcross : (lo' * toR m <= toR m' * hi)%R).
    { apply Rmult_le_compat; lra. }
    apply Rmult_le_reg_r with (r := (hi * toR m)%R).
    { apply Rmult_lt_0_compat; lra. }
    unfold Rdiv.
    replace ((lo' - hi) * / hi * (hi * toR m))%R with ((lo' - hi) * toR m * (hi * / hi))%R by ring.
    replace ((toR m' - toR m) * / toR m * (hi * toR m))%R
      with ((toR m' - toR m) * hi * (toR m * / toR m))%R by ring.
    rewrite !Rinv_r by lra. lra.
  - apply (IH m' lo' hi'); [lra|exact Hm'|exact Hrest].
Qed.

Lemma cluster_run_spans (tolerance : F) (rest : list F) :
  forall (prev : F) (cur : list F) (lo : R),
    (0 < lo)%R -> (lo <= toR prev)%R -> 0 < length cur ->
    Forall (fun c => (lo <= toR c <= toR prev)%R) cur ->
    ascending float64_less (prev :: rest) ->
    exists m out hi,
      cluster_run tolerance prev cur rest = m :: out
      ∧ (lo <= toR m <= hi)%R ∧ spans tolerance hi out.
Proof.
  induction rest as [|x rest IH]; intros prev cur lo Hlo Hprev Hlen Hcur Hasc.
  - exists (cluster_mean cur), [], (toR prev). split; [reflexivity|].
    split; [apply cluster_mean_bounds; assumption|constructor].
  - apply ascending_exact in Hasc. destruct Hasc as [Hle Hasc]. simpl.
    destruct (fabs (x - prev) / prev <=? tolerance)%f64 eqn:E.
    + apply (IH x (cur ++ [x]) lo); [exact Hlo|lra| |  |exact Hasc].
      * rewrite length_app. simpl. lia.
      * apply Forall_app. split.
        -- eapply Forall_impl; [exact Hcur|]. simpl. intros c Hc. lra.
        -- constructor; [lra|constructor].
    + apply gap_test_false in E; [|lra|exact Hle].
      destruct (IH x [x] (toR x)) as (m' & out & hi' & Hrun & Hm' & Hsp);
        [lra|lra|simpl; lia| |exact Hasc|].
      * constructor; [lra|constructor].
      * exists (cluster_mean cur), (m' :: out), (toR prev).
        rewrite Hrun. split; [reflexivity|].
        split; [apply cluster_mean_bounds; assumption|].
        apply (spans_cons tolerance (toR prev) (toR x) hi' m' out);
          [exact Hle|exact E|exact Hm'|exact Hsp].
Qed.

Lemma well_separated_ascending (tolerance : F) (l : list F) :
  well_separated tolerance l -> ascending float64_less l.
Proof.
  induction l as [|a l IH]; [intros; exact I|].
  destruct l as [|b l]; [intros; exact I|].
  intros [[Hab _] Hrest]. split; [|apply IH, Hrest].
  rewrite float64_less_exact. apply fltb_ge. exact Hab.
Qed.

(** A second pass finds every level in a cluster of its own. *)
Lemma cluster_run_separated_id (tolerance : F) (rest : list F) (x : F) :
  well_separated tolerance (x :: rest) ->
  cluster_run tolerance x [x] rest = x :: rest.
Proof.
  revert x. induction rest as [|y rest IH]; intros x Hsep; simpl.
  - rewrite cluster_mean_single. reflexivity.
  - destruct Hsep as [[_ Hgap] Hrest]. rewrite Hgap.
    rewrite cluster_mean_single, IH by exact Hrest. reflexivity.
Qed.

Lemma sort_Float64s_positive (levels : list F) :
  Forall (fun x => (0 < toR x)%R) levels ->
  Forall (fun x => (0 < toR x)%R) (sort_Float64s levels).
Proof.
  intros Hpos. unfold sort_Float64s.
  rewrite (insertion_sort_permutation float64_less levels). exact Hpos.
Qed.

Lemma clusterLevels_separated (levels : list F) (tolerance : F) :
  Forall (fun x => (0 < toR x)%R) levels ->
  well_separated tolerance (clusterLevels levels tolerance).
Proof.
  intros Hpos.
  destruct (sort_Float64s levels) as [|x rest] eqn:Hsort.
  - assert (Hnil : levels = []).
    { apply length_zero_iff_nil.
      rewrite <- (insertion_sort_length float64_less levels).
      fold (sort_Float64s levels). rewrite Hsort. reflexivity. }
    subst levels. exact I.
  - rewrite (clusterLevels_run levels tolerance x rest Hsort).
    pose proof (sort_Float64s_positive levels Hpos) as Hspos.
    rewrite Hsort in Hspos. inversion Hspos as [|? ? Hx _]; subst.
    destruct (cluster_run_spans tolerance rest x [x] (toR x))
      as (m & out & hi & Hrun & Hm & Hsp).
    + exact Hx.
    + lra.
    + simpl. lia.
    + constructor; [lra|constructor].
    + rewrite <- Hsort. apply insertion_sort_ascending, float64_less_asym.
    + rewrite Hrun. apply (spans_separated tolerance out m (toR x) hi Hx Hm Hsp).
Qed.

Lemma clusterLevels_fixed (l : list F) (tolerance : F) :
  well_separated tolerance l -> clusterLevels l tolerance = l.
Proof.
  intros Hsep. destruct l as [|x rest]; [reflexivity|].
  assert (Hsort : sort_Float64s (x :: rest) = x :: rest).
  { apply insertion_sort_ascending_id, (well_separated_ascending tolerance), Hsep. }
  rewrite (clusterLevels_run _ tolerance x rest Hsort).
  apply cluster_run_separated_id, Hsep.
Qed.
End ClusterExact.

(** ** Sort *)

Section SortProps.
Context {F : Type} `{Float64Ops F}.

Lemma before_asym (a b : BTCPrice F) : before a b = true -> before b a = false.
Proof. unfold before. intros Hab. apply Z.ltb_lt in Hab. apply Z.ltb_ge. lia. Qed.

Lemma ascending_before_sorted (l : list (BTCPrice F)) :
  ascending before l -> StronglySorted by_timestamp l.
Proof.
  intros Hasc. apply Sorted_StronglySorted.
  - intros a b c. unfold by_timestamp. lia.
  - induction l as [|a l IH]; [constructor|].
    constructor.
    + apply IH. eapply ascending_tail, Hasc.
    + destruct l as [|b l]; constructor.
      destruct Hasc as [Hba _]. unfold before in Hba.
      apply Z.ltb_ge in Hba. exact Hba.
Qed.

Lemma Sort_sorted (bts : BTCTimeSeries F) :
  StronglySorted by_timestamp (Data (Sort bts)).
Proof.
  apply ascending_before_sorted. simpl.
  apply insertion_sort_ascending, before_asym.
Qed.

Lemma Sort_permutation (bts : BTCTimeSeries F) : Data (Sort bts) ≡ₚ Data bts.
Proof. apply insertion_sort_permutation. Qed.


(** What the contract of [sort.Slice] alone fixes, whatever the
    algorithm: a rearrangement of the bars that is in order has the
    timestamps of [Sort], and is [Sort] bar for bar when no two different
    bars share a timestamp. *)
Lemma sorted_rearrangement_timestamps (bts : BTCTimeSeries F) (s : list (BTCPrice F)) :
  s ≡ₚ Data bts -> StronglySorted by_timestamp s ->
  Timestamp <$> s = Timestamp <$> Data (Sort bts).
Proof.
  intros Hperm Hsorted.
  apply (StronglySorted_unique Z.le).
  - eapply StronglySorted_fmap; [|exact Hsorted]. intros a b Hab. exact Hab.
  - eapply StronglySorted_fmap; [|apply Sort_sorted]. intros a b Hab. exact Hab.
  - rewrite Hperm, Sort_permutation. reflexivity.
Qed.

Lemma sorted_rearrangement_unique (bts : BTCTimeSeries F) (s : list (BTCPrice F)) :
  (forall a b, a ∈ Data bts -> b ∈ Data bts -> Timestamp a = Timestamp b -> a = b) ->
  s ≡ₚ Data bts -> StronglySorted by_timestamp s ->
  s = Data (Sort bts).
Proof.
  intros Hdistinct Hperm Hsorted.
  apply (StronglySorted_unique_strong by_timestamp);
    [|exact Hsorted|apply Sort_sorted|rewrite Hperm, Sort_permutation; reflexivity].
  intros a b Ha Hb Hab Hba. apply Hdistinct.
  - rewrite <- Hperm. exact Ha.
  - rewrite <- (Sort_permutation bts). exact Hb.
  - unfold by_timestamp in *. lia.
Qed.
End SortProps.

(** ** GetRiskMetrics *)

Section RiskProps.
Context {F : Type} `{Float64Ops F} `{Float64Math F}.

Lemma CalculateReturns_length (bts : BTCTimeSeries F) :
  2 ≤ length (Data bts) -> length (CalculateReturns bts) = length (Data bts) - 1.
Proof.
  intros Hle. unfold CalculateReturns. rewrite decide_False by lia.
  apply (for_range_ind (fun _ r => length r = length (Data bts) - 1)); [lia| |].
  - apply length_replicate.
  - intros i r _ Hr. destruct (fromZ 0 <? _)%f64; [rewrite length_insert|]; exact Hr.
Qed.

Lemma filter_nonempty {A} (f : A -> bool) (l : list A) :
  0 < length (List.filter f l) <-> existsb f l = true.
Proof.
  induction l as [|x l IH]; simpl.
  - split; [lia|discriminate].
  - destruct (f x); simpl; [split; [reflexivity|lia]|exact IH].
Qed.

Lemma GetRiskMetrics_short (bts : BTCTimeSeries F) :
  length (Data bts) < 30 -> GetRiskMetrics bts = ∅.
Proof. intros Hlt. unfold GetRiskMetrics. rewrite decide_True by lia. reflexivity. Qed.

(** The entry is written under two guards: some return is negative,
    and the deviation of the negative returns is above zero. *)
Lemma GetRiskMetrics_sortino (bts : BTCTimeSeries F) :
  30 ≤ length (Data bts) ->
  is_Some (GetRiskMetrics bts !! "sortino_ratio")
  <-> has_negative (CalculateReturns bts) = true
      ∧ (downsideDeviation (CalculateReturns bts) >? fromZ 0)%f64 = true.
Proof.
  intros Hle. unfold GetRiskMetrics.
  rewrite decide_False by lia.
  pose proof (CalculateReturns_length bts ltac:(lia)) as Hlen.
  rewrite decide_False by lia.
  rewrite lookup_insert_ne by discriminate.
  fold (downsideReturns (CalculateReturns bts)).
  fold (downsideDeviation (CalculateReturns bts)).
  unfold has_negative. rewrite <- filter_nonempty.
  fold (downsideReturns (CalculateReturns bts)).
  set (base := if decide (_ < _)%Z then _ else _).
  assert (Hbase : base !! "sortino_ratio" = None).
  { unfold base. destruct (decide _).
    - rewrite !lookup_insert_ne by discriminate. apply lookup_empty.
    - rewrite !lookup_insert_ne by discriminate. apply lookup_empty. }
  destruct (decide (0 < length (downsideReturns (CalculateReturns bts)))) as [Hd|Hd].
  - destruct (fromZ 0 <? downsideDeviation (CalculateReturns bts))%f64.
    + rewrite lookup_insert_eq. split; [intros _; split; [exact Hd|reflexivity]|eauto].
    + rewrite Hbase. split; [intros [? ?]; discriminate|intros [_ ?]; discriminate].
  - rewrite Hbase. split; [intros [? ?]; discriminate|intros [? _]; contradiction].
Qed.
End RiskProps.

(** ** FindPivotPoints *)

Section PivotProps.
Context {F : Type} `{Float64Ops F}.

(** The levels are those of the bar stored last in the slice. *)
Lemma FindPivotPoints_last (bts : BTCTimeSeries F) (latest : BTCPrice F) :
  last (Data bts) = Some latest ->
  let pivot := ((High latest + Low latest + Close latest) / fromZ 3)%f64 in
  FindPivotPoints bts !! "pivot" = Some pivot
  ∧ FindPivotPoints bts !! "r1" = Some (fromZ 2 * pivot - Low latest)%f64
  ∧ FindPivotPoints bts !! "s1" = Some (fromZ 2 * pivot - High latest)%f64
  ∧ FindPivotPoints bts !! "r2" = Some (pivot + (High latest - Low latest))%f64
  ∧ FindPivotPoints bts !! "s2" = Some (pivot - (High latest - Low latest))%f64
  ∧ FindPivotPoints bts !! "r3" = Some (High latest + fromZ 2 * (pivot - Low latest))%f64
  ∧ FindPivotPoints bts !! "s3" = Some (Low latest - fromZ 2 * (High latest - pivot))%f64.
Proof.
  intros Hlast. simpl. unfold FindPivotPoints.
  assert (Hne : length (Data bts) ≠ 0).
  { intros Hz. apply length_zero_iff_nil in Hz. rewrite Hz in Hlast. discriminate. }
  rewrite decide_False by exact Hne.
  assert (Hlatest : Data bts !!! (length (Data bts) - 1) = latest).
  { apply list_lookup_total_correct. rewrite last_lookup in Hlast.
    replace (length (Data bts) - 1) with (Init.Nat.pred (length (Data bts))) by lia.
    exact Hlast. }
  rewrite Hlatest.
  repeat split; simplify_map_eq; reflexivity.
Qed.

End PivotProps.

(** The scenario of the specification: one bar with high 110, low 90 and
    close 100. *)
Example FindPivotPoints_single_bar :
  let bts := {| Symbol := "BTC";
                Data := [{| Timestamp := 0; Open := 100; High := 110; Low := 90;
                            Close := 100; Volume := 0 |}]%float |} in
  FindPivotPoints bts !! "pivot" = Some 100%float
  ∧ FindPivotPoints bts !! "r1" = Some 110%float
  ∧ FindPivotPoints bts !! "s1" = Some 90%float.
Proof. vm_compute. repeat split. Qed.

(** ** GetTradingSignals *)

Section SignalProps.
Context {F : Type} `{Float64Ops F} `{Float64Math F}.

Lemma RSI_of_analysis (bts : BTCTimeSeries F) :
  RSI (PerformComprehensiveAnalysis bts).1
  = if decide (14 ≤ length (Data bts)) then CalculateRSI bts 14 else [].
Proof.
  unfold PerformComprehensiveAnalysis.
  destruct (decide (length (Data bts) < 2)) as [Hlt|Hge].
  - simpl. rewrite decide_False by lia. reflexivity.
  - destruct (if decide (0 < length (CalculateReturns bts)) then _ else _) as [[v s] m].
    destruct (if decide (10 ≤ length (Data bts)) then _ else _) as [sr bts'].
    reflexivity.
Qed.

Lemma macd_signal_RSI (analytics : BTCAnalytics F) signals :
  macd_signal analytics signals !! "RSI" = signals !! "RSI".
Proof.
  unfold macd_signal.
  repeat (match goal with |- context [if ?c then _ else _] => destruct c end);
    try reflexivity; apply lookup_insert_ne; discriminate.
Qed.

Lemma bollinger_signal_RSI (analytics : BTCAnalytics F) signals bts r :
  bollinger_signal analytics (signals, bts) = Some r ->
  r.1 !! "RSI" = signals !! "RSI".
Proof.
  unfold bollinger_signal.
  destruct (decide _); [|intros [= <-]; reflexivity].
  destruct (GetLatestPrice bts) as [bar bts'].
  destruct (Lower _ !! _) as [lower|]; [|discriminate].
  intros [= <-]. simpl.
  repeat (match goal with |- context [if ?c then _ else _] => destruct c end);
    apply lookup_insert_ne; discriminate.
Qed.

(** The read of the lower band is within range when the lower band is
    not shorter than the upper one. *)
Lemma bollinger_signal_returns (analytics : BTCAnalytics F) st :
  length (Upper (BollingerBands analytics)) ≤ length (Lower (BollingerBands analytics)) ->
  is_Some (bollinger_signal analytics st).
Proof.
  intros Hle. destruct st as [signals bts]. unfold bollinger_signal.
  destruct (decide _) as [Hpos|]; [|eauto].
  destruct (GetLatestPrice bts) as [bar bts'].
  destruct (lookup_lt_is_Some_2 (Lower (BollingerBands analytics))
              (length (Upper (BollingerBands analytics)) - 1)) as [lower ->];
    [lia|eauto].
Qed.

Lemma trend_signal_RSI (bts : BTCTimeSeries F) signals :
  trend_signal bts signals !! "RSI" = signals !! "RSI".
Proof.
  unfold trend_signal.
  repeat (match goal with |- context [if ?c then _ else _] => destruct c end);
    apply lookup_insert_ne; discriminate.
Qed.

Lemma level_signal_RSI (analytics : BTCAnalytics F) signals bts :
  (level_signal analytics (signals, bts)).1 !! "RSI" = signals !! "RSI".
Proof.
  unfold level_signal.
  destruct (decide _); [|reflexivity].
  destruct (GetLatestPrice bts) as [bar bts']. simpl.
  repeat (match goal with |- context [if ?c then _ else _] => destruct c end);
    rewrite ?lookup_insert_ne by discriminate; reflexivity.
Qed.

Lemma GetTradingSignals_RSI (bts : BTCTimeSeries F) (analytics : BTCAnalytics F) r :
  GetTradingSignals bts analytics = Some r ->
  r.1 !! "RSI" = rsi_signal analytics ∅ !! "RSI".
Proof.
  unfold GetTradingSignals.
  destruct (bollinger_signal _ _) as [[signals bts']|] eqn:Hb; [|discriminate].
  apply bollinger_signal_RSI in Hb. simpl in Hb.
  intros Hr. apply (inj Some) in Hr. subst r.
  rewrite level_signal_RSI, trend_signal_RSI, Hb. apply macd_signal_RSI.
Qed.

Lemma GetTradingSignals_returns (bts : BTCTimeSeries F) (analytics : BTCAnalytics F) :
  length (Upper (BollingerBands analytics)) ≤ length (Lower (BollingerBands analytics)) ->
  is_Some (GetTradingSignals bts analytics).
Proof.
  intros Hle. unfold GetTradingSignals.
  destruct (bollinger_signal_returns analytics
              (macd_signal analytics (rsi_signal analytics ∅), bts) Hle)
    as [[signals bts'] ->].
  eauto.
Qed.

(** The three bands [CalculateBollingerBands] returns have one length. *)
Lemma CalculateBollingerBands_lengths (bts : BTCTimeSeries F) (period : nat) (f : F) :
  let bands := CalculateBollingerBands bts period f in
  length (Middle bands) = length (Upper bands)
  ∧ length (Lower bands) = length (Upper bands).
Proof.
  cbv zeta. unfold CalculateBollingerBands.
  destruct (decide _); [split; reflexivity|].
  apply (for_range_ind
           (fun (_ : nat) (b : BollingerBandsData F) =>
              length (Middle b) = length (Upper b)
              ∧ length (Lower b) = length (Upper b))); [lia| |].
  - simpl. split; reflexivity.
  - intros i b _ [Hm Hl]. simpl. rewrite !length_insert. split; assumption.
Qed.

Lemma BollingerBands_of_analysis (bts : BTCTimeSeries F) :
  let bands := BollingerBands (PerformComprehensiveAnalysis bts).1 in
  length (Lower bands) = length (Upper bands).
Proof.
  cbv zeta. unfold PerformComprehensiveAnalysis.
  destruct (decide (length (Data bts) < 2)) as [Hlt|Hge]; [reflexivity|].
  destruct (if decide (0 < length (CalculateReturns bts)) then _ else _) as [[v s] m].
  destruct (if decide (10 ≤ length (Data bts)) then _ else _) as [sr bts'].
  cbn [fst BollingerBands].
  destruct (decide (20 ≤ length (Data bts))); [|reflexivity].
  apply CalculateBollingerBands_lengths.
Qed.

Lemma rsi_signal_zero (analytics : BTCAnalytics F) :
  (fromZ 0 <? fromZ 30)%f64 = true ->
  (fromZ 0 >? fromZ 70)%f64 = false ->
  last (RSI analytics) = Some (fromZ 0) ->
  rsi_signal analytics ∅ !! "RSI" = Some "BUY - Oversold".
Proof.
  intros H30 H70 Hlast. unfold rsi_signal.
  assert (Hlen : 0 < length (RSI analytics)).
  { destruct (RSI analytics); [discriminate|simpl; lia]. }
  rewrite decide_True by exact Hlen.
  assert (Hz : RSI analytics !!! (length (RSI analytics) - 1) = fromZ 0).
  { apply list_lookup_total_correct. rewrite last_lookup in Hlast.
    replace (length (RSI analytics) - 1)
      with (Init.Nat.pred (length (RSI analytics))) by lia.
    exact Hlast. }
  rewrite Hz, H70, H30. apply lookup_insert_eq.
Qed.
End SignalProps.

(** ** Checking side conditions by computation *)

Section Checks.
Context {F : Type} `{ExactArith F}.

Lemma positive_check (l : list F) :
  forallb (fun x => (fromZ 0 <? x)%f64) l = true ->
  Forall (fun x => (0 < toR x)%R) l.
Proof.
  induction l as [|x l IH]; simpl; intros Hall; [constructor|].
  apply andb_prop in Hall. destruct Hall as [Hx Hl].
  constructor; [|apply IH, Hl].
  apply fltb_lt in Hx. rewrite toR_fromZ in Hx. exact Hx.
Qed.

Lemma positive_closes_check (bts : BTCTimeSeries F) :
  forallb (fun x => (fromZ 0 <? x)%f64) (GetClosePrices bts) = true ->
  Forall (fun bar => (0 < toR (Close bar))%R) (Data bts).
Proof.
  intros Hall. apply positive_check in Hall.
  unfold GetClosePrices in Hall.
  apply (proj1 (Forall_map Close (fun x => (0 < toR x)%R) (Data bts))), Hall.
Qed.

Lemma nonneg_check (x : F) : (fromZ 0 <=? x)%f64 = true -> (0 <= toR x)%R.
Proof. intros Hx. apply fleb_le in Hx. rewrite toR_fromZ in Hx. exact Hx. Qed.
End Checks.

(** * The claims of the specification *)

(** ** RSI *)

(** C1.  The specification gives the RSI output one value per price
    change beyond the seed window, [len(prices) - period - 1] values.
    The code makes the slice with [len(prices) - period] slots and its
    loop fills all but the last: on the closes 1, 2, 3 with period 1 it
    returns two values, the computed 100 and the untouched 0, where the
    specification has one. *)
Theorem CalculateRSI_trailing_slot :
  CalculateRSI (series_of_closes [1; 2; 3]%float) 1 = [100; 0]%float
  ∧ length (CalculateRSI (series_of_closes [1; 2; 3]%float) 1) ≠ 3 - 1 - 1.
Proof. split; [vm_compute; reflexivity|vm_compute; lia]. Qed.

(** C2.  Whenever [CalculateRSI] returns a non-empty slice, its last
    element is the zero the slice was made with; hence, whenever the
    aggregate of [PerformComprehensiveAnalysis] holds a non-empty RSI,
    [GetTradingSignals] returns and maps ["RSI"] to ["BUY - Oversold"].
    The carrier only has to order 0 below 30 and not above 70. *)
Theorem RSI_signal_always_oversold {F : Type} `{Float64Ops F} `{Float64Math F} :
  (fromZ 0 <? fromZ 30)%f64 = true ->
  (fromZ 0 >? fromZ 70)%f64 = false ->
  (forall (bts : BTCTimeSeries F) (period : nat),
      CalculateRSI bts period ≠ [] ->
      last (CalculateRSI bts period) = Some (fromZ 0))
  ∧ (forall (bts bts' : BTCTimeSeries F),
        RSI (PerformComprehensiveAnalysis bts).1 ≠ [] ->
        exists r,
          GetTradingSignals bts' (PerformComprehensiveAnalysis bts).1 = Some r
          ∧ r.1 !! "RSI" = Some "BUY - Oversold").
Proof.
  intros H30 H70. split.
  - intros bts period. apply CalculateRSI_last.
  - intros bts bts' Hne.
    destruct (GetTradingSignals_returns bts' (PerformComprehensiveAnalysis bts).1)
      as [r Hr].
    { rewrite BollingerBands_of_analysis. reflexivity. }
    exists r. split; [exact Hr|].
    rewrite (GetTradingSignals_RSI _ _ _ Hr).
    apply rsi_signal_zero; [exact H30|exact H70|].
    rewrite RSI_of_analysis in *.
    destruct (decide (14 ≤ length (Data bts))); [|contradiction].
    apply CalculateRSI_last, Hne.
Qed.

Lemma RSI_signal_always_oversold_witness :
  (forall (bts : BTCTimeSeries float) (period : nat),
      CalculateRSI bts period ≠ [] ->
      last (CalculateRSI bts period) = Some (fromZ 0))
  ∧ (forall (bts bts' : BTCTimeSeries float),
        RSI (PerformComprehensiveAnalysis bts).1 ≠ [] ->
        exists r,
          GetTradingSignals bts' (PerformComprehensiveAnalysis bts).1 = Some r
          ∧ r.1 !! "RSI" = Some "BUY - Oversold").
Proof. apply (@RSI_signal_always_oversold float _ _); reflexivity. Defined.




(** ** EMA and MACD *)

(** C4.  For [1 <= period <= n], [calculateEMA] returns [n - period + 1]
    values; the first is the simple mean of the first [period] inputs,
    and each later one is
    [values[period-1+i]*k + ema[i-1]*(1-k)] with [k = 2/(period+1)].
    For [n < period] it returns the empty slice. *)
Theorem calculateEMA_recurrence {F : Type} `{Float64Ops F}
    (values : list F) (period : nat) :
  (length values < period -> calculateEMA values period = [])
  ∧ (1 ≤ period ≤ length values ->
     let ema := calculateEMA values period in
     let k := ema_multiplier period in
     length ema = length values - period + 1
     ∧ ema !! 0 = Some (simple_mean values period)
     ∧ forall i, 1 ≤ i < length ema ->
         ema !! i = Some (values !!! (period - 1 + i)%nat * k
                          + ema !!! (i - 1)%nat * (fromZ 1 - k))%f64).
Proof.
  split; [apply calculateEMA_short|].
  intros [Hp Hle]. simpl.
  destruct (calculateEMA_entries values period Hle) as [H0 Hrec].
  split; [apply calculateEMA_length, Hle|]. split; [exact H0|].
  intros i Hi. rewrite (Hrec i Hi).
  replace (period - 1 + i) with (period + i - 1) by lia. reflexivity.
Qed.

Lemma calculateEMA_recurrence_witness :
  let values := [1; 2; 3; 2; 1; 5]%float in
  let ema := calculateEMA values 3 in
  let k := ema_multiplier 3 in
  length ema = length values - 3 + 1
  ∧ ema !! 0 = Some (simple_mean values 3)
  ∧ forall i, 1 ≤ i < length ema ->
      ema !! i = Some (values !!! (3 - 1 + i)%nat * k
                       + ema !!! (i - 1)%nat * (fromZ 1 - k))%f64.
Proof.
  apply (proj2 (@calculateEMA_recurrence float _ [1; 2; 3; 2; 1; 5]%float 3)).
  simpl. lia.
Defined.




(** ** Support and resistance levels *)

(** C6, as the code has it.  In exact arithmetic, for strictly positive
    levels and a tolerance of at least 0, clustering the output of
    [clusterLevels] again with the same tolerance returns it unchanged.
    (The sign of the tolerance is not used by the proof.) *)
Theorem clusterLevels_idempotent {F : Type} `{ExactArith F}
    (levels : list F) (tolerance : F) :
  Forall (fun x => (0 < toR x)%R) levels ->
  (0 <= toR tolerance)%R ->
  clusterLevels (clusterLevels levels tolerance) tolerance
  = clusterLevels levels tolerance.
Proof.
  intros Hpos _. apply clusterLevels_fixed, clusterLevels_separated, Hpos.
Qed.

Lemma clusterLevels_idempotent_witness :
  let levels : list Qc := fromZ <$> [104; 100; 200; 101; 103; 205]%Z in
  let tolerance : Qc := lit 2 100 in
  clusterLevels (clusterLevels levels tolerance) tolerance
  = clusterLevels levels tolerance.
Proof.
  apply (@clusterLevels_idempotent Qc _ _).
  - apply positive_check. vm_compute. reflexivity.
  - apply nonneg_check. vm_compute. reflexivity.
Defined.

(** C6, as stated for every list, fails on [float64]: with the levels
    23.46, 23.46, 23, 23.46 and the tolerance 0.02 of the analyzer, 23.46
    is relatively more than 0.02 above 23, so the first pass returns 23
    and the mean of the three others; that mean is rounded down to
    23.459999999999997, which is within 0.02 of 23, and the second pass
    merges the two levels into one. *)
Lemma clusterLevels_rounding_merges :
  let levels : list float := [lit 2346 100; lit 2346 100; 23%float; lit 2346 100] in
  let tolerance : float := lit 2 100 in
  forallb (fun x => (fromZ 0 <? x)%f64) levels = true
  ∧ (fromZ 0 <=? tolerance)%f64 = true
  ∧ clusterLevels levels tolerance = [23; 0x1.775c28f5c28f5p+4]%float
  ∧ clusterLevels (clusterLevels levels tolerance) tolerance
    = [0x1.73ae147ae147ap+4]%float
  ∧ clusterLevels (clusterLevels levels tolerance) tolerance
    ≠ clusterLevels levels tolerance.
Proof.
  cbv zeta. split; [vm_compute; reflexivity|]. split; [vm_compute; reflexivity|].
  split; [vm_compute; reflexivity|]. split; [vm_compute; reflexivity|].
  intros Heq. apply (f_equal length) in Heq. vm_compute in Heq. discriminate.
Qed.

(** ** Drawdown *)



(** ** Risk metrics *)

(** C8, as the code has it.  With fewer than 30 bars [GetRiskMetrics]
    returns the empty map.  With 30 bars or more the map has the key
    ["sortino_ratio"] exactly when some return is negative and the
    annualized deviation of the negative returns is above zero. *)
Theorem GetRiskMetrics_sortino_key {F : Type} `{Float64Ops F} `{Float64Math F}
    (bts : BTCTimeSeries F) :
  (length (Data bts) < 30 -> GetRiskMetrics bts = ∅)
  ∧ (30 ≤ length (Data bts) ->
     (is_Some (GetRiskMetrics bts !! "sortino_ratio")
      <-> has_negative (CalculateReturns bts) = true
          ∧ (downsideDeviation (CalculateReturns bts) >? fromZ 0)%f64 = true)).
Proof. split; [apply GetRiskMetrics_short|apply GetRiskMetrics_sortino]. Qed.

Lemma GetRiskMetrics_sortino_key_witness :
  let bts := series_of_closes
               ((fun i => float_of_Z (100 + Z.of_nat ((i * i * 7) mod 13))) <$> seq 0 40) in
  is_Some (GetRiskMetrics bts !! "sortino_ratio")
  <-> has_negative (CalculateReturns bts) = true
      ∧ (downsideDeviation (CalculateReturns bts) >? fromZ 0)%f64 = true.
Proof.
  apply (proj2 (@GetRiskMetrics_sortino_key float _ _ _)).
  vm_compute. lia.
Defined.

(** C8, as stated, fails: 29 closes of 100 and a last close of 50 give
    one negative return; the deviation of a single value is 0, and the
    map has no ["sortino_ratio"]. *)
Lemma GetRiskMetrics_single_loss :
  let bts := series_of_closes (replicate 29 100%float ++ [50%float]) in
  30 ≤ length (Data bts)
  ∧ has_negative (CalculateReturns bts) = true
  ∧ GetRiskMetrics bts !! "sortino_ratio" = None.
Proof. split; [vm_compute; lia|split; vm_compute; reflexivity]. Qed.

(** ** Pivot points *)


(** ** Sort *)


(** * Lemmas for the rest of the packages *)

(** ** The real numbers are an exact carrier *)

Lemma R_fltb_lt (x y : R) : (x <? y)%f64 = true <-> (x < y)%R.
Proof. cbn. destruct (Rlt_dec x y); split; intros Hyp; try done. Qed.

Lemma R_fleb_le (x y : R) : (x <=? y)%f64 = true <-> (x <= y)%R.
Proof. cbn. destruct (Rle_dec x y); split; intros Hyp; try done. Qed.

Lemma R_feqb_eq (x y : R) : (x =? y)%f64 = true <-> x = y.
Proof. cbn. destruct (Req_dec_T x y); split; intros Hyp; try done. Qed.

#[export] Instance R_exact : ExactArith R := {|
  toR := fun x : R => x;
  toR_inj := fun x y Hxy => Hxy;
  toR_fromZ := fun z => eq_refl;
  toR_add := fun x y => eq_refl;
  toR_sub := fun x y => eq_refl;
  toR_mul := fun x y => eq_refl;
  toR_div := fun x y _ => eq_refl;
  toR_abs := fun x => eq_refl;
  fltb_lt := R_fltb_lt;
  fleb_le := R_fleb_le;
  feqb_eq := R_feqb_eq;
|}.

#[export] Instance R_exact_math : ExactMath R := {|
  toR_sqrt := fun x _ => eq_refl;
|}.

(** ** Scans for the greatest and the least value *)

Section Scans.
Context {F : Type} `{Float64Ops F}.

Lemma fold_fmax_elem (l : list F) (h : F) : fold_left fmax l h ∈ h :: l.
Proof.
  revert h. induction l as [|x l IH]; intros h; simpl; [apply list_elem_of_here|].
  specialize (IH (fmax h x)). apply elem_of_cons in IH as [Heq|Hin].
  - rewrite Heq. unfold fmax.
    destruct (h <? x)%f64; [apply list_elem_of_further|]; apply list_elem_of_here.
  - do 2 apply list_elem_of_further. exact Hin.
Qed.

Lemma fold_fmin_elem (l : list F) (h : F) : fold_left fmin l h ∈ h :: l.
Proof.
  revert h. induction l as [|x l IH]; intros h; simpl; [apply list_elem_of_here|].
  specialize (IH (fmin h x)). apply elem_of_cons in IH as [Heq|Hin].
  - rewrite Heq. unfold fmin.
    destruct (x <? h)%f64; [apply list_elem_of_further|]; apply list_elem_of_here.
  - do 2 apply list_elem_of_further. exact Hin.
Qed.
End Scans.

Section ScansExact.
Context {F : Type} `{ExactArith F}.

Lemma fmax_upper (a b : F) : (toR a <= toR (fmax a b))%R ∧ (toR b <= toR (fmax a b))%R.
Proof.
  unfold fmax. destruct (a <? b)%f64 eqn:E.
  - apply fltb_lt in E. lra.
  - apply fltb_ge in E. lra.
Qed.

Lemma fmin_lower (a b : F) : (toR (fmin a b) <= toR a)%R ∧ (toR (fmin a b) <= toR b)%R.
Proof.
  unfold fmin. destruct (b <? a)%f64 eqn:E.
  - apply fltb_lt in E. lra.
  - apply fltb_ge in E. lra.
Qed.

Lemma fold_fmax_upper (l : list F) (h : F) :
  Forall (fun x => (toR x <= toR (fold_left fmax l h))%R) (h :: l).
Proof.
  revert h. induction l as [|x l IH]; intros h; simpl.
  - constructor; [lra|constructor].
  - specialize (IH (fmax h x)). inversion IH as [|? ? Hh Hl]; subst.
    destruct (fmax_upper h x) as [H1 H2].
    constructor; [lra|]. constructor; [lra|]. exact Hl.
Qed.

Lemma fold_fmin_lower (l : list F) (h : F) :
  Forall (fun x => (toR (fold_left fmin l h) <= toR x)%R) (h :: l).
Proof.
  revert h. induction l as [|x l IH]; intros h; simpl.
  - constructor; [lra|constructor].
  - specialize (IH (fmin h x)). inversion IH as [|? ? Hh Hl]; subst.
    destruct (fmin_lower h x) as [H1 H2].
    constructor; [lra|]. constructor; [lra|]. exact Hl.
Qed.
End ScansExact.

(** ** Sorted slices *)

Lemma StronglySorted_lookup_le {A} (R : relation A) (l : list A) :
  (forall a, R a a) ->
  StronglySorted R l ->
  forall i j x y, i ≤ j -> l !! i = Some x -> l !! j = Some y -> R x y.
Proof.
  intros Hrefl. induction 1 as [|a l Hs IH Hall]; intros i j x y Hij Hx Hy; [done|].
  destruct i as [|i], j as [|j]; simpl in *; try lia.
  - simplify_eq. apply Hrefl.
  - simplify_eq. rewrite Forall_forall in Hall.
    apply Hall. eapply list_elem_of_lookup_2, Hy.
  - eapply (IH i j); [lia|done..].
Qed.

(** ** package timeseries *)

Section TimeseriesProps.
Context {F : Type} `{Float64Ops F}.

Lemma sorted_lookup_le (l : list (BTCPrice F)) :
  StronglySorted by_timestamp l ->
  forall i j x y, i ≤ j -> l !! i = Some x -> l !! j = Some y ->
    (Timestamp x <= Timestamp y)%Z.
Proof.
  intros Hs. apply StronglySorted_lookup_le; [|exact Hs].
  intros a. unfold by_timestamp. lia.
Qed.

Lemma Sort_length (bts : BTCTimeSeries F) : length (Data (Sort bts)) = length (Data bts).
Proof. apply insertion_sort_length. Qed.

Lemma Sort_elem (bts : BTCTimeSeries F) (p : BTCPrice F) :
  p ∈ Data (Sort bts) <-> p ∈ Data bts.
Proof. rewrite (Sort_permutation bts). reflexivity. Qed.

(** The bars at the two ends of a sorted series. *)
Lemma Sort_ends (bts : BTCTimeSeries F) :
  Data bts ≠ [] ->
  let first := Data (Sort bts) !!! 0 in
  let last := Data (Sort bts) !!! (length (Data (Sort bts)) - 1) in
  first ∈ Data bts ∧ last ∈ Data bts
  ∧ forall p, p ∈ Data bts -> (Timestamp first <= Timestamp p <= Timestamp last)%Z.
Proof.
  intros Hne. simpl.
  assert (Hlen : 0 < length (Data (Sort bts))).
  { rewrite Sort_length. destruct (Data bts); [done|simpl; lia]. }
  destruct (lookup_lt_is_Some_2 (Data (Sort bts)) 0 Hlen) as [a Ha].
  destruct (lookup_lt_is_Some_2 (Data (Sort bts)) (length (Data (Sort bts)) - 1)
              ltac:(lia)) as [b Hb].
  rewrite (list_lookup_total_correct _ _ _ Ha), (list_lookup_total_correct _ _ _ Hb).
  split; [apply Sort_elem; eapply list_elem_of_lookup_2, Ha|].
  split; [apply Sort_elem; eapply list_elem_of_lookup_2, Hb|].
  intros p Hp. apply Sort_elem in Hp.
  apply list_elem_of_lookup_1 in Hp. destruct Hp as [i Hi].
  pose proof (lookup_lt_Some _ _ _ Hi) as Hlt.
  split.
  - eapply (sorted_lookup_le _ (Sort_sorted bts) 0 i); [lia|done..].
  - eapply (sorted_lookup_le _ (Sort_sorted bts) i); [|done..]. lia.
Qed.

Lemma FilterByDateRange_loop (l : list (BTCPrice F)) (start end_ : Z)
    (filtered : BTCTimeSeries F) :
  let r := fold_left
    (fun filtered price =>
       if in_date_range start end_ price then AddPrice filtered price else filtered)
    l filtered in
  Symbol r = Symbol filtered
  ∧ Data r = Data filtered
             ++ filter (fun p => (start <= Timestamp p <= end_)%Z) l.
Proof.
  revert filtered. induction l as [|p l IH]; intros filtered; simpl.
  - rewrite app_nil_r. done.
  - destruct (IH (if in_date_range start end_ p then AddPrice filtered p else filtered))
      as [IHs IHd].
    rewrite IHs, IHd. clear IH IHs IHd.
    unfold in_date_range.
    destruct (decide (start <= Timestamp p <= end_)%Z) as [Hin|Hout].
    + rewrite filter_cons_True by done.
      replace ((Timestamp p =? start)%Z || (start <? Timestamp p)%Z) with true
        by (symmetry; apply orb_true_iff; lia).
      replace ((Timestamp p =? end_)%Z || (Timestamp p <? end_)%Z) with true
        by (symmetry; apply orb_true_iff; lia).
      simpl. rewrite <- app_assoc. done.
    + rewrite filter_cons_False by done.
      destruct (((Timestamp p =? start)%Z || (start <? Timestamp p)%Z)
                && ((Timestamp p =? end_)%Z || (Timestamp p <? end_)%Z)) eqn:E; [|done].
      apply andb_true_iff in E. rewrite !orb_true_iff in E. lia.
Qed.

Lemma FilterByDateRange_filter (bts : BTCTimeSeries F) (start end_ : Z) :
  Symbol (FilterByDateRange bts start end_) = String.append (Symbol bts) "_filtered"
  ∧ Data (FilterByDateRange bts start end_)
    = filter (fun p => (start <= Timestamp p <= end_)%Z) (Data bts).
Proof.
  unfold FilterByDateRange.
  destruct (FilterByDateRange_loop (Data bts) start end_
              (New (String.append (Symbol bts) "_filtered"))) as [Hs Hd].
  split; [exact Hs|]. rewrite Hd. reflexivity.
Qed.

Lemma aggregate_loop (l : list (BTCPrice F)) (high low volume : F) :
  fold_left aggregate_step l (high, low, volume)
  = (fold_left fmax (High <$> l) high, fold_left fmin (Low <$> l) low,
     fold_left fadd (Volume <$> l) volume).
Proof.
  revert high low volume. induction l as [|p l IH]; intros high low volume; [done|].
  simpl. rewrite IH. reflexivity.
Qed.

Lemma aggregateDayData_fields (dayData : list (BTCPrice F)) (day : Z) :
  dayData ≠ [] ->
  aggregateDayData dayData day
  = {| Timestamp := day;
       Open := Open (dayData !!! 0);
       High := fold_left fmax (High <$> dayData) (High (dayData !!! 0));
       Low := fold_left fmin (Low <$> dayData) (Low (dayData !!! 0));
       Close := Close (dayData !!! (length dayData - 1));
       Volume := sum_range (Volume <$> dayData) |}.
Proof.
  intros Hne. unfold aggregateDayData.
  destruct (decide (length dayData = 0)) as [Hz|_].
  { destruct dayData; [done|discriminate]. }
  rewrite aggregate_loop. reflexivity.
Qed.
End TimeseriesProps.

(** ** ResampleToDaily *)

Section ResampleProps.
Context {F : Type} `{Float64Ops F}.

Lemma Truncate_mono (t1 t2 d : Z) :
  (0 < d)%Z -> (t1 <= t2)%Z -> (Truncate t1 d <= Truncate t2 d)%Z.
Proof.
  intros Hd Hle. unfold Truncate.
  rewrite !Z.mod_eq by lia.
  pose proof (Z.div_le_mono t1 t2 d Hd Hle). nia.
Qed.

Lemma day_of_mono (a b : BTCPrice F) :
  by_timestamp a b -> (day_of a <= day_of b)%Z.
Proof. intros Hab. apply Truncate_mono; [reflexivity|exact Hab]. Qed.

Lemma filter_none {A} (P : A -> Prop) `{!forall x, Decision (P x)} (l : list A) :
  (forall x, x ∈ l -> ~ P x) -> filter P l = [].
Proof.
  induction l as [|x l IH]; intros Hnone; [done|].
  rewrite filter_cons_False by (apply Hnone, list_elem_of_here).
  apply IH. intros y Hy. apply Hnone, list_elem_of_further, Hy.
Qed.

Lemma filter_snoc_False {A} (P : A -> Prop) `{!forall x, Decision (P x)}
    (l : list A) (x : A) :
  ~ P x -> filter P (l ++ [x]) = filter P l.
Proof.
  intros Hx. rewrite filter_app, (filter_cons_False _ _ _ Hx).
  apply app_nil_r.
Qed.

Lemma aggregateDayData_Timestamp (dayData : list (BTCPrice F)) (day : Z) :
  dayData ≠ [] -> Timestamp (aggregateDayData dayData day) = day.
Proof. intros Hne. rewrite aggregateDayData_fields by exact Hne. reflexivity. Qed.

Lemma flush_day_Data (resampled : BTCTimeSeries F) (dayData : list (BTCPrice F))
    (currentDay : Z) :
  Data (flush_day resampled dayData currentDay)
  = Data resampled
    ++ (if decide (dayData = []) then [] else [aggregateDayData dayData currentDay]).
Proof.
  unfold flush_day. destruct dayData as [|p l]; simpl.
  - symmetry. apply app_nil_r.
  - reflexivity.
Qed.

(** What a flush leaves: the bars of the current day have their bar
    too. *)
Lemma flush_day_inv (pre : list (BTCPrice F)) resampled currentDay dayData :
  resample_inv pre resampled currentDay dayData ->
  let out := flush_day resampled dayData currentDay in
  StronglySorted Z.lt (map Timestamp (Data out))
  ∧ (forall b, b ∈ Data out ->
       (Timestamp b <= currentDay)%Z
       ∧ (exists p, p ∈ pre ∧ day_of p = Timestamp b)
       ∧ b = aggregateDayData (filter (fun p => day_of p = Timestamp b) pre)
               (Timestamp b))
  ∧ (forall p, p ∈ pre -> day_of p ∈ map Timestamp (Data out)).
Proof.
  intros (Hdd & Hle & Hsorted & Hbars & Hdays). simpl.
  rewrite flush_day_Data.
  destruct (decide (dayData = [])) as [Hnil|Hne].
  - rewrite app_nil_r. split; [exact Hsorted|]. split.
    + intros b Hb. destruct (Hbars b Hb) as (Hlt & Hex & Heq).
      split; [lia|]. split; [exact Hex|exact Heq].
    + intros p Hp. destruct (Hdays p Hp) as [Hcur|Hin]; [|exact Hin].
      exfalso. eapply (filter_nil_not_elem_of (fun q => day_of q = currentDay));
        [rewrite <- Hdd; exact Hnil|exact Hcur|exact Hp].
  - pose proof (aggregateDayData_Timestamp dayData currentDay Hne) as Hts.
    split; [|split].
    + rewrite map_app. apply StronglySorted_app_2.
      * intros t1 t2 Ht1 Ht2. simpl in Ht2.
        apply list_elem_of_singleton in Ht2. subst t2. rewrite Hts.
        apply (list_elem_of_fmap_1 Timestamp) in Ht1. destruct Ht1 as (b & -> & Hb).
        apply Hbars, Hb.
      * exact Hsorted.
      * simpl. repeat constructor.
    + intros b Hb. apply elem_of_app in Hb as [Hb|Hb].
      * destruct (Hbars b Hb) as (Hlt & Hex & Heq).
        split; [lia|]. split; [exact Hex|exact Heq].
      * apply list_elem_of_singleton in Hb. subst b. rewrite Hts.
        split; [lia|]. split; [|rewrite <- Hdd; reflexivity].
        destruct dayData as [|q dd]; [done|].
        assert (Hq : q ∈ filter (fun p => day_of p = currentDay) pre)
          by (rewrite <- Hdd; apply list_elem_of_here).
        apply list_elem_of_filter in Hq. exists q. tauto.
    + intros p Hp. rewrite map_app. apply elem_of_app.
      destruct (Hdays p Hp) as [Hcur|Hin]; [right|left; exact Hin].
      simpl. rewrite Hts, Hcur. apply list_elem_of_here.
Qed.

Lemma resample_step_inv (pre : list (BTCPrice F)) resampled currentDay dayData price :
  resample_inv pre resampled currentDay dayData ->
  (currentDay <= day_of price)%Z ->
  exists resampled' currentDay' dayData',
    resample_step (resampled, currentDay, dayData) price
    = (resampled', currentDay', dayData')
    ∧ (currentDay' = currentDay ∨ currentDay' = day_of price)
    ∧ resample_inv (pre ++ [price]) resampled' currentDay' dayData'.
Proof.
  intros Hinv Hge. unfold resample_step. fold (day_of price).
  destruct (day_of price =? currentDay)%Z eqn:E.
  - apply Z.eqb_eq in E.
    exists resampled, currentDay, (dayData ++ [price]).
    split; [reflexivity|]. split; [left; reflexivity|].
    destruct Hinv as (Hdd & Hle & Hsorted & Hbars & Hdays).
    split; [|split; [|split; [exact Hsorted|split]]].
    + rewrite filter_app, <- Hdd, filter_cons_True by exact E. reflexivity.
    + intros p Hp. apply elem_of_app in Hp as [Hp|Hp]; [apply Hle, Hp|].
      apply list_elem_of_singleton in Hp. subst p. lia.
    + intros b Hb. destruct (Hbars b Hb) as (Hlt & (q & Hq & Hqd) & Heq).
      split; [exact Hlt|]. split.
      * exists q. split; [apply elem_of_app; left; exact Hq|exact Hqd].
      * rewrite filter_snoc_False by lia. exact Heq.
    + intros p Hp. apply elem_of_app in Hp as [Hp|Hp]; [apply Hdays, Hp|].
      apply list_elem_of_singleton in Hp. subst p. left. exact E.
  - apply Z.eqb_neq in E.
    exists (flush_day resampled dayData currentDay), (day_of price), [price].
    split; [reflexivity|]. split; [right; reflexivity|].
    pose proof Hinv as (Hdd & Hle & _).
    destruct (flush_day_inv pre resampled currentDay dayData Hinv)
      as (Hsorted & Hbars & Hdays).
    split; [|split; [|split; [exact Hsorted|split]]].
    + rewrite filter_app, filter_cons_True by reflexivity.
      rewrite filter_none; [reflexivity|].
      intros q Hq Hqd. specialize (Hle q Hq). lia.
    + intros p Hp. apply elem_of_app in Hp as [Hp|Hp].
      * specialize (Hle p Hp). lia.
      * apply list_elem_of_singleton in Hp. subst p. lia.
    + intros b Hb. destruct (Hbars b Hb) as (Hlt & (q & Hq & Hqd) & Heq).
      split; [lia|]. split.
      * exists q. split; [apply elem_of_app; left; exact Hq|exact Hqd].
      * rewrite filter_snoc_False by lia. exact Heq.
    + intros p Hp. apply elem_of_app in Hp as [Hp|Hp]; [right; apply Hdays, Hp|].
      apply list_elem_of_singleton in Hp. subst p. left. reflexivity.
Qed.

Lemma resample_loop_inv (l : list (BTCPrice F)) :
  forall pre resampled currentDay dayData,
  StronglySorted by_timestamp l ->
  (forall p, p ∈ l -> (currentDay <= day_of p)%Z) ->
  resample_inv pre resampled currentDay dayData ->
  exists resampled' currentDay' dayData',
    fold_left resample_step l (resampled, currentDay, dayData)
    = (resampled', currentDay', dayData')
    ∧ resample_inv (pre ++ l) resampled' currentDay' dayData'.
Proof.
  induction l as [|p l IH]; intros pre resampled currentDay dayData Hs Hge Hinv.
  - exists resampled, currentDay, dayData. rewrite app_nil_r. done.
  - apply StronglySorted_inv in Hs as [Hs Hall]. rewrite Forall_forall in Hall.
    destruct (resample_step_inv pre resampled currentDay dayData p Hinv)
      as (r' & c' & d' & Hstep & Hc & Hinv');
      [apply Hge, list_elem_of_here|].
    cbn [fold_left]. rewrite Hstep.
    destruct (IH (pre ++ [p]) r' c' d' Hs) as (r'' & c'' & d'' & Hfold & Hinv'').
    + intros q Hq. destruct Hc as [->| ->].
      * apply Hge, list_elem_of_further, Hq.
      * apply day_of_mono, Hall, Hq.
    + exact Hinv'.
    + exists r'', c'', d''. rewrite <- app_assoc in Hinv''. done.
Qed.

(** The daily series: one bar for each day that has bars, in ascending
    order, each the aggregate of the bars of its day in time order. *)
Lemma ResampleToDaily_days (bts : BTCTimeSeries F) :
  let daily := (ResampleToDaily bts).1 in
  Symbol daily = String.append (Symbol bts) "_daily"
  ∧ StronglySorted Z.lt (map Timestamp (Data daily))
  ∧ (forall d, d ∈ map Timestamp (Data daily) <-> exists p, p ∈ Data bts ∧ day_of p = d)
  ∧ (forall b, b ∈ Data daily ->
       b = aggregateDayData
             (filter (fun p => day_of p = Timestamp b) (Data (Sort bts)))
             (Timestamp b)).
Proof.
  simpl. unfold ResampleToDaily.
  destruct (decide (length (Data bts) = 0)) as [Hz|Hnz].
  { apply length_zero_iff_nil in Hz. simpl. rewrite Hz.
    split; [reflexivity|]. split; [constructor|]. split.
    - intros d. split; [intros Hd; inversion Hd|].
      intros (p & Hp & _). inversion Hp.
    - intros b Hb. inversion Hb. }
  assert (Hne : Data bts ≠ []) by (intros Hnil; rewrite Hnil in Hnz; done).
  destruct (Sort_ends bts Hne) as (_ & _ & Hends). cbv zeta in Hends.
  set (first := Data (Sort bts) !!! 0) in *.
  destruct (resample_loop_inv (Data (Sort bts)) []
              (New (String.append (Symbol (Sort bts)) "_daily"))
              (day_of first) [] (Sort_sorted bts))
    as (r & c & d & Hfold & Hinv).
  { intros p Hp. apply day_of_mono. apply (proj1 (Sort_elem bts p)) in Hp.
    apply Hends, Hp. }
  { unfold resample_inv. simpl.
    split; [reflexivity|]. split; [intros p Hp; inversion Hp|].
    split; [constructor|]. split; intros b Hb; inversion Hb. }
  fold (day_of first). rewrite Hfold. cbn [fst].
  assert (Hsym : Symbol (flush_day r d c) = String.append (Symbol bts) "_daily").
  { clear -Hfold.
    assert (Hkeep : forall l (st : BTCTimeSeries F * Z * list (BTCPrice F)),
              Symbol (fold_left resample_step l st).1.1 = Symbol st.1.1).
    { induction l as [|p l IH]; intros [[r0 c0] d0]; [done|].
      simpl. rewrite IH. unfold resample_step, flush_day.
      destruct (_ =? _)%Z; [done|]. destruct (decide _); done. }
    specialize (Hkeep (Data (Sort bts))
                  (New (String.append (Symbol (Sort bts)) "_daily"), day_of first, [])).
    rewrite Hfold in Hkeep. simpl in Hkeep.
    unfold flush_day. destruct (decide _); simpl; exact Hkeep. }
  split; [exact Hsym|].
  simpl in Hinv.
  destruct (flush_day_inv _ r c d Hinv) as (Hsorted & Hbars & Hdays).
  split; [exact Hsorted|]. split.
  - intros t. split.
    + intros Ht. apply (list_elem_of_fmap_1 Timestamp) in Ht. destruct Ht as (b & -> & Hb).
      destruct (Hbars b Hb) as (_ & (p & Hp & Hpd) & _).
      exists p. split; [apply Sort_elem, Hp|exact Hpd].
    + intros (p & Hp & <-). apply Hdays, Sort_elem, Hp.
  - intros b Hb. apply Hbars, Hb.
Qed.
End ResampleProps.

(** ** Loops that fill a slice or read a window *)

Section LoopLemmas.
Context {A : Type}.

Lemma for_range_tabulate (f : nat -> A) (n : nat) (init : list A) :
  length init = n ->
  for_range 0 n (fun k acc => <[k := f k]> acc) init = f <$> seq 0 n.
Proof.
  intros Hlen.
  pose (P := fun (hi : nat) (r : list A) =>
               length r = n ∧ forall i, i < hi -> r !! i = Some (f i)).
  assert (Hinv : P n (for_range 0 n (fun k acc => <[k := f k]> acc) init)).
  { apply (for_range_ind P); unfold P; [lia| |].
    - split; [exact Hlen|]. intros i Hi. lia.
    - intros i r Hi [Hl Hr]. split; [rewrite length_insert; exact Hl|].
      intros j Hj. destruct (decide (j = i)) as [->|Hne].
      + apply list_lookup_insert_eq. lia.
      + rewrite list_lookup_insert_ne by lia. apply Hr. lia. }
  destruct Hinv as [Hl Hr]. apply list_eq. intros i.
  destruct (decide (i < n)) as [Hi|Hi].
  - rewrite Hr by exact Hi. rewrite list_lookup_fmap, lookup_seq_lt by exact Hi.
    reflexivity.
  - rewrite !lookup_ge_None_2; [reflexivity| |].
    + rewrite length_fmap, length_seq. lia.
    + lia.
Qed.

Lemma for_range_slice {St : Type} `{Inhabited A} (step : St -> A -> St)
    (data : list A) (lo hi : nat) (s : St) :
  lo ≤ hi ≤ length data ->
  for_range lo hi (fun j s => step s (data !!! j)) s
  = fold_left step (take (hi - lo) (drop lo data)) s.
Proof.
  induction hi as [|hi IH]; intros Hb.
  - rewrite for_range_empty by lia. reflexivity.
  - destruct (decide (lo = S hi)) as [->|Hne].
    + rewrite for_range_empty by lia. rewrite Nat.sub_diag. reflexivity.
    + rewrite for_range_snoc by lia. rewrite IH by lia.
      replace (S hi - lo) with (S (hi - lo)) by lia.
      destruct (lookup_lt_is_Some_2 data hi ltac:(lia)) as [x Hx].
      assert (Hd : drop lo data !! (hi - lo) = Some x).
      { rewrite lookup_drop. replace (lo + (hi - lo)) with hi by lia. exact Hx. }
      rewrite (take_S_r _ _ _ Hd), fold_left_app. simpl.
      rewrite (list_lookup_total_correct _ _ _ Hx). reflexivity.
Qed.
End LoopLemmas.

(** ** package indicators: moving averages and bands *)

Section MovingAverages.
Context {F : Type} `{Float64Ops F}.

Lemma window_mean_simple_mean (prices : list F) (period k : nat) :
  k + period ≤ length prices ->
  window_mean prices period k = simple_mean (drop k prices) period.
Proof.
  intros Hb. unfold window_mean, simple_mean, sum_range.
  rewrite (for_range_slice fadd prices k (k + period)) by lia.
  replace (k + period - k) with period by lia. reflexivity.
Qed.

Lemma CalculateMovingAverage_short (bts : BTCTimeSeries F) (period : nat) :
  length (Data bts) < period -> CalculateMovingAverage bts period = [].
Proof. intros Hlt. unfold CalculateMovingAverage. rewrite decide_True by lia. done. Qed.

Lemma CalculateMovingAverage_tabulate (bts : BTCTimeSeries F) (period : nat) :
  period ≤ length (Data bts) ->
  CalculateMovingAverage bts period
  = window_mean (GetClosePrices bts) period
    <$> seq 0 (length (Data bts) - period + 1).
Proof.
  intros Hle. unfold CalculateMovingAverage. rewrite decide_False by lia.
  unfold GetClosePrices at 1 3. rewrite !length_map.
  apply for_range_tabulate, length_replicate.
Qed.
End MovingAverages.

Section Bands.
Context {F : Type} `{Float64Ops F} `{Float64Math F}.

Lemma CalculateBollingerBands_short (bts : BTCTimeSeries F) (period : nat) (f : F) :
  length (Data bts) < period ->
  CalculateBollingerBands bts period f = BollingerBandsData_zero.
Proof.
  intros Hlt. unfold CalculateBollingerBands, GetClosePrices.
  rewrite length_map, decide_True by lia. reflexivity.
Qed.

Lemma CalculateBollingerBands_tabulate (bts : BTCTimeSeries F) (period : nat) (f : F) :
  period ≤ length (Data bts) ->
  let prices := GetClosePrices bts in
  let n := length (Data bts) - period + 1 in
  CalculateBollingerBands bts period f
  = {| Upper := (fun k => (window_mean prices period k
                           + f * window_std prices period k)%f64) <$> seq 0 n;
       Middle := window_mean prices period <$> seq 0 n;
       Lower := (fun k => (window_mean prices period k
                           - f * window_std prices period k)%f64) <$> seq 0 n |}.
Proof.
  intros Hle. simpl. unfold CalculateBollingerBands.
  set (prices := GetClosePrices bts).
  assert (Hlen : length prices = length (Data bts)) by apply length_map.
  rewrite Hlen, decide_False by lia.
  set (n := length (Data bts) - period + 1).
  set (z := replicate n (fromZ 0)).
  set (body := fun (k : nat) (bands : BollingerBandsData F) => _).
  pose (up := fun k => (window_mean prices period k + f * window_std prices period k)%f64).
  pose (lw := fun k => (window_mean prices period k - f * window_std prices period k)%f64).
  pose (P := fun (hi : nat) (bands : BollingerBandsData F) =>
    Upper bands = for_range 0 hi (fun k acc => <[k := up k]> acc) z
    ∧ Middle bands
      = for_range 0 hi (fun k acc => <[k := window_mean prices period k]> acc) z
    ∧ Lower bands = for_range 0 hi (fun k acc => <[k := lw k]> acc) z).
  assert (Hinv : P n (for_range 0 n body {| Upper := z; Middle := z; Lower := z |})).
  { apply (for_range_ind P); unfold P; [lia| |].
    - rewrite !for_range_empty by lia. done.
    - intros i bands Hi (Hu & Hm & Hl).
      rewrite !for_range_snoc by lia. rewrite <- Hu, <- Hm, <- Hl.
      unfold body. simpl. done. }
  destruct Hinv as (Hu & Hm & Hl).
  assert (Hz : length z = n) by apply length_replicate.
  rewrite (for_range_tabulate _ n z Hz) in Hu.
  rewrite (for_range_tabulate _ n z Hz) in Hm.
  rewrite (for_range_tabulate _ n z Hz) in Hl.
  destruct (for_range 0 n body _) as [U M L]. simpl in *. subst. reflexivity.
Qed.
End Bands.

Section MovingAveragesExact.
Context {F : Type} `{ExactArith F}.

Lemma simple_mean_bounds (values : list F) (period : nat) (lo hi : R) :
  1 ≤ period ≤ length values ->
  Forall (fun c => (lo <= toR c <= hi)%R) values ->
  (lo <= toR (simple_mean values period) <= hi)%R.
Proof.
  intros Hp Hall.
  assert (Hlen : length (take period values) = period) by (rewrite length_take; lia).
  pose proof (cluster_mean_bounds (take period values) lo hi ltac:(lia)
                (Forall_take _ _ _ Hall)) as Hb.
  unfold cluster_mean in Hb. rewrite Hlen in Hb. exact Hb.
Qed.

Lemma window_mean_bounds (prices : list F) (period k : nat) (lo hi : R) :
  1 ≤ period -> k + period ≤ length prices ->
  Forall (fun c => (lo <= toR c <= hi)%R) prices ->
  (lo <= toR (window_mean prices period k) <= hi)%R.
Proof.
  intros Hp Hb Hall. rewrite window_mean_simple_mean by exact Hb.
  apply simple_mean_bounds; [rewrite length_drop; lia|].
  apply Forall_drop, Hall.
Qed.

Lemma ema_multiplier_range (period : nat) :
  1 ≤ period -> (0 < toR (ema_multiplier period) <= 1)%R.
Proof.
  intros Hp. unfold ema_multiplier.
  assert (Hn : (1 <= INR period)%R) by (apply (le_INR 1); lia).
  rewrite toR_div; rewrite toR_add, toR_float64, !toR_fromZ; [|lra].
  split.
  - apply Rdiv_lt_0_compat; lra.
  - apply (Rmult_le_reg_r (INR period + 1)); [lra|].
    unfold Rdiv. rewrite Rmult_assoc, Rinv_l by lra. lra.
Qed.

Lemma calculateEMA_bounds (prices : list F) (period : nat) (lo hi : R) :
  1 ≤ period ->
  Forall (fun c => (lo <= toR c <= hi)%R) prices ->
  Forall (fun c => (lo <= toR c <= hi)%R) (calculateEMA prices period).
Proof.
  intros Hp Hall.
  destruct (decide (length prices < period)) as [Hshort|Hlong].
  { rewrite calculateEMA_short by exact Hshort. constructor. }
  assert (Hle : period ≤ length prices) by lia.
  pose proof (calculateEMA_length prices period Hle) as Hlen.
  destruct (calculateEMA_entries prices period Hle) as [Hseed Hrec].
  pose proof (ema_multiplier_range period Hp) as Hm.
  apply Forall_lookup. intros i.
  induction i as [|i IH]; intros x Hx.
  - rewrite Hseed in Hx. injection Hx as <-.
    apply simple_mean_bounds; [lia|exact Hall].
  - pose proof (lookup_lt_Some _ _ _ Hx) as Hi.
    rewrite Hrec in Hx by lia. injection Hx as <-.
    replace (i - 0) with i by lia.
    destruct (lookup_lt_is_Some_2 (calculateEMA prices period) i ltac:(lia)) as [e He].
    rewrite (list_lookup_total_correct _ _ _ He).
    specialize (IH e He).
    destruct (lookup_lt_is_Some_2 prices (period + S i - 1) ltac:(lia)) as [p Hpr].
    rewrite (list_lookup_total_correct _ _ _ Hpr).
    rewrite Forall_lookup in Hall. specialize (Hall _ _ Hpr). simpl in Hall.
    rewrite toR_add, !toR_mul, toR_sub, toR_fromZ.
    set (m := toR (ema_multiplier period)) in *. nra.
Qed.
End MovingAveragesExact.

Section BandsExact.
Context {F : Type} `{ExactMath F}.

Lemma window_std_nonneg (prices : list F) (period k : nat) :
  1 ≤ period -> (0 <= toR (window_std prices period k))%R.
Proof.
  intros Hp. unfold window_std.
  set (sumSquaredDiff := for_range _ _ _ _).
  assert (Hsum : (0 <= toR sumSquaredDiff)%R).
  { unfold sumSquaredDiff.
    apply (for_range_ind (fun _ acc => (0 <= toR acc)%R)); [lia| |].
    - rewrite toR_fromZ. lra.
    - intros i acc _ Hacc. simpl. rewrite toR_add, toR_mul.
      set (d := toR (_ - _)%f64). nra. }
  pose proof (period_pos period Hp) as Hpos.
  assert (Hvar : (0 <= toR (sumSquaredDiff / float64 period)%f64)%R).
  { rewrite toR_div by lra. apply Rmult_le_pos; [exact Hsum|].
    left. apply Rinv_0_lt_compat, Hpos. }
  rewrite toR_sqrt by exact Hvar. apply sqrt_pos.
Qed.

Lemma CalculateBollingerBands_order (bts : BTCTimeSeries F) (period : nat) (f : F) :
  1 ≤ period -> (0 <= toR f)%R ->
  let bands := CalculateBollingerBands bts period f in
  forall k u m l,
    Upper bands !! k = Some u -> Middle bands !! k = Some m ->
    Lower bands !! k = Some l ->
    (toR l <= toR m <= toR u)%R ∧ (toR u - toR m = toR m - toR l)%R.
Proof.
  intros Hp Hf. simpl. intros k u m l.
  destruct (decide (length (Data bts) < period)) as [Hshort|Hlong].
  { rewrite CalculateBollingerBands_short by exact Hshort. simpl. intros Hu. done. }
  rewrite CalculateBollingerBands_tabulate by lia. simpl.
  rewrite !list_lookup_fmap.
  destruct (seq 0 (length (Data bts) - period + 1) !! k) as [j|]; simpl; [|done].
  intros [= <-] [= <-] [= <-].
  pose proof (window_std_nonneg (GetClosePrices bts) period j Hp) as Hsd.
  rewrite toR_add, toR_sub, toR_mul. nra.
Qed.
End BandsExact.

(** ** CalculateStochasticOscillator *)

Section Stochastic.
Context {F : Type} `{Float64Ops F}.

Lemma CalculateStochasticOscillator_short (bts : BTCTimeSeries F) (kPeriod : nat) :
  length (Data bts) < kPeriod -> CalculateStochasticOscillator bts kPeriod = [].
Proof.
  intros Hlt. unfold CalculateStochasticOscillator. rewrite decide_True by lia. done.
Qed.

Lemma CalculateStochasticOscillator_tabulate (bts : BTCTimeSeries F) (kPeriod : nat) :
  kPeriod ≤ length (Data bts) ->
  CalculateStochasticOscillator bts kPeriod
  = stochastic_value (Data bts) kPeriod <$> seq 0 (length (Data bts) - kPeriod + 1).
Proof.
  intros Hle. unfold CalculateStochasticOscillator. rewrite decide_False by lia.
  rewrite <- (for_range_tabulate (stochastic_value (Data bts) kPeriod))
    with (init := replicate (length (Data bts) - kPeriod + 1) (fromZ 0))
    by apply length_replicate.
  apply for_range_ext. intros k st _. unfold stochastic_value.
  destruct (window_extremes (Data bts) k (k + kPeriod - 1)) as [hh ll].
  destruct (negb _); reflexivity.
Qed.
End Stochastic.

Section StochasticExact.
Context {F : Type} `{ExactArith F}.

(** The scan of a window leaves a high no bar of the window exceeds and
    a low no bar goes under. *)
Lemma window_extremes_bounds (data : list (BTCPrice F)) (start i : nat) :
  start ≤ i ->
  let '(highestHigh, lowestLow) := window_extremes data start i in
  forall j, start ≤ j ≤ i ->
    (toR (High (data !!! j)) <= toR highestHigh)%R
    ∧ (toR lowestLow <= toR (Low (data !!! j)))%R.
Proof.
  intros Hle. unfold window_extremes.
  set (body := fun (j : nat) (st : F * F) => _).
  pose (P := fun (hi : nat) (st : F * F) =>
    forall j, start ≤ j < hi ->
      (toR (High (data !!! j)) <= toR st.1)%R ∧ (toR st.2 <= toR (Low (data !!! j)))%R).
  assert (Hinv : P (i + 1) (for_range start (i + 1) body
                              (High (data !!! start), Low (data !!! start)))).
  { apply (for_range_ind P); unfold P; [lia| |].
    - intros j Hj. lia.
    - intros k [hh ll] Hk Hst j Hj. unfold body. simpl in *.
      assert (Hhh : (toR hh <= toR (if (hh <? High (data !!! k))%f64
                                    then High (data !!! k) else hh))%R
                    ∧ (toR (High (data !!! k))
                       <= toR (if (hh <? High (data !!! k))%f64
                               then High (data !!! k) else hh))%R).
      { destruct (hh <? High (data !!! k))%f64 eqn:E.
        - apply fltb_lt in E. lra.
        - apply fltb_ge in E. lra. }
      assert (Hll : (toR (if (Low (data !!! k) <? ll)%f64
                          then Low (data !!! k) else ll) <= toR ll)%R
                    ∧ (toR (if (Low (data !!! k) <? ll)%f64
                            then Low (data !!! k) else ll)
                       <= toR (Low (data !!! k)))%R).
      { destruct (Low (data !!! k) <? ll)%f64 eqn:E.
        - apply fltb_lt in E. lra.
        - apply fltb_ge in E. lra. }
      destruct (decide (j = k)) as [->|Hne]; [lra|].
      destruct (Hst j ltac:(lia)). lra. }
  destruct (for_range start (i + 1) body _) as [hh ll].
  intros j Hj. apply (Hinv j). lia.
Qed.

Lemma stochastic_value_range (data : list (BTCPrice F)) (kPeriod k : nat) :
  1 ≤ kPeriod ->
  (toR (Low (data !!! (k + kPeriod - 1)%nat))
   <= toR (Close (data !!! (k + kPeriod - 1)%nat))
   <= toR (High (data !!! (k + kPeriod - 1)%nat)))%R ->
  in_0_100 (stochastic_value data kPeriod k).
Proof.
  intros Hp Hbar. unfold stochastic_value, in_0_100.
  pose proof (window_extremes_bounds data k (k + kPeriod - 1) ltac:(lia)) as Hext.
  destruct (window_extremes data k (k + kPeriod - 1)) as [hh ll].
  destruct (Hext (k + kPeriod - 1) ltac:(lia)) as [Hhi Hlo].
  destruct (hh - ll =? fromZ 0)%f64 eqn:E; simpl.
  - rewrite toR_fromZ. lra.
  - apply feqb_neq in E.
    assert (Hnz : toR (hh - ll)%f64 <> 0%R) by (intros Hz; apply E, toR_eq_0, Hz).
    rewrite toR_mul, toR_div by exact Hnz.
    rewrite toR_sub in Hnz. rewrite !toR_sub, toR_fromZ.
    set (c := toR (Close _)) in *. set (h := toR hh) in *. set (l := toR ll) in *.
    assert (Hpos : (0 < h - l)%R) by lra.
    assert (Hr : (0 <= (c - l) / (h - l) <= 1)%R).
    { split.
      - apply Rmult_le_pos; [lra|]. left. apply Rinv_0_lt_compat, Hpos.
      - apply (Rmult_le_reg_r (h - l)); [exact Hpos|].
        unfold Rdiv. rewrite Rmult_assoc, Rinv_l by lra. lra. }
    lra.
Qed.
End StochasticExact.

(** ** package statistics *)

Section CalculateExact.
Context {F : Type} `{ExactArith F}.

Lemma ascending_float64_sorted (l : list F) :
  ascending float64_less l -> StronglySorted (fun a b => (toR a <= toR b)%R) l.
Proof.
  intros Hasc. apply Sorted_StronglySorted.
  - intros a b c Hab Hbc. lra.
  - induction l as [|a l IH]; [constructor|].
    constructor.
    + apply IH. destruct l; [exact I|apply Hasc].
    + destruct l as [|b l]; constructor.
      apply (ascending_exact a b l Hasc).
Qed.

Lemma sort_Float64s_sorted (l : list F) :
  StronglySorted (fun a b => (toR a <= toR b)%R) (sort_Float64s l).
Proof.
  apply ascending_float64_sorted, insertion_sort_ascending, float64_less_asym.
Qed.

Lemma sort_Float64s_elem (v : F) (values : list F) :
  v ∈ sort_Float64s values <-> v ∈ values.
Proof.
  unfold sort_Float64s. rewrite (insertion_sort_permutation float64_less values).
  reflexivity.
Qed.

(** The ends of a sorted slice hold every value between them. *)
Lemma sort_Float64s_ends (values : list F) :
  values ≠ [] ->
  let sorted := sort_Float64s values in
  sorted !!! 0 ∈ values ∧ sorted !!! (length values - 1) ∈ values
  ∧ forall i, i < length values ->
      sorted !!! i ∈ values
      ∧ (toR (sorted !!! 0%nat) <= toR (sorted !!! i)
         <= toR (sorted !!! (length values - 1)%nat))%R.
Proof.
  intros Hne. simpl.
  assert (Hlen : length (sort_Float64s values) = length values)
    by apply insertion_sort_length.
  assert (Hpos : 0 < length values) by (destruct values; [done|simpl; lia]).
  assert (Hin : forall i, i < length values -> sort_Float64s values !!! i ∈ values).
  { intros i Hi.
    apply sort_Float64s_elem, list_elem_of_lookup_total_2. lia. }
  split; [apply Hin; lia|]. split; [apply Hin; lia|].
  intros i Hi. split; [apply Hin, Hi|].
  pose proof (sort_Float64s_sorted values) as Hs.
  assert (Hl : forall k, k < length values ->
            sort_Float64s values !! k = Some (sort_Float64s values !!! k)).
  { intros k Hk. apply list_lookup_lookup_total_lt. lia. }
  assert (Hrefl : forall a : F, (toR a <= toR a)%R) by (intros a; lra).
  split.
  - apply (StronglySorted_lookup_le _ _ Hrefl Hs 0 i); [lia|apply Hl; lia..].
  - apply (StronglySorted_lookup_le _ _ Hrefl Hs i (length values - 1));
      [lia|apply Hl; lia..].
Qed.

(** The sum of squared differences from [mean], from the start value
    [acc]. *)
Lemma squared_diff_nonneg (values : list F) (mean acc : F) :
  (0 <= toR acc)%R ->
  (0 <= toR (fold_left (fun acc v => let diff := (v - mean)%f64 in
                                     (acc + diff * diff)%f64) values acc))%R.
Proof.
  revert acc. induction values as [|v l IH]; intros acc Hacc; [exact Hacc|].
  simpl. apply IH. rewrite toR_add, toR_mul. set (d := toR (_ - _)%f64). nra.
Qed.

Lemma squared_diff_zero (values : list F) (mean acc : F) :
  (0 <= toR acc)%R ->
  toR (fold_left (fun acc v => let diff := (v - mean)%f64 in
                               (acc + diff * diff)%f64) values acc) = 0%R
  <-> toR acc = 0%R ∧ Forall (fun v => v = mean) values.
Proof.
  revert acc. induction values as [|v l IH]; intros acc Hacc.
  - simpl. split; [intros Hz; split; [exact Hz|constructor]|tauto].
  - simpl. rewrite IH by (rewrite toR_add, toR_mul; set (d := toR (_ - _)%f64); nra).
    rewrite toR_add, toR_mul, toR_sub. rewrite Forall_cons.
    split.
    + intros [Hz Hall]. assert (toR v - toR mean = 0)%R by nra.
      split; [nra|]. split; [apply toR_inj; lra|exact Hall].
    + intros (Hz & -> & Hall). split; [rewrite Hz; lra|exact Hall].
Qed.
End CalculateExact.

Section CalculateMath.
Context {F : Type} `{ExactMath F}.

Lemma Calculate_summary (values : list F) :
  values ≠ [] ->
  let stats := Calculate values in
  Count stats = length values
  ∧ Min stats ∈ values ∧ Max stats ∈ values
  ∧ (forall v, v ∈ values -> (toR (Min stats) <= toR v <= toR (Max stats))%R)
  ∧ (toR (Min stats) <= toR (Mean stats) <= toR (Max stats))%R
  ∧ (toR (Min stats) <= toR (Median stats) <= toR (Max stats))%R
  ∧ (0 <= toR (Variance stats))%R
  ∧ toR (StdDev stats) = R_sqrt.sqrt (toR (Variance stats)).
Proof.
  intros Hne. simpl. unfold Calculate.
  assert (Hpos : 0 < length values) by (destruct values; [done|simpl; lia]).
  rewrite decide_False by lia. cbn [Count Mean Median StdDev Min Max Variance].
  destruct (sort_Float64s_ends values Hne) as (Hmin & Hmax & Hall).
  cbv zeta in Hall.
  set (sorted := sort_Float64s values) in *.
  set (n := length values) in *.
  assert (Hrange : forall v, v ∈ values ->
            (toR (sorted !!! 0%nat) <= toR v <= toR (sorted !!! (n - 1)%nat))%R).
  { intros v Hv.
    apply sort_Float64s_elem, list_elem_of_lookup_total_1 in Hv.
    destruct Hv as (i & Hi & <-).
    apply Hall. unfold sort_Float64s in Hi. rewrite insertion_sort_length in Hi.
    exact Hi. }
  assert (Hn : (0 < toR (float64 n))%R) by (apply period_pos; lia).
  assert (Hvar : (0 <= toR (fold_left
                     (fun acc v => let diff := (v - sum_range values / float64 n)%f64 in
                                   (acc + diff * diff)%f64) values (fromZ 0)
                   / float64 n)%f64)%R).
  { rewrite toR_div by lra. apply Rmult_le_pos.
    - apply squared_diff_nonneg. rewrite toR_fromZ. lra.
    - left. apply Rinv_0_lt_compat, Hn. }
  split; [reflexivity|]. split; [exact Hmin|]. split; [exact Hmax|].
  split; [exact Hrange|]. split; [|split; [|split; [exact Hvar|]]].
  - apply (cluster_mean_bounds values); [lia|].
    apply Forall_forall. exact Hrange.
  - destruct (decide (n mod 2 = 0)) as [Heven|Hodd].
    + assert (Hhalf : n / 2 - 1 < n ∧ n / 2 < n).
      { pose proof (Nat.div_mod_eq n 2). lia. }
      destruct (Hall (n / 2 - 1) ltac:(lia)) as [_ Ha].
      destruct (Hall (n / 2) ltac:(lia)) as [_ Hb].
      rewrite toR_div by (rewrite toR_fromZ; lra).
      rewrite toR_add, toR_fromZ. lra.
    + apply Hall. apply Nat.div_lt; lia.
  - apply toR_sqrt, Hvar.
Qed.

(** The standard deviation is zero exactly when all values are equal. *)
Lemma Calculate_StdDev_zero (values : list F) :
  values ≠ [] ->
  StdDev (Calculate values) = fromZ 0
  <-> exists c, Forall (fun v => v = c) values.
Proof.
  intros Hne.
  destruct (Calculate_summary values Hne) as (_ & _ & _ & _ & _ & _ & Hvar & Hsd).
  cbv zeta in Hvar, Hsd.
  rewrite <- toR_eq_0, Hsd.
  assert (Hpos : 0 < length values) by (destruct values; [done|simpl; lia]).
  assert (Hn : (0 < toR (float64 (length values)))%R) by (apply period_pos; lia).
  assert (Hiff : R_sqrt.sqrt (toR (Variance (Calculate values))) = 0%R
                 <-> toR (Variance (Calculate values)) = 0%R).
  { split; [intros Hz; apply sqrt_eq_0; assumption|intros ->; apply sqrt_0]. }
  rewrite Hiff. clear Hiff Hsd Hvar.
  unfold Calculate. rewrite decide_False by lia.
  cbn [Count Mean Median StdDev Min Max Variance].
  rewrite toR_div by lra.
  set (mean := (sum_range values / float64 (length values))%f64).
  set (ss := fold_left _ values (fromZ 0)).
  assert (Hss : (0 <= toR ss)%R)
    by (apply squared_diff_nonneg; rewrite toR_fromZ; lra).
  assert (Hz : (toR ss / toR (float64 (length values)) = 0 <-> toR ss = 0)%R).
  { split; [|intros ->; unfold Rdiv; lra].
    intros Hq. apply (Rmult_eq_reg_r (/ toR (float64 (length values)))).
    - unfold Rdiv in Hq. lra.
    - apply Rinv_neq_0_compat. lra. }
  rewrite Hz. unfold ss. rewrite squared_diff_zero by (rewrite toR_fromZ; lra).
  rewrite toR_fromZ. split.
  - intros [_ Hall]. exists mean. exact Hall.
  - intros [c Hall]. split; [reflexivity|].
    assert (Hmean : mean = c).
    { apply toR_inj.
      assert (Hb : Forall (fun v => (toR c <= toR v <= toR c)%R) values).
      { eapply Forall_impl; [exact Hall|]. intros v ->. simpl. lra. }
      pose proof (cluster_mean_bounds values _ _ Hpos Hb) as Hcm.
      unfold cluster_mean in Hcm. fold mean in Hcm. lra. }
    rewrite Hmean. exact Hall.
Qed.
End CalculateMath.

Section ReturnsProps.
Context {F : Type} `{Float64Ops F}.

Lemma CalculateReturns_short (bts : BTCTimeSeries F) :
  length (Data bts) < 2 -> CalculateReturns bts = [].
Proof. intros Hlt. unfold CalculateReturns. rewrite decide_True by lia. done. Qed.

Lemma CalculateReturns_tabulate (bts : BTCTimeSeries F) :
  2 ≤ length (Data bts) ->
  CalculateReturns bts = return_at (Data bts) <$> seq 0 (length (Data bts) - 1).
Proof.
  intros Hle. unfold CalculateReturns. rewrite decide_False by lia.
  set (n := length (Data bts)) in *.
  set (body := fun (i : nat) (returns : list F) => _).
  pose (P := fun (hi : nat) (r : list F) =>
    length r = n - 1
    ∧ forall k, k < n - 1 ->
        r !! k = Some (if decide (k + 1 < hi) then return_at (Data bts) k else fromZ 0)).
  assert (Hinv : P n (for_range 1 n body (replicate (n - 1) (fromZ 0)))).
  { apply (for_range_ind P); unfold P; [lia| |].
    - split; [apply length_replicate|]. intros k Hk.
      rewrite decide_False by lia. apply lookup_replicate_2, Hk.
    - intros i r Hi [Hl Hr]. unfold body.
      split; [destruct (_ <? _)%f64; [rewrite length_insert|]; exact Hl|].
      intros k Hk. destruct (decide (k = i - 1)) as [->|Hne].
      + rewrite decide_True by lia. unfold return_at.
        replace (i - 1 + 1) with i by lia.
        destruct (fromZ 0 <? Close (Data bts !!! (i - 1)%nat))%f64.
        * apply list_lookup_insert_eq. lia.
        * rewrite Hr by lia. rewrite decide_False by lia. reflexivity.
      + assert (Hsame : (if (fromZ 0 <? Close (Data bts !!! (i - 1)%nat))%f64
                         then <[i - 1 := ((Close (Data bts !!! i)
                                           - Close (Data bts !!! (i - 1)%nat))
                                          / Close (Data bts !!! (i - 1)%nat))%f64]> r
                         else r) !! k = r !! k).
        { destruct (_ <? _)%f64; [apply list_lookup_insert_ne; lia|reflexivity]. }
        rewrite Hsame, Hr by lia.
        destruct (decide (k + 1 < i)), (decide (k + 1 < S i)); try lia; reflexivity. }
  destruct Hinv as [Hl Hr]. apply list_eq. intros k.
  destruct (decide (k < n - 1)) as [Hk|Hk].
  - rewrite Hr by exact Hk. rewrite decide_True by lia.
    rewrite list_lookup_fmap, lookup_seq_lt by exact Hk. reflexivity.
  - rewrite !lookup_ge_None_2; [reflexivity| |lia].
    rewrite length_fmap, length_seq. lia.
Qed.
End ReturnsProps.

Section ReturnsExact.
Context {F : Type} `{ExactArith F}.

Lemma return_at_growth (data : list (BTCPrice F)) (k : nat) :
  (0 < toR (Close (data !!! k)))%R ->
  (toR (Close (data !!! (k + 1)%nat))
   = toR (Close (data !!! k)) * (1 + toR (return_at data k)))%R.
Proof.
  intros Hpos. unfold return_at.
  assert (Hgt : (fromZ 0 <? Close (data !!! k))%f64 = true)
    by (apply fltb_lt; rewrite toR_fromZ; exact Hpos).
  rewrite Hgt. rewrite toR_div by lra. rewrite toR_sub. field. lra.
Qed.

Lemma compound_app (l1 l2 : list F) :
  compound (l1 ++ l2) = (compound l1 * compound l2)%R.
Proof.
  unfold compound. induction l1 as [|r l1 IH]; simpl; [lra|].
  rewrite IH. lra.
Qed.

(** The returns compound to the growth from the first close. *)
Lemma compound_returns (data : list (BTCPrice F)) (m : nat) :
  m < length data ->
  Forall (fun bar => (0 < toR (Close bar))%R) data ->
  (toR (Close (data !!! m))
   = toR (Close (data !!! 0%nat)) * compound (return_at data <$> seq 0 m))%R.
Proof.
  intros Hm Hpos. induction m as [|m IH].
  - unfold compound. simpl. lra.
  - rewrite seq_S, fmap_app, compound_app. simpl.
    replace (S m) with (m + 1) by lia.
    rewrite return_at_growth.
    + rewrite IH by lia. lra.
    + rewrite Forall_forall in Hpos. apply Hpos.
      apply list_elem_of_lookup_total_2. lia.
Qed.
End ReturnsExact.

Section DrawdownRange.
Context {F : Type} `{ExactArith F}.

(** The loop of [CalculateMaxDrawdown] keeps a peak above 0 and a
    drawdown below 1. *)
Lemma drawdown_loop_range (l : list F) (peak maxDrawdown : F) :
  (0 < toR peak)%R -> (0 <= toR maxDrawdown < 1)%R ->
  Forall (fun p => (0 < toR p)%R) l ->
  let st := fold_left drawdown_step l (peak, maxDrawdown) in
  (0 < toR st.1)%R ∧ (0 <= toR st.2 < 1)%R.
Proof.
  revert peak maxDrawdown.
  induction l as [|p l IH]; intros peak m Hpeak Hm Hall; [done|].
  apply Forall_cons in Hall as [Hp Hl]. cbn [fold_left].
  unfold drawdown_step at 2.
  set (peak' := if (peak <? p)%f64 then p else peak).
  assert (Hpeak' : (toR p <= toR peak')%R ∧ (0 < toR peak')%R).
  { unfold peak'. destruct (peak <? p)%f64 eqn:E; [lra|].
    apply fltb_ge in E. lra. }
  set (dd := ((peak' - p) / peak')%f64).
  assert (Hdd : (0 <= toR dd < 1)%R).
  { unfold dd. rewrite toR_div by lra. rewrite toR_sub. split.
    - apply Rmult_le_pos; [lra|]. left. apply Rinv_0_lt_compat. lra.
    - apply (Rmult_lt_reg_r (toR peak')); [lra|].
      unfold Rdiv. rewrite Rmult_assoc, Rinv_l by lra. lra. }
  apply IH; [lra| |exact Hl].
  destruct (m <? dd)%f64; [exact Hdd|exact Hm].
Qed.
End DrawdownRange.

Section VolatilityExact.
Context {F : Type} `{ExactMath F}.

Lemma fsqrt_float64_pos (n : nat) : 1 ≤ n -> (0 < toR (fsqrt (float64 n)))%R.
Proof.
  intros Hn. pose proof (period_pos n Hn) as Hpos.
  rewrite toR_sqrt by lra. apply sqrt_lt_R0, Hpos.
Qed.

Lemma StdDev_nonneg (values : list F) : (0 <= toR (StdDev (Calculate values)))%R.
Proof.
  destruct values as [|v l].
  - unfold Calculate. simpl. rewrite toR_fromZ. lra.
  - destruct (Calculate_summary (v :: l) ltac:(done)) as (_ & _ & _ & _ & _ & _ & _ & Hsd).
    cbv zeta in Hsd. rewrite Hsd. apply sqrt_pos.
Qed.

Lemma CalculateVolatility_zero (returns : list F) (periodsPerYear : nat) :
  1 ≤ periodsPerYear ->
  (0 <= toR (CalculateVolatility returns periodsPerYear))%R
  ∧ (CalculateVolatility returns periodsPerYear = fromZ 0
     <-> exists c, Forall (fun r => r = c) returns).
Proof.
  intros Hp. unfold CalculateVolatility.
  destruct (decide (length returns = 0)) as [Hz|Hnz].
  { apply length_zero_iff_nil in Hz. subst returns. rewrite toR_fromZ.
    split; [lra|]. split; [intros _; exists (fromZ 0); constructor|reflexivity]. }
  assert (Hne : returns ≠ []) by (intros ->; done).
  pose proof (fsqrt_float64_pos periodsPerYear Hp) as Hsq.
  pose proof (StdDev_nonneg returns) as Hsd.
  split.
  - rewrite toR_mul. apply Rmult_le_pos; lra.
  - rewrite <- (Calculate_StdDev_zero returns Hne), <- !toR_eq_0, toR_mul.
    split; [intros Hz|intros ->; lra].
    apply Rmult_integral in Hz. destruct Hz as [Hz|Hz]; [exact Hz|lra].
Qed.

Lemma CalculateSharpeRatio_value (returns : list F) (riskFreeRate : F)
    (periodsPerYear : nat) :
  1 ≤ periodsPerYear ->
  ((exists c, Forall (fun r => r = c) returns) ->
   CalculateSharpeRatio returns riskFreeRate periodsPerYear = fromZ 0)
  ∧ (~ (exists c, Forall (fun r => r = c) returns) ->
     (0 < toR (StdDev (Calculate returns)))%R
     ∧ toR (CalculateSharpeRatio returns riskFreeRate periodsPerYear)
       = ((toR (Mean (Calculate returns)) * INR periodsPerYear - toR riskFreeRate)
          / (toR (StdDev (Calculate returns)) * R_sqrt.sqrt (INR periodsPerYear)))%R).
Proof.
  intros Hp. unfold CalculateSharpeRatio.
  destruct (decide (length returns = 0)) as [Hz|Hnz].
  { apply length_zero_iff_nil in Hz. subst returns.
    split; [reflexivity|]. intros Hno. exfalso. apply Hno.
    exists (fromZ 0). constructor. }
  assert (Hne : returns ≠ []) by (intros ->; done).
  pose proof (Calculate_StdDev_zero returns Hne) as Hzero.
  pose proof (fsqrt_float64_pos periodsPerYear Hp) as Hsq.
  pose proof (StdDev_nonneg returns) as Hsd.
  split.
  - intros Hc. apply Hzero in Hc. rewrite Hc, feqb_refl. reflexivity.
  - intros Hno.
    assert (Hnz' : StdDev (Calculate returns) <> fromZ 0) by (intros Hc; apply Hno, Hzero, Hc).
    assert (Hpos : (0 < toR (StdDev (Calculate returns)))%R).
    { destruct (Rle_lt_or_eq_dec _ _ Hsd) as [Hlt|Heq]; [exact Hlt|].
      exfalso. apply Hnz', toR_eq_0. symmetry. exact Heq. }
    split; [exact Hpos|].
    apply feqb_neq in Hnz'. rewrite Hnz'.
    assert (Hden : (0 < toR (StdDev (Calculate returns) * fsqrt (float64 periodsPerYear))%f64)%R)
      by (rewrite toR_mul; apply Rmult_lt_0_compat; lra).
    rewrite toR_div by lra.
    rewrite toR_sub, !toR_mul, toR_float64.
    rewrite (toR_sqrt (float64 periodsPerYear))
      by (rewrite toR_float64; apply pos_INR).
    rewrite toR_float64. reflexivity.
Qed.
End VolatilityExact.

(** Membership of a name in a list of names. *)
Ltac in_list := repeat first [apply list_elem_of_here | apply list_elem_of_further].
Ltac not_in_list H := rewrite ?elem_of_cons, elem_of_nil in H; intuition discriminate.

Section RiskKeys.
Context {F : Type} `{Float64Ops F} `{Float64Math F}.

Lemma GetRiskMetrics_entries (bts : BTCTimeSeries F) :
  30 ≤ length (Data bts) ->
  let returns := CalculateReturns bts in
  let metrics := GetRiskMetrics bts in
  let var_95 := (Mean (Calculate returns)
                 - lit 1645 1000 * StdDev (Calculate returns))%f64 in
  metrics !! "volatility_annual" = Some (CalculateVolatility returns 365)
  ∧ metrics !! "max_drawdown" = Some (CalculateMaxDrawdown bts)
  ∧ metrics !! "sharpe_ratio" = Some (CalculateSharpeRatio returns (fromZ 0) 365)
  ∧ metrics !! "var_95" = Some var_95
  ∧ metrics !! "var_95_annual" = Some (var_95 * fsqrt (fromZ 365))%f64
  ∧ metrics !! "beta_estimate"
    = Some (CalculateVolatility returns 365 / lit 16 100)%f64
  ∧ forall key, is_Some (metrics !! key) ->
      key ∈ ["volatility_annual"; "max_drawdown"; "sharpe_ratio"; "var_95";
             "var_95_annual"; "cvar_95"; "sortino_ratio"; "beta_estimate"].
Proof.
  intros Hle. simpl. unfold GetRiskMetrics.
  rewrite decide_False by lia.
  pose proof (CalculateReturns_length bts ltac:(lia)) as Hlen.
  rewrite decide_False by lia.
  destruct (decide (_ < _)%Z); destruct (decide (0 < _));
    try destruct (fromZ 0 <? _ * fsqrt (fromZ 365))%f64;
    (repeat split; [simplify_map_eq; reflexivity..|]);
    intros key [v Hv];
    repeat (rewrite lookup_insert in Hv; destruct (decide (_ = key)) as [<-|];
            [in_list|]);
    rewrite lookup_empty in Hv; discriminate.
Qed.
End RiskKeys.

(** ** PerformBacktest and CalculatePortfolioMetrics *)

Section BacktestProps.
Context {F : Type} `{Float64Ops F} `{Float64Pow F}.

Lemma PerformBacktest_short (bts : BTCTimeSeries F) (startAmount : F) :
  length (Data bts) < 2 -> PerformBacktest bts startAmount = (∅, bts).
Proof. intros Hlt. unfold PerformBacktest. rewrite decide_True by lia. done. Qed.

Lemma PerformBacktest_sorted (bts : BTCTimeSeries F) (startAmount : F) :
  2 ≤ length (Data bts) -> (PerformBacktest bts startAmount).2 = Sort bts.
Proof. intros Hle. unfold PerformBacktest. rewrite decide_False by lia. done. Qed.

Lemma PerformBacktest_entries (bts : BTCTimeSeries F) (startAmount : F) :
  2 ≤ length (Data bts) ->
  let results := (PerformBacktest bts startAmount).1 in
  let first := Data (Sort bts) !!! 0 in
  let last := Data (Sort bts) !!! (length (Data (Sort bts)) - 1) in
  let endValue := (startAmount / Close first * Close last)%f64 in
  results !! "start_amount" = Some startAmount
  ∧ results !! "start_price" = Some (Close first)
  ∧ results !! "end_price" = Some (Close last)
  ∧ results !! "btc_purchased" = Some (startAmount / Close first)%f64
  ∧ results !! "end_value" = Some endValue
  ∧ results !! "total_return" = Some ((endValue - startAmount) / startAmount)%f64
  ∧ results !! "days_held"
    = Some (Hours (Sub (Timestamp last) (Timestamp first)) / fromZ 24)%f64
  ∧ forall key, is_Some (results !! key) ->
      key ∈ ["start_amount"; "end_value"; "total_return"; "annualized_return";
             "btc_purchased"; "days_held"; "start_price"; "end_price"].
Proof.
  intros Hle. unfold PerformBacktest. rewrite decide_False by lia.
  cbn [fst]. repeat split; [simplify_map_eq; reflexivity..|].
  intros key [v Hv].
  repeat (rewrite lookup_insert in Hv; destruct (decide (_ = key)) as [<-|];
          [in_list|]).
  rewrite lookup_empty in Hv. discriminate.
Qed.
End BacktestProps.

(** [Time.Sub] is the difference where it fits a [Duration] and the
    nearest end of [int64] where it does not. *)
Lemma Sub_fits (t u : Z) :
  (minDuration <= t - u <= maxDuration)%Z -> Sub t u = (t - u)%Z.
Proof.
  intros [Hlo Hhi]. unfold Sub.
  destruct (Z.ltb_spec (t - u) minDuration); [lia|].
  destruct (Z.ltb_spec maxDuration (t - u)); [lia|reflexivity].
Qed.

Lemma Sub_saturates (t u : Z) :
  (maxDuration < t - u)%Z -> Sub t u = maxDuration.
Proof.
  intros Hhi. unfold Sub.
  assert (minDuration < maxDuration)%Z by reflexivity.
  destruct (Z.ltb_spec (t - u) minDuration); [lia|].
  destruct (Z.ltb_spec maxDuration (t - u)); [reflexivity|lia].
Qed.

Section BacktestExact.
Context {F : Type} `{ExactArith F} `{!Float64Pow F}.

(** [Duration.Hours] loses nothing in exact arithmetic. *)
Lemma Hours_exact (d : Z) : toR (Hours d) = (IZR d / IZR hour_ns)%R.
Proof.
  unfold Hours.
  assert (Hh : IZR hour_ns <> 0%R) by (apply not_0_IZR; discriminate).
  rewrite toR_add, toR_div by (rewrite toR_fromZ; exact Hh).
  rewrite !toR_fromZ.
  rewrite (Z.quot_rem' d hour_ns) at 3.
  rewrite plus_IZR, mult_IZR. field. exact Hh.
Qed.

Lemma PerformBacktest_growth (bts : BTCTimeSeries F) (startAmount : F) :
  2 ≤ length (Data bts) ->
  toR startAmount <> 0%R ->
  Forall (fun bar => (0 < toR (Close bar))%R) (Data bts) ->
  let results := (PerformBacktest bts startAmount).1 in
  let sorted := (PerformBacktest bts startAmount).2 in
  let first := Data sorted !!! 0 in
  let last := Data sorted !!! (length (Data sorted) - 1) in
  sorted = Sort bts
  ∧ first ∈ Data bts ∧ last ∈ Data bts
  ∧ (forall p, p ∈ Data bts -> (Timestamp first <= Timestamp p <= Timestamp last)%Z)
  ∧ exists total endValue,
      results !! "total_return" = Some total
      ∧ results !! "end_value" = Some endValue
      ∧ (1 + toR total = toR (Close last) / toR (Close first))%R
      ∧ (1 + toR total)%R = compound (CalculateReturns sorted)
      ∧ (toR endValue = toR startAmount * (1 + toR total))%R
      ∧ exists days,
          results !! "days_held" = Some days
          ∧ ((Timestamp last - Timestamp first <= maxDuration)%Z ->
             toR days = (IZR (Timestamp last - Timestamp first) / IZR day_ns)%R)
          ∧ ((maxDuration < Timestamp last - Timestamp first)%Z ->
             toR days = (IZR maxDuration / IZR day_ns)%R).
Proof.
  intros Hle Hamount Hpos. cbv zeta.
  rewrite PerformBacktest_sorted by exact Hle.
  assert (Hne : Data bts ≠ []) by (intros Hnil; rewrite Hnil in Hle; simpl in Hle; lia).
  destruct (Sort_ends bts Hne) as (Hfirst & Hlast & Hall). cbv zeta in Hfirst, Hlast, Hall.
  split; [reflexivity|]. split; [exact Hfirst|]. split; [exact Hlast|].
  split; [exact Hall|].
  destruct (PerformBacktest_entries bts startAmount Hle)
    as (_ & _ & _ & _ & Hev & Htr & Hdays & _). cbv zeta in Hev, Htr, Hdays.
  eexists _, _. split; [exact Htr|]. split; [exact Hev|].
  assert (Hsorted : Forall (fun bar => (0 < toR (Close bar))%R) (Data (Sort bts))).
  { apply Forall_forall. intros p Hp. rewrite Forall_forall in Hpos.
    apply Hpos, Sort_elem, Hp. }
  pose proof (Sort_length bts) as Hlen.
  assert (Hf : (0 < toR (Close (Data (Sort bts) !!! 0%nat)))%R).
  { rewrite Forall_forall in Hsorted. apply Hsorted, list_elem_of_lookup_total_2. lia. }
  set (first := Data (Sort bts) !!! 0) in *.
  set (last := Data (Sort bts) !!! (length (Data (Sort bts)) - 1)) in *.
  assert (Hgrowth : (1 + toR ((startAmount / Close first * Close last - startAmount)
                              / startAmount)%f64
                     = toR (Close last) / toR (Close first))%R).
  { rewrite toR_div by exact Hamount.
    rewrite toR_sub, toR_mul, toR_div by lra. field. lra. }
  split; [exact Hgrowth|]. split.
  - rewrite Hgrowth. rewrite CalculateReturns_tabulate by lia.
    unfold last. rewrite (compound_returns (Data (Sort bts)) (length (Data (Sort bts)) - 1))
      by (first [lia|exact Hsorted]).
    fold first. field. lra.
  - split; [rewrite Hgrowth; rewrite toR_mul, toR_div by lra; field; lra|].
    eexists. split; [exact Hdays|].
    assert (Hd : forall d : Z,
               toR (Hours d / fromZ 24)%f64 = (IZR d / IZR day_ns)%R).
    { intros d. rewrite toR_div by (rewrite toR_fromZ; lra).
      rewrite Hours_exact, toR_fromZ.
      change day_ns with (hour_ns * 24)%Z. rewrite mult_IZR.
      field; repeat split; first [lra|apply not_0_IZR; discriminate]. }
    assert (Hspan : (0 <= Timestamp last - Timestamp first)%Z).
    { specialize (Hall first Hfirst). lia. }
    assert (minDuration < 0)%Z by reflexivity.
    split; intros Hfit; rewrite Hd.
    + rewrite Sub_fits by lia. reflexivity.
    + rewrite Sub_saturates by exact Hfit. reflexivity.
Qed.
End BacktestExact.

Section PortfolioProps.
Context {F : Type} `{Float64Ops F} `{Float64Math F} `{Float64Pow F}.

Lemma risk_key_not_backtest (bts : BTCTimeSeries F) (startAmount : F) (key : string) :
  2 ≤ length (Data bts) ->
  is_Some ((PerformBacktest bts startAmount).1 !! key) ->
  GetRiskMetrics (Sort bts) !! key = None ∧ key ≠ "information_ratio".
Proof.
  intros Hle Hkey.
  destruct (PerformBacktest_entries bts startAmount Hle)
    as (_ & _ & _ & _ & _ & _ & _ & Hdom).
  specialize (Hdom key Hkey).
  split; [|intros ->; not_in_list Hdom].
  destruct (decide (length (Data (Sort bts)) < 30)) as [Hshort|Hlong].
  { rewrite GetRiskMetrics_short by exact Hshort. apply lookup_empty. }
  destruct (GetRiskMetrics_entries (Sort bts) ltac:(lia)) as (_ & _ & _ & _ & _ & _ & Hrisk).
  destruct (GetRiskMetrics (Sort bts) !! key) eqn:E; [|reflexivity].
  specialize (Hrisk key ltac:(eauto)). exfalso.
  repeat (apply elem_of_cons in Hdom as [->|Hdom]; [not_in_list Hrisk|]).
  inversion Hdom.
Qed.

Lemma CalculatePortfolioMetrics_parts (bts : BTCTimeSeries F) (initialInvestment : F) :
  let metrics := (CalculatePortfolioMetrics bts initialInvestment).1 in
  let backtest := (PerformBacktest bts initialInvestment).1 in
  let riskMetrics := GetRiskMetrics (Sort bts) in
  (forall key v, backtest !! key = Some v -> metrics !! key = Some v)
  ∧ (forall key v, riskMetrics !! key = Some v -> metrics !! key = Some v)
  ∧ (forall key, is_Some (metrics !! key) ->
       is_Some (backtest !! key) ∨ is_Some (riskMetrics !! key)
       ∨ key = "information_ratio")
  ∧ (length (Data bts) < 30 -> metrics = backtest)
  ∧ (metrics !! "information_ratio"
     = match riskMetrics !! "volatility_annual", backtest !! "annualized_return" with
       | Some volatility, Some annualized =>
           if (volatility >? fromZ 0)%f64 then Some (annualized / volatility)%f64
           else None
       | _, _ => None
       end).
Proof.
  cbv zeta. unfold CalculatePortfolioMetrics.
  destruct (decide (length (Data bts) < 2)) as [Hshort|Hlong].
  { rewrite PerformBacktest_short by exact Hshort. cbn [fst].
    rewrite GetRiskMetrics_short by (rewrite Sort_length; lia).
    rewrite !lookup_empty. repeat split; try done.
    intros key Hk. left. exact Hk. }
  assert (Hle : 2 ≤ length (Data bts)) by lia.
  pose proof (PerformBacktest_sorted bts initialInvestment Hle) as Hsorted.
  pose proof (fun key => risk_key_not_backtest bts initialInvestment key Hle) as Hdisj.
  destruct (PerformBacktest bts initialInvestment) as [backtest bts'] eqn:Hbt.
  cbn [fst snd] in *. subst bts'.
  rewrite (right_id_L ∅ (∪) backtest).
  set (risk := GetRiskMetrics (Sort bts)) in *.
  assert (Hunion : forall key, (risk ∪ backtest) !! key
                     = match risk !! key with Some v => Some v | None => backtest !! key end).
  { intros key. rewrite lookup_union. destruct (risk !! key), (backtest !! key); done. }
  assert (Hinfo : (risk ∪ backtest) !! "information_ratio" = None).
  { rewrite Hunion.
    destruct (decide (length (Data (Sort bts)) < 30)) as [Hs|Hl].
    - unfold risk. rewrite GetRiskMetrics_short by exact Hs. rewrite lookup_empty.
      destruct (backtest !! "information_ratio") eqn:E; [|reflexivity].
      destruct (Hdisj "information_ratio" ltac:(eauto)) as [_ Hne]. done.
    - destruct (GetRiskMetrics_entries (Sort bts) ltac:(lia))
        as (_ & _ & _ & _ & _ & _ & Hrisk).
      fold risk in Hrisk.
      destruct (risk !! "information_ratio") eqn:E.
      + specialize (Hrisk _ ltac:(eauto)). not_in_list Hrisk.
      + destruct (backtest !! "information_ratio") eqn:E'; [|reflexivity].
        destruct (Hdisj "information_ratio" ltac:(eauto)) as [_ Hne]. done. }
  set (final := match risk !! "volatility_annual" with Some _ => _ | None => _ end).
  assert (Hfinal : forall key, key ≠ "information_ratio" ->
                     final !! key = (risk ∪ backtest) !! key).
  { intros key Hne. unfold final.
    destruct (risk !! "volatility_annual"); [|reflexivity].
    destruct (_ <? _)%f64; [|reflexivity].
    destruct (backtest !! "annualized_return"); [|reflexivity].
    apply lookup_insert_ne. congruence. }
  split; [|split; [|split; [|split]]].
  - intros key v Hv. destruct (Hdisj key ltac:(eauto)) as [Hnone Hne].
    rewrite Hfinal, Hunion, Hnone by exact Hne. exact Hv.
  - intros key v Hv.
    assert (Hne : key ≠ "information_ratio").
    { intros ->. rewrite Hunion, Hv in Hinfo. discriminate. }
    rewrite Hfinal, Hunion, Hv by exact Hne. reflexivity.
  - intros key Hk. destruct (decide (key = "information_ratio")) as [->|Hne];
      [right; right; reflexivity|].
    rewrite Hfinal, Hunion in Hk by exact Hne.
    destruct (risk !! key); [right; left; eauto|left; exact Hk].
  - intros Hshort. unfold final, risk.
    rewrite GetRiskMetrics_short by (rewrite Sort_length; exact Hshort).
    rewrite lookup_empty. apply (left_id_L ∅ (∪)).
  - unfold final. destruct (risk !! "volatility_annual"); [|exact Hinfo].
    destruct (_ <? _)%f64; [|destruct (backtest !! "annualized_return"); exact Hinfo].
    destruct (backtest !! "annualized_return"); [|exact Hinfo].
    apply lookup_insert_eq.
Qed.
End PortfolioProps.

(** ** CalculateCorrelation *)

Section CorrelationProps.
Context {F : Type} `{ExactArith F} `{!Float64Math F}.

Lemma fmul_comm (a b : F) : (a * b)%f64 = (b * a)%f64.
Proof. apply toR_inj. rewrite !toR_mul. ring. Qed.

(** Exchanging the two series exchanges the sums. *)
Lemma correlation_sums_swap (x y : list F) :
  length x = length y ->
  correlation_sums y x
  = (let '(sumX, sumY, sumXY, sumX2, sumY2) := correlation_sums x y in
     (sumY, sumX, sumXY, sumY2, sumX2)).
Proof.
  intros Hlen. unfold correlation_sums. rewrite <- Hlen.
  set (byx := fun (i : nat) (st : F * F * F * F * F) => _).
  set (bxy := fun (i : nat) (st : F * F * F * F * F) => _).
  set (init := (fromZ 0, fromZ 0, fromZ 0, fromZ 0, fromZ 0)).
  pose (P := fun (hi : nat) (st : F * F * F * F * F) =>
    for_range 0 hi byx init
    = (let '(sumX, sumY, sumXY, sumX2, sumY2) := st in
       (sumY, sumX, sumXY, sumY2, sumX2))).
  apply (for_range_ind P); unfold P; [lia| |].
  - rewrite for_range_empty by lia. reflexivity.
  - intros i [[[[sx sy] sxy] sxx] syy] Hi Hst.
    rewrite for_range_snoc by lia. rewrite Hst. unfold bxy, byx.
    rewrite (fmul_comm (y !!! i) (x !!! i)). reflexivity.
Qed.

Lemma CalculateCorrelation_comm (x y : list F) :
  CalculateCorrelation x y = CalculateCorrelation y x.
Proof.
  unfold CalculateCorrelation.
  destruct (decide (length x ≠ length y ∨ length x = 0)) as [Hbad|Hok].
  { rewrite decide_True by lia. reflexivity. }
  rewrite decide_False by lia.
  assert (Hlen : length x = length y) by lia.
  rewrite (correlation_sums_swap x y Hlen), <- Hlen.
  destruct (correlation_sums x y) as [[[[sx sy] sxy] sxx] syy].
  set (n := float64 (length x)).
  replace (n * sxy - sy * sx)%f64 with (n * sxy - sx * sy)%f64
    by (apply toR_inj; rewrite !toR_sub, !toR_mul; ring).
  replace ((n * syy - sy * sy) * (n * sxx - sx * sx))%f64
    with ((n * sxx - sx * sx) * (n * syy - sy * sy))%f64
    by apply fmul_comm.
  reflexivity.
Qed.

(** The sums as a quadratic form: the sum of the squares of
    [s*x[i] + t*y[i] + u] is not negative. *)
Lemma correlation_sums_form (x y : list F) :
  let '(sumX, sumY, sumXY, sumX2, sumY2) := correlation_sums x y in
  forall s t u : R,
    (0 <= s * s * toR sumX2 + t * t * toR sumY2 + INR (length x) * (u * u)
          + 2 * s * t * toR sumXY + 2 * s * u * toR sumX + 2 * t * u * toR sumY)%R.
Proof.
  unfold correlation_sums.
  set (body := fun (i : nat) (st : F * F * F * F * F) => _).
  pose (P := fun (hi : nat) (st : F * F * F * F * F) =>
    let '(sumX, sumY, sumXY, sumX2, sumY2) := st in
    forall s t u : R,
      (0 <= s * s * toR sumX2 + t * t * toR sumY2 + INR hi * (u * u)
            + 2 * s * t * toR sumXY + 2 * s * u * toR sumX + 2 * t * u * toR sumY)%R).
  apply (for_range_ind P); unfold P; [lia| |].
  - intros s t u. rewrite !toR_fromZ. simpl. lra.
  - intros i [[[[sx sy] sxy] sxx] syy] Hi Hst. unfold body.
    intros s t u. specialize (Hst s t u).
    rewrite !toR_add, !toR_mul, S_INR.
    set (a := toR (x !!! i)). set (b := toR (y !!! i)).
    pose proof (Rle_0_sqr (s * a + t * b + u)) as Hsq. unfold Rsqr in Hsq.
    nra.
Qed.

(** Each squared deviation is at most the sum of them all. *)
Lemma correlation_sums_terms (x y : list F) :
  let '(sumX, sumY, sumXY, sumX2, sumY2) := correlation_sums x y in
  forall u : R, forall k, k < length x ->
    ((toR (x !!! k) + u) * (toR (x !!! k) + u)
     <= toR sumX2 + 2 * u * toR sumX + INR (length x) * (u * u))%R.
Proof.
  unfold correlation_sums.
  set (body := fun (i : nat) (st : F * F * F * F * F) => _).
  pose (P := fun (hi : nat) (st : F * F * F * F * F) =>
    let '(sumX, sumY, sumXY, sumX2, sumY2) := st in
    forall u : R,
      (0 <= toR sumX2 + 2 * u * toR sumX + INR hi * (u * u))%R
      ∧ forall k, k < hi ->
          ((toR (x !!! k) + u) * (toR (x !!! k) + u)
           <= toR sumX2 + 2 * u * toR sumX + INR hi * (u * u))%R).
  assert (Hinv : P (length x) (for_range 0 (length x) body
                                 (fromZ 0, fromZ 0, fromZ 0, fromZ 0, fromZ 0))).
  { apply (for_range_ind P); unfold P; [lia| |].
    - intros u. rewrite !toR_fromZ. simpl. split; [lra|]. intros k Hk. lia.
    - intros i [[[[sx sy] sxy] sxx] syy] Hi Hst. unfold body.
      intros u. destruct (Hst u) as [Hnn Hterms].
      rewrite !toR_add, !toR_mul, S_INR.
      set (a := toR (x !!! i)).
      pose proof (Rle_0_sqr (a + u)) as Hsq. unfold Rsqr in Hsq.
      split; [nra|].
      intros k Hk. destruct (decide (k = i)) as [->|Hne].
      + fold a. nra.
      + specialize (Hterms k ltac:(lia)). nra. }
  unfold P in Hinv.
  destruct (for_range 0 (length x) body _) as [[[[sx sy] sxy] sxx] syy].
  intros u k Hk. apply (Hinv u), Hk.
Qed.

(** Cauchy and Schwarz, on the sums. *)
Lemma covariance_bound (n sx sy sxy sxx syy : R) :
  (0 < n)%R ->
  (forall s t u : R,
     0 <= s * s * sxx + t * t * syy + n * (u * u)
          + 2 * s * t * sxy + 2 * s * u * sx + 2 * t * u * sy)%R ->
  let a := (n * sxx - sx * sx)%R in
  let b := (n * syy - sy * sy)%R in
  let c := (n * sxy - sx * sy)%R in
  (0 <= a)%R ∧ (0 <= b)%R ∧ (c * c <= a * b)%R.
Proof.
  intros Hn Hform. simpl.
  set (a := (n * sxx - sx * sx)%R).
  set (b := (n * syy - sy * sy)%R).
  set (c := (n * sxy - sx * sy)%R).
  assert (Hquad : forall s t : R, (0 <= s * s * a + t * t * b + 2 * s * t * c)%R).
  { intros s t.
    pose proof (Hform (n * s) (n * t) (- (s * sx + t * sy)))%R as Hq.
    assert (Heq : ((n * s) * (n * s) * sxx + (n * t) * (n * t) * syy
                   + n * (- (s * sx + t * sy) * - (s * sx + t * sy))
                   + 2 * (n * s) * (n * t) * sxy
                   + 2 * (n * s) * - (s * sx + t * sy) * sx
                   + 2 * (n * t) * - (s * sx + t * sy) * sy
                   = n * (s * s * a + t * t * b + 2 * s * t * c))%R)
      by (unfold a, b, c; ring).
    rewrite Heq in Hq.
    apply (Rmult_le_reg_l n); [exact Hn|]. lra. }
  assert (Ha : (0 <= a)%R) by (pose proof (Hquad 1 0)%R; lra).
  assert (Hb : (0 <= b)%R) by (pose proof (Hquad 0 1)%R; lra).
  split; [exact Ha|]. split; [exact Hb|].
  destruct (Rle_lt_or_eq_dec _ _ Hb) as [Hpos|Hzero].
  - pose proof (Hquad b (- c))%R as Hq.
    assert (Heq : (b * b * a + - c * - c * b + 2 * b * - c * c
                   = b * (a * b - c * c))%R) by ring.
    rewrite Heq in Hq.
    assert (0 <= a * b - c * c)%R; [|lra].
    apply (Rmult_le_reg_l b); [exact Hpos|]. lra.
  - pose proof (Hquad c (- (a + 1) / 2))%R as Hq.
    rewrite <- Hzero in *.
    assert (Heq : (c * c * a + - (a + 1) / 2 * (- (a + 1) / 2) * 0
                   + 2 * c * (- (a + 1) / 2) * c = - (c * c))%R) by field.
    rewrite Heq in Hq. lra.
Qed.
End CorrelationProps.

Section CorrelationMath.
Context {F : Type} `{ExactMath F}.

Lemma CalculateCorrelation_range (x y : list F) :
  (-1 <= toR (CalculateCorrelation x y) <= 1)%R.
Proof.
  unfold CalculateCorrelation.
  destruct (decide (length x ≠ length y ∨ length x = 0)) as [Hbad|Hok].
  { rewrite toR_fromZ. lra. }
  pose proof (correlation_sums_form x y) as Hform.
  destruct (correlation_sums x y) as [[[[sx sy] sxy] sxx] syy].
  assert (Hn : (0 < INR (length x))%R) by (apply lt_0_INR; lia).
  destruct (covariance_bound _ _ _ _ _ _ Hn Hform) as (Ha & Hb & Hc).
  cbv zeta in Ha, Hb, Hc.
  set (num := (float64 (length x) * sxy - sx * sy)%f64).
  set (arg := ((float64 (length x) * sxx - sx * sx)
               * (float64 (length x) * syy - sy * sy))%f64).
  assert (Hnum : toR num = (INR (length x) * toR sxy - toR sx * toR sy)%R)
    by (unfold num; rewrite toR_sub, !toR_mul, toR_float64; reflexivity).
  assert (Harg : toR arg = ((INR (length x) * toR sxx - toR sx * toR sx)
                            * (INR (length x) * toR syy - toR sy * toR sy))%R)
    by (unfold arg; rewrite toR_mul, !toR_sub, !toR_mul, toR_float64; reflexivity).
  assert (Hargpos : (0 <= toR arg)%R) by (rewrite Harg; apply Rmult_le_pos; lra).
  destruct (fsqrt arg =? fromZ 0)%f64 eqn:E; [rewrite toR_fromZ; lra|].
  apply feqb_neq in E.
  assert (Hd : toR (fsqrt arg) <> 0%R) by (intros Hz; apply E, toR_eq_0, Hz).
  rewrite toR_div by exact Hd.
  rewrite toR_sqrt in * by exact Hargpos.
  pose proof (sqrt_pos (toR arg)) as Hdpos.
  pose proof (sqrt_sqrt (toR arg) Hargpos) as Hdd.
  set (d := R_sqrt.sqrt (toR arg)) in *.
  assert (Hcc : (toR num * toR num <= d * d)%R) by (rewrite Hdd, Hnum, Harg; lra).
  assert (Hdgt : (0 < d)%R) by lra.
  assert (Habs : (- d <= toR num <= d)%R) by (split; nra).
  split.
  - apply (Rmult_le_reg_r d); [exact Hdgt|].
    unfold Rdiv. rewrite Rmult_assoc, Rinv_l by lra. lra.
  - apply (Rmult_le_reg_r d); [exact Hdgt|].
    unfold Rdiv. rewrite Rmult_assoc, Rinv_l by lra. lra.
Qed.

(** A series that is not constant correlates perfectly with itself. *)
Lemma CalculateCorrelation_self (x : list F) (i j : nat) :
  i < length x -> j < length x -> x !!! i <> x !!! j ->
  CalculateCorrelation x x = fromZ 1.
Proof.
  intros Hi Hj Hdiff. unfold CalculateCorrelation.
  rewrite decide_False by lia.
  pose proof (correlation_sums_form x x) as Hform.
  pose proof (correlation_sums_terms x x) as Hterms.
  assert (Hsame : let '(sumX, sumY, sumXY, sumX2, sumY2) := correlation_sums x x in
                  sumY = sumX ∧ sumXY = sumX2 ∧ sumY2 = sumX2).
  { unfold correlation_sums.
    apply (for_range_ind (fun _ (st : F * F * F * F * F) =>
             let '(sumX, sumY, sumXY, sumX2, sumY2) := st in
             sumY = sumX ∧ sumXY = sumX2 ∧ sumY2 = sumX2)); [lia|done|].
    intros k [[[[sx sy] sxy] sxx] syy] _ (-> & -> & ->). done. }
  destruct (correlation_sums x x) as [[[[sx sy] sxy] sxx] syy].
  destruct Hsame as (-> & -> & ->).
  assert (Hn : (0 < INR (length x))%R) by (apply lt_0_INR; lia).
  destruct (covariance_bound _ _ _ _ _ _ Hn Hform) as (Ha & _ & _).
  cbv zeta in Ha.
  set (n := INR (length x)) in *.
  assert (Hpos : (0 < n * toR sxx - toR sx * toR sx)%R).
  { destruct (Rle_lt_or_eq_dec _ _ Ha) as [Hlt|Heq]; [exact Hlt|]. exfalso.
    pose proof (Hterms (- toR sx / n)%R i Hi) as Hti.
    pose proof (Hterms (- toR sx / n)%R j Hj) as Htj.
    assert (Hzero : (toR sxx + 2 * (- toR sx / n) * toR sx
                     + n * (- toR sx / n * (- toR sx / n)) = 0)%R).
    { apply (Rmult_eq_reg_l n); [|lra].
      replace (n * (toR sxx + 2 * (- toR sx / n) * toR sx
                    + n * (- toR sx / n * (- toR sx / n))))%R
        with (n * toR sxx - toR sx * toR sx)%R by (field; lra).
      lra. }
    rewrite Hzero in Hti, Htj.
    assert (Hxi : (toR (x !!! i) + - toR sx / n = 0)%R) by nra.
    assert (Hxj : (toR (x !!! j) + - toR sx / n = 0)%R) by nra.
    apply Hdiff, toR_inj. lra. }
  set (num := (float64 (length x) * sxx - sx * sx)%f64).
  assert (Hnum : toR num = (n * toR sxx - toR sx * toR sx)%R)
    by (unfold num, n; rewrite toR_sub, !toR_mul, toR_float64; reflexivity).
  assert (Hsq : toR (fsqrt (num * num)%f64) = toR num).
  { rewrite toR_sqrt by (rewrite toR_mul; nra).
    rewrite toR_mul. apply sqrt_square. lra. }
  assert (Hnz : fsqrt (num * num)%f64 <> fromZ 0).
  { intros Hz. apply toR_eq_0 in Hz. lra. }
  apply feqb_neq in Hnz. rewrite Hnz.
  apply toR_inj. rewrite toR_div by lra.
  rewrite Hsq, toR_fromZ. field. lra.
Qed.
End CorrelationMath.

(** ** package patterns: marked bars *)

Section Marks.
Context {F : Type} `{Float64Ops F}.

Lemma mark_lookup (found : bool) (key : string) (i : nat)
    (patterns : gmap string (list nat)) (k : string) :
  default [] (mark found key i patterns !! k)
  = default [] (patterns !! k) ++ (if found && bool_decide (k = key) then [i] else []).
Proof.
  unfold mark. destruct found; simpl; [|symmetry; apply app_nil_r].
  destruct (decide (k = key)) as [->|Hne].
  - rewrite lookup_insert_eq, bool_decide_eq_true_2 by reflexivity. reflexivity.
  - rewrite lookup_insert_ne by congruence.
    rewrite bool_decide_eq_false_2 by exact Hne. symmetry. apply app_nil_r.
Qed.

(** A marked list is not empty, and only the names marked are keys. *)
Lemma mark_keys (names : list string) (found : bool) (key : string) (i : nat)
    (patterns : gmap string (list nat)) :
  key ∈ names ->
  (forall k l, patterns !! k = Some l -> l ≠ [] ∧ k ∈ names) ->
  forall k l, mark found key i patterns !! k = Some l -> l ≠ [] ∧ k ∈ names.
Proof.
  intros Hkey Hinv k l. unfold mark. destruct found; [|apply Hinv].
  destruct (decide (k = key)) as [->|Hne].
  - rewrite lookup_insert_eq. intros [= <-]. split; [|exact Hkey].
    destruct (default [] (patterns !! key)); discriminate.
  - rewrite lookup_insert_ne by congruence. apply Hinv.
Qed.

(** A loop that appends the index to the list of [k] when [test] holds
    collects, in order, the indices that pass the test. *)
Lemma for_range_collect (body : nat -> gmap string (list nat) -> gmap string (list nat))
    (k : string) (test : nat -> bool) (lo hi : nat) :
  (forall i patterns, lo ≤ i < hi ->
     default [] (body i patterns !! k)
     = default [] (patterns !! k) ++ (if test i then [i] else [])) ->
  default [] (for_range lo hi body ∅ !! k)
  = filter (fun i => test i = true) (seq lo (hi - lo)).
Proof.
  intros Hbody.
  destruct (decide (lo ≤ hi)) as [Hle|Hgt].
  - pose (P := fun (h : nat) (patterns : gmap string (list nat)) =>
               default [] (patterns !! k)
               = filter (fun i => test i = true) (seq lo (h - lo))).
    apply (for_range_ind P); unfold P; [exact Hle| |].
    + rewrite Nat.sub_diag, lookup_empty. reflexivity.
    + intros i patterns Hi Hp. rewrite Hbody, Hp by exact Hi.
      replace (S i - lo) with (S (i - lo)) by lia.
      rewrite seq_S, filter_app. replace (lo + (i - lo)) with i by lia.
      f_equal. destruct (test i) eqn:E.
      * rewrite filter_cons_True by exact E. reflexivity.
      * rewrite filter_cons_False by (rewrite E; discriminate). reflexivity.
  - rewrite for_range_empty by lia. replace (hi - lo) with 0 by lia.
    rewrite lookup_empty. reflexivity.
Qed.

Lemma for_range_keys (names : list string)
    (body : nat -> gmap string (list nat) -> gmap string (list nat)) (lo hi : nat) :
  (forall i patterns,
     (forall k l, patterns !! k = Some l -> l ≠ [] ∧ k ∈ names) ->
     forall k l, body i patterns !! k = Some l -> l ≠ [] ∧ k ∈ names) ->
  forall k l, for_range lo hi body ∅ !! k = Some l -> l ≠ [] ∧ k ∈ names.
Proof.
  intros Hbody.
  destruct (decide (lo ≤ hi)) as [Hle|Hgt].
  - apply (for_range_ind (fun _ patterns =>
             forall k l, patterns !! k = Some l -> l ≠ [] ∧ k ∈ names)); [exact Hle| |].
    + intros k l Hk. rewrite lookup_empty in Hk. discriminate.
    + intros i patterns _ Hp. apply Hbody, Hp.
  - rewrite for_range_empty by lia. intros k l Hk.
    rewrite lookup_empty in Hk. discriminate.
Qed.

Lemma elem_of_collected (test : nat -> bool) (lo len i : nat) :
  i ∈ filter (fun i => test i = true) (seq lo len)
  <-> lo ≤ i < lo + len ∧ test i = true.
Proof. rewrite list_elem_of_filter, elem_of_seq. tauto. Qed.

(** *** DetectCandlestickPatterns *)

Lemma candlestick_body_lookup (data : list (BTCPrice F)) (i : nat)
    (patterns : gmap string (list nat)) (k : string) :
  k ∈ candlestick_names ->
  default [] (candlestick_body data i patterns !! k)
  = default [] (patterns !! k) ++ (if candlestick_test data k i then [i] else []).
Proof.
  intros Hk. unfold candlestick_body, candlestick_test, candlestick_names in *.
  destruct (decide (1 < i)) as [Hi|Hi];
    [rewrite (bool_decide_eq_true_2 (1 < i)) by exact Hi
    |rewrite (bool_decide_eq_false_2 (1 < i)) by exact Hi];
    rewrite !mark_lookup;
    repeat (apply elem_of_cons in Hk as [->|Hk];
            [simpl; rewrite ?andb_true_r, ?andb_false_r, ?app_nil_r, <- ?app_assoc;
             simpl; rewrite ?app_nil_r; reflexivity|]);
    inversion Hk.
Qed.

Lemma volume_body_lookup (bts : BTCTimeSeries F) (i : nat)
    (patterns : gmap string (list nat)) (k : string) :
  k ∈ volume_names ->
  default [] (volume_body (Data bts) (average_volume bts) i patterns !! k)
  = default [] (patterns !! k) ++ (if volume_test bts k i then [i] else []).
Proof.
  intros Hk. unfold volume_body, volume_test, volume_names in *.
  rewrite !mark_lookup.
  repeat (apply elem_of_cons in Hk as [->|Hk];
          [simpl; rewrite ?andb_true_r, ?andb_false_r, ?app_nil_r, <- ?app_assoc;
           simpl; rewrite ?app_nil_r; reflexivity|]).
  inversion Hk.
Qed.

Lemma StronglySorted_collected (test : nat -> bool) (lo len : nat) :
  StronglySorted lt (filter (fun i => test i = true) (seq lo len)).
Proof.
  revert lo. induction len as [|len IH]; intros lo; [constructor|].
  simpl. destruct (decide (test lo = true)) as [Ht|Ht].
  - rewrite filter_cons_True by exact Ht. constructor; [apply IH|].
    apply Forall_forall. intros i Hi.
    apply elem_of_collected in Hi. lia.
  - rewrite filter_cons_False by exact Ht. apply IH.
Qed.

(** *** DetectCandlestickPatterns *)

Lemma DetectCandlestickPatterns_short (bts : BTCTimeSeries F) :
  length (Data bts) < 3 -> DetectCandlestickPatterns bts = (∅, bts).
Proof. intros Hlt. unfold DetectCandlestickPatterns. rewrite decide_True by lia. done. Qed.

Lemma DetectCandlestickPatterns_collect (bts : BTCTimeSeries F) (k : string) :
  k ∈ candlestick_names ->
  default [] ((DetectCandlestickPatterns bts).1 !! k)
  = filter (fun i => candlestick_test (Data (Sort bts)) k i = true)
      (seq 1 (length (Data bts) - 2)).
Proof.
  intros Hk. unfold DetectCandlestickPatterns.
  destruct (decide (length (Data bts) < 3)) as [Hshort|Hlong].
  { cbn [fst]. rewrite lookup_empty. replace (length (Data bts) - 2) with 0 by lia.
    reflexivity. }
  cbn [fst]. rewrite Sort_length.
  replace (length (Data bts) - 2) with (length (Data bts) - 1 - 1) by lia.
  apply for_range_collect. intros i patterns Hi.
  apply candlestick_body_lookup, Hk.
Qed.

Lemma DetectCandlestickPatterns_keys (bts : BTCTimeSeries F) :
  forall k l, (DetectCandlestickPatterns bts).1 !! k = Some l ->
    l ≠ [] ∧ StronglySorted lt l ∧ k ∈ candlestick_names.
Proof.
  assert (Hkeys : forall k l, (DetectCandlestickPatterns bts).1 !! k = Some l ->
                    l ≠ [] ∧ k ∈ candlestick_names).
  { unfold DetectCandlestickPatterns.
    destruct (decide (length (Data bts) < 3)) as [Hshort|Hlong].
    { intros k l Hk. cbn [fst] in Hk. rewrite lookup_empty in Hk. discriminate. }
    cbn [fst]. apply for_range_keys. intros i patterns Hp.
    unfold candlestick_body.
    destruct (decide (1 < i));
      repeat (apply mark_keys; [unfold candlestick_names; in_list|]); exact Hp. }
  intros k l Hk. destruct (Hkeys k l Hk) as [Hne Hin].
  split; [exact Hne|]. split; [|exact Hin].
  pose proof (DetectCandlestickPatterns_collect bts k Hin) as Hc.
  rewrite Hk in Hc. simpl in Hc. rewrite Hc. apply StronglySorted_collected.
Qed.

Lemma DetectCandlestickPatterns_elem (bts : BTCTimeSeries F) (k : string) (i : nat) :
  k ∈ candlestick_names ->
  i ∈ default [] ((DetectCandlestickPatterns bts).1 !! k)
  <-> 1 ≤ i < length (Data bts) - 1
      ∧ candlestick_test (Data (Sort bts)) k i = true.
Proof.
  intros Hk. rewrite (DetectCandlestickPatterns_collect bts k Hk), elem_of_collected.
  split; intros [Hi Ht]; (split; [lia|exact Ht]).
Qed.

(** *** DetectVolumePatterns *)

Lemma DetectVolumePatterns_short (bts : BTCTimeSeries F) :
  length (Data bts) < 20 -> DetectVolumePatterns bts = ∅.
Proof. intros Hlt. unfold DetectVolumePatterns. rewrite decide_True by lia. done. Qed.

Lemma DetectVolumePatterns_collect (bts : BTCTimeSeries F) (k : string) :
  k ∈ volume_names -> 20 ≤ length (Data bts) ->
  default [] (DetectVolumePatterns bts !! k)
  = filter (fun i => volume_test bts k i = true) (seq 1 (length (Data bts) - 1)).
Proof.
  intros Hk Hlong. unfold DetectVolumePatterns. rewrite decide_False by lia.
  apply for_range_collect. intros i patterns Hi.
  apply volume_body_lookup, Hk.
Qed.

Lemma DetectVolumePatterns_keys (bts : BTCTimeSeries F) :
  forall k l, DetectVolumePatterns bts !! k = Some l ->
    l ≠ [] ∧ StronglySorted lt l ∧ k ∈ volume_names.
Proof.
  destruct (decide (length (Data bts) < 20)) as [Hshort|Hlong].
  { rewrite DetectVolumePatterns_short by exact Hshort.
    intros k l Hk. rewrite lookup_empty in Hk. discriminate. }
  assert (Hkeys : forall k l, DetectVolumePatterns bts !! k = Some l ->
                    l ≠ [] ∧ k ∈ volume_names).
  { unfold DetectVolumePatterns. rewrite decide_False by exact Hlong.
    apply for_range_keys. intros i patterns Hp. unfold volume_body.
    repeat (apply mark_keys; [unfold volume_names; in_list|]). exact Hp. }
  intros k l Hk. destruct (Hkeys k l Hk) as [Hne Hin].
  split; [exact Hne|]. split; [|exact Hin].
  pose proof (DetectVolumePatterns_collect bts k Hin ltac:(lia)) as Hc.
  rewrite Hk in Hc. simpl in Hc. rewrite Hc. apply StronglySorted_collected.
Qed.

Lemma DetectVolumePatterns_elem (bts : BTCTimeSeries F) (k : string) (i : nat) :
  k ∈ volume_names ->
  i ∈ default [] (DetectVolumePatterns bts !! k)
  <-> 20 ≤ length (Data bts) ∧ 1 ≤ i < length (Data bts)
      ∧ volume_test bts k i = true.
Proof.
  intros Hk.
  destruct (decide (length (Data bts) < 20)) as [Hshort|Hlong].
  { rewrite DetectVolumePatterns_short by exact Hshort. rewrite lookup_empty. simpl.
    split; [intros Hin; inversion Hin|lia]. }
  rewrite (DetectVolumePatterns_collect bts k Hk) by lia. rewrite elem_of_collected.
  split; [intros [Hi Ht]|intros (_ & Hi & Ht)]; repeat split; first [lia|exact Ht].
Qed.
End Marks.

Section PatternsExact.
Context {F : Type} `{ExactArith F}.

Lemma toR_lit (n d : Z) : d ≠ 0%Z -> toR (lit n d) = (IZR n / IZR d)%R.
Proof.
  intros Hd. unfold lit.
  rewrite toR_div by (rewrite toR_fromZ; apply not_0_IZR, Hd).
  rewrite !toR_fromZ. reflexivity.
Qed.

(** A hammer is no shooting star: one shadow cannot be both more than
    twice the body and less than half of it. *)
Lemma isHammer_not_isShootingStar (candle : BTCPrice F) :
  isHammer candle = true -> isShootingStar candle = false.
Proof.
  unfold isHammer, isShootingStar.
  set (body := fabs (Close candle - Open candle)%f64).
  set (lowerShadow := (math_Min (Open candle) (Close candle) - Low candle)%f64).
  set (upperShadow := (High candle - math_Max (Open candle) (Close candle))%f64).
  intros Hh. apply andb_true_iff in Hh as [Hh Hup].
  apply andb_true_iff in Hh as [_ Hlow].
  apply fltb_lt in Hup, Hlow.
  rewrite toR_mul, toR_lit in Hup by lia. rewrite toR_mul, toR_fromZ in Hlow.
  assert (Hbody : (0 <= toR body)%R) by (unfold body; rewrite toR_abs; apply Rabs_pos).
  destruct (fromZ 0 <? High candle - Low candle)%f64; [|reflexivity]. simpl.
  destruct (fromZ 2 * body <? upperShadow)%f64 eqn:E; [|reflexivity]. simpl.
  apply fltb_lt in E. rewrite toR_mul, toR_fromZ in E.
  exfalso. lra.
Qed.

Lemma isBullishEngulfing_not_isBearishEngulfing (prev curr : BTCPrice F) :
  isBullishEngulfing prev curr = true -> isBearishEngulfing prev curr = false.
Proof.
  unfold isBullishEngulfing, isBearishEngulfing. intros Hb.
  repeat (apply andb_true_iff in Hb as [Hb ?]).
  apply fltb_lt in Hb.
  destruct (Open prev <? Close prev)%f64 eqn:E; [|reflexivity].
  apply fltb_lt in E. exfalso. lra.
Qed.

Lemma isMorningStar_not_isEveningStar (first second third : BTCPrice F) :
  isMorningStar first second third = true -> isEveningStar first second third = false.
Proof.
  unfold isMorningStar, isEveningStar. intros Hm.
  repeat (apply andb_true_iff in Hm as [Hm ?]).
  apply fltb_lt in Hm.
  destruct (Open first <? Close first)%f64 eqn:E; [|reflexivity].
  apply fltb_lt in E. exfalso. lra.
Qed.

(** *** DetectVolumePatterns *)

Lemma sum_range_nonneg (l : list F) :
  Forall (fun v => (0 <= toR v)%R) l -> (0 <= toR (sum_range l))%R.
Proof.
  intros Hall. unfold sum_range.
  assert (Hgen : forall acc, (0 <= toR acc)%R -> (0 <= toR (fold_left fadd l acc))%R).
  { induction Hall as [|v l Hv Hl IH]; intros acc Hacc; [exact Hacc|].
    simpl. apply IH. rewrite toR_add. lra. }
  apply Hgen. rewrite toR_fromZ. lra.
Qed.

Lemma average_volume_nonneg (bts : BTCTimeSeries F) :
  Data bts ≠ [] ->
  Forall (fun bar => (0 <= toR (Volume bar))%R) (Data bts) ->
  (0 <= toR (average_volume bts))%R.
Proof.
  intros Hne Hall. unfold average_volume, GetVolumeData.
  rewrite length_map.
  assert (Hn : (0 < toR (float64 (length (Data bts))))%R).
  { apply period_pos. destruct (Data bts); [done|simpl; lia]. }
  rewrite toR_div by lra. apply Rmult_le_pos.
  - apply sum_range_nonneg, Forall_map. exact Hall.
  - left. apply Rinv_0_lt_compat, Hn.
Qed.

Lemma volume_tests_exclusive (bts : BTCTimeSeries F) (i : nat) :
  (0 <= toR (average_volume bts))%R ->
  (0 <= toR (Close (Data bts !!! (i - 1)%nat)))%R ->
  (volume_test bts "volume_breakout" i = true ->
   volume_test bts "volume_selloff" i = false
   ∧ volume_test bts "low_volume" i = false)
  ∧ (volume_test bts "volume_selloff" i = true ->
     volume_test bts "low_volume" i = false).
Proof.
  intros Havg Hprev. unfold volume_test. simpl.
  set (v := Volume (Data bts !!! i)). set (c := Close (Data bts !!! i)).
  set (p := Close (Data bts !!! (i - 1))) in *.
  set (avg := average_volume bts) in *.
  assert (Hlow : (avg * fromZ 2 <? v)%f64 = true -> (v <? avg * lit 5 10)%f64 = false).
  { intros Hv. apply fltb_lt in Hv. apply fltb_ge.
    rewrite toR_mul, toR_fromZ in Hv. rewrite toR_mul, toR_lit by lia. lra. }
  split.
  - intros Hb. apply andb_true_iff in Hb as [Hv Hc]. split; [|apply Hlow, Hv].
    rewrite Hv. simpl. apply fltb_lt in Hc. apply fltb_ge.
    rewrite toR_mul, toR_lit in Hc by lia. rewrite toR_mul, toR_lit by lia. lra.
  - intros Hs. apply andb_true_iff in Hs as [Hv _]. apply Hlow, Hv.
Qed.

(** *** DetectTrend *)

Lemma DetectTrend_short (bts : BTCTimeSeries F) (period : nat) :
  DetectTrend bts period = "insufficient_data" <-> length (Data bts) < period.
Proof.
  unfold DetectTrend. destruct (decide (length (Data bts) < period)); [tauto|].
  split; [|lia].
  destruct (_ <? _)%f64; [discriminate|]. destruct (_ <? _)%f64; discriminate.
Qed.

Lemma DetectTrend_thresholds (bts : BTCTimeSeries F) (period : nat) :
  period ≤ length (Data bts) ->
  let startPrice := toR (Close (Data bts !!! (length (Data bts) - period))) in
  let endPrice := toR (Close (Data bts !!! (length (Data bts) - 1))) in
  (0 < startPrice)%R ->
  (DetectTrend bts period = "uptrend" <-> (105 / 100 * startPrice < endPrice)%R)
  ∧ (DetectTrend bts period = "downtrend" <-> (endPrice < 95 / 100 * startPrice)%R)
  ∧ (DetectTrend bts period = "sideways"
     <-> (95 / 100 * startPrice <= endPrice <= 105 / 100 * startPrice)%R).
Proof.
  intros Hle. cbv zeta. intros Hpos. unfold DetectTrend.
  rewrite decide_False by lia.
  unfold GetClosePrices. rewrite length_map.
  assert (Hs : map Close (Data bts) !!! (length (Data bts) - period)
               = Close (Data bts !!! (length (Data bts) - period))).
  { destruct (decide (length (Data bts) - period < length (Data bts))) as [Hlt|Hge].
    - apply list_lookup_total_correct. rewrite list_lookup_fmap.
      rewrite (list_lookup_lookup_total_lt _ _ Hlt). reflexivity.
    - rewrite !list_lookup_total_alt, !lookup_ge_None_2; [reflexivity|lia|].
      rewrite length_map. lia. }
  assert (He : map Close (Data bts) !!! (length (Data bts) - 1)
               = Close (Data bts !!! (length (Data bts) - 1))).
  { destruct (decide (length (Data bts) - 1 < length (Data bts))) as [Hlt|Hge].
    - apply list_lookup_total_correct. rewrite list_lookup_fmap.
      rewrite (list_lookup_lookup_total_lt _ _ Hlt). reflexivity.
    - rewrite !list_lookup_total_alt, !lookup_ge_None_2; [reflexivity|lia|].
      rewrite length_map. lia. }
  rewrite Hs, He.
  set (s := Close (Data bts !!! (length (Data bts) - period))) in *.
  set (e := Close (Data bts !!! (length (Data bts) - 1))) in *.
  assert (Hchange : toR ((e - s) / s)%f64 = ((toR e - toR s) / toR s)%R)
    by (rewrite toR_div by lra; rewrite toR_sub; reflexivity).
  assert (Hup : (lit 5 100 <? (e - s) / s)%f64 = true
                <-> (105 / 100 * toR s < toR e)%R).
  { rewrite fltb_lt, Hchange, toR_lit by lia. split; intros Hlt.
    - apply (Rmult_lt_compat_r (toR s)) in Hlt; [|exact Hpos].
      unfold Rdiv in Hlt at 2. rewrite Rmult_assoc, Rinv_l in Hlt by lra. lra.
    - apply (Rmult_lt_reg_r (toR s)); [exact Hpos|].
      unfold Rdiv at 2. rewrite Rmult_assoc, Rinv_l by lra. lra. }
  assert (Hdown : ((e - s) / s <? lit (-5) 100)%f64 = true
                  <-> (toR e < 95 / 100 * toR s)%R).
  { rewrite fltb_lt, Hchange, toR_lit by lia. split; intros Hlt.
    - apply (Rmult_lt_compat_r (toR s)) in Hlt; [|exact Hpos].
      unfold Rdiv in Hlt at 1. rewrite Rmult_assoc, Rinv_l in Hlt by lra. lra.
    - apply (Rmult_lt_reg_r (toR s)); [exact Hpos|].
      unfold Rdiv at 1. rewrite Rmult_assoc, Rinv_l by lra. lra. }
  destruct (lit 5 100 <? (e - s) / s)%f64 eqn:E1.
  - assert (105 / 100 * toR s < toR e)%R by (apply Hup; reflexivity).
    split; [tauto|]. split; (split; [discriminate|intros; lra]).
  - assert (Hnup : ~ (105 / 100 * toR s < toR e)%R)
      by (intros Hlt; apply Hup in Hlt; discriminate).
    destruct ((e - s) / s <? lit (-5) 100)%f64 eqn:E2.
    + assert (toR e < 95 / 100 * toR s)%R by (apply Hdown; reflexivity).
      split; [split; [discriminate|intros; lra]|].
      split; [tauto|]. split; [discriminate|intros; lra].
    + assert (Hndown : ~ (toR e < 95 / 100 * toR s)%R)
        by (intros Hlt; apply Hdown in Hlt; discriminate).
      split; [split; [discriminate|intros; lra]|].
      split; [split; [discriminate|intros; lra]|].
      split; [intros _; lra|reflexivity].
Qed.
End PatternsExact.

(** *** CalculateFibonacciRetracements *)

Section FibonacciProps.
Context {F : Type} `{Float64Ops F}.

Lemma extremes_loop (l : list (BTCPrice F)) (high low : F) :
  fold_left extremes_step l (high, low)
  = (fold_left fmax (High <$> l) high, fold_left fmin (Low <$> l) low).
Proof.
  revert high low. induction l as [|p l IH]; intros high low; [done|].
  simpl. rewrite IH. reflexivity.
Qed.

Lemma CalculateFibonacciRetracements_short (bts : BTCTimeSeries F) (period : nat) :
  length (Data bts) < period -> CalculateFibonacciRetracements bts period = ∅.
Proof.
  intros Hlt. unfold CalculateFibonacciRetracements. rewrite decide_True by lia. done.
Qed.

Lemma CalculateFibonacciRetracements_entries (bts : BTCTimeSeries F) (period : nat) :
  period ≤ length (Data bts) ->
  let recentData := drop (length (Data bts) - period) (Data bts) in
  let high := fold_left fmax (High <$> recentData) (High (recentData !!! 0)) in
  let low := fold_left fmin (Low <$> recentData) (Low (recentData !!! 0)) in
  let level ratio := (high - (high - low) * ratio)%f64 in
  let fibs := CalculateFibonacciRetracements bts period in
  fibs !! "high" = Some (level (fromZ 0))
  ∧ fibs !! "fib_76_4" = Some (level (lit 236 1000))
  ∧ fibs !! "fib_61_8" = Some (level (lit 382 1000))
  ∧ fibs !! "fib_50" = Some (level (lit 5 10))
  ∧ fibs !! "fib_38_2" = Some (level (lit 618 1000))
  ∧ fibs !! "fib_23_6" = Some (level (lit 786 1000))
  ∧ fibs !! "low" = Some (level (fromZ 1))
  ∧ forall key, is_Some (fibs !! key) -> key ∈ fibNames.
Proof.
  intros Hle. cbv zeta. unfold CalculateFibonacciRetracements.
  rewrite decide_False by lia. rewrite extremes_loop.
  set (high := fold_left fmax _ _). set (low := fold_left fmin _ _).
  unfold for_range, fibLevels, fibNames. simpl.
  repeat split; [simplify_map_eq; reflexivity..|].
  intros key [v Hv].
  repeat (rewrite lookup_insert in Hv; destruct (decide (_ = key)) as [<-|];
          [in_list|]).
  rewrite lookup_empty in Hv. discriminate.
Qed.
End FibonacciProps.

Section FibonacciExact.
Context {F : Type} `{ExactArith F}.

Lemma CalculateFibonacciRetracements_levels (bts : BTCTimeSeries F) (period : nat) :
  1 ≤ period ≤ length (Data bts) ->
  Forall (fun bar => (toR (Low bar) <= toR (High bar))%R) (Data bts) ->
  let recentData := drop (length (Data bts) - period) (Data bts) in
  let fibs := CalculateFibonacciRetracements bts period in
  exists high low : F,
    high ∈ map High recentData ∧ low ∈ map Low recentData
    ∧ (forall p, p ∈ recentData ->
         (toR (High p) <= toR high)%R ∧ (toR low <= toR (Low p))%R)
    ∧ (toR low <= toR high)%R
    ∧ fibs !! "high" = Some high ∧ fibs !! "low" = Some low
    ∧ forall key ratio,
        (key, ratio) ∈ [("fib_76_4", 236 / 1000); ("fib_61_8", 382 / 1000);
                        ("fib_50", 5 / 10); ("fib_38_2", 618 / 1000);
                        ("fib_23_6", 786 / 1000)]%R ->
        exists v, fibs !! key = Some v
                  ∧ toR v = (toR high - (toR high - toR low) * ratio)%R.
Proof.
  intros Hp Hbars. cbv zeta.
  destruct (CalculateFibonacciRetracements_entries bts period ltac:(lia))
    as (Hh & H1 & H2 & H3 & H4 & H5 & Hl & _). cbv zeta in *.
  set (recentData := drop (length (Data bts) - period) (Data bts)) in *.
  assert (Hlen : length recentData = period) by (unfold recentData; rewrite length_drop; lia).
  destruct recentData as [|p0 l] eqn:Hrecent; [simpl in Hlen; lia|].
  change ((p0 :: l) !!! 0) with p0 in *.
  set (high := fold_left fmax (High <$> p0 :: l) (High p0)) in *.
  set (low := fold_left fmin (Low <$> p0 :: l) (Low p0)) in *.
  pose proof (fold_fmax_elem (High <$> (p0 :: l)) (High p0)) as Hmax.
  pose proof (fold_fmin_elem (Low <$> (p0 :: l)) (Low p0)) as Hmin.
  pose proof (fold_fmax_upper (High <$> (p0 :: l)) (High p0)) as Hup.
  pose proof (fold_fmin_lower (Low <$> (p0 :: l)) (Low p0)) as Hlo.
  fold high in Hmax, Hup. fold low in Hmin, Hlo.
  apply Forall_cons in Hup as [Hup0 Hup]. apply Forall_cons in Hlo as [Hlo0 Hlo].
  rewrite Forall_forall in Hup, Hlo.
  assert (Hp0 : (toR (Low p0) <= toR (High p0))%R).
  { pose proof (Forall_drop _ (length (Data bts) - period) _ Hbars) as Hd.
    fold recentData in Hd. rewrite Hrecent in Hd.
    apply Forall_cons in Hd as [Hd _]. exact Hd. }
  exists high, low.
  split; [apply elem_of_cons in Hmax as [->|Hmax]; [apply list_elem_of_here|exact Hmax]|].
  split; [apply elem_of_cons in Hmin as [->|Hmin]; [apply list_elem_of_here|exact Hmin]|].
  split.
  { intros p Hin. split.
    - apply Hup, (list_elem_of_fmap_2 High), Hin.
    - apply Hlo, (list_elem_of_fmap_2 Low), Hin. }
  split; [lra|].
  split.
  { rewrite Hh. f_equal. apply toR_inj.
    rewrite toR_sub, toR_mul, toR_fromZ. lra. }
  split.
  { rewrite Hl. f_equal. apply toR_inj.
    rewrite toR_sub, toR_mul, toR_sub, toR_fromZ. lra. }
  intros key ratio Hin.
  repeat (apply elem_of_cons in Hin as [[= -> ->]|Hin];
          [eexists; split; [eassumption|];
           rewrite toR_sub, toR_mul, toR_sub, toR_lit by lia; reflexivity|]).
  inversion Hin.
Qed.
End FibonacciExact.

(** *** FindSupportResistanceLevels *)

Section LevelsProps.
Context {F : Type} `{ExactArith F}.

Lemma cluster_run_bounds (tolerance : F) (lo hi : R) (rest : list F) :
  forall prev cur,
    0 < length cur ->
    Forall (fun c => (lo <= toR c <= hi)%R) cur ->
    Forall (fun c => (lo <= toR c <= hi)%R) rest ->
    Forall (fun c => (lo <= toR c <= hi)%R) (cluster_run tolerance prev cur rest).
Proof.
  induction rest as [|x rest IH]; intros prev cur Hlen Hcur Hrest; simpl.
  - constructor; [apply cluster_mean_bounds; assumption|constructor].
  - apply Forall_cons in Hrest as [Hx Hrest].
    destruct (_ <=? _)%f64.
    + apply IH; [rewrite length_app; simpl; lia| |exact Hrest].
      apply Forall_app. split; [exact Hcur|constructor; [exact Hx|constructor]].
    + constructor; [apply cluster_mean_bounds; assumption|].
      apply IH; [simpl; lia| |exact Hrest]. constructor; [exact Hx|constructor].
Qed.

Lemma clusterLevels_bounds (levels : list F) (tolerance : F) (lo hi : R) :
  Forall (fun c => (lo <= toR c <= hi)%R) levels ->
  Forall (fun c => (lo <= toR c <= hi)%R) (clusterLevels levels tolerance).
Proof.
  intros Hall.
  destruct (sort_Float64s levels) as [|x rest] eqn:Hsort.
  - assert (Hnil : levels = []).
    { apply length_zero_iff_nil.
      rewrite <- (insertion_sort_length float64_less levels).
      fold (sort_Float64s levels). rewrite Hsort. reflexivity. }
    subst levels. constructor.
  - rewrite (clusterLevels_run levels tolerance x rest Hsort).
    assert (Hs : Forall (fun c => (lo <= toR c <= hi)%R) (x :: rest)).
    { rewrite <- Hsort. apply Forall_forall. intros v Hv.
      rewrite Forall_forall in Hall. apply Hall, sort_Float64s_elem, Hv. }
    apply Forall_cons in Hs as [Hx Hrest].
    apply cluster_run_bounds; [simpl; lia| |exact Hrest].
    constructor; [exact Hx|constructor].
Qed.

(** The candidates the scan collects are lows and highs of bars. *)
Lemma level_candidates (data : list (BTCPrice F)) (lookbackPeriod lo hi : nat) :
  hi ≤ length data ->
  let '(supportLevels, resistanceLevels) :=
    for_range lo hi
      (fun i '(supportLevels, resistanceLevels) =>
         let currentPrice := data !!! i in
         let '(isSupport, isResistance) := local_extremum data lookbackPeriod i in
         (if isSupport then supportLevels ++ [Low currentPrice] else supportLevels,
          if isResistance then resistanceLevels ++ [High currentPrice]
          else resistanceLevels))
      ([], []) in
  Forall (fun v => v ∈ map Low data) supportLevels
  ∧ Forall (fun v => v ∈ map High data) resistanceLevels.
Proof.
  intros Hhi.
  destruct (decide (lo ≤ hi)) as [Hle|Hgt];
    [|rewrite for_range_empty by lia; split; constructor].
  set (body := fun (i : nat) (st : list F * list F) => _).
  pose (P := fun (h : nat) (st : list F * list F) =>
    Forall (fun v => v ∈ map Low data) st.1
    ∧ Forall (fun v => v ∈ map High data) st.2).
  assert (Hinv : P hi (for_range lo hi body ([], []))).
  { apply (for_range_ind P); unfold P; [exact Hle| |].
    - split; constructor.
    - intros i [s r] Hi [Hs Hr]. unfold body. simpl in *.
      destruct (local_extremum data lookbackPeriod i) as [isS isR]. simpl.
      assert (Hin : data !!! i ∈ data) by (apply list_elem_of_lookup_total_2; lia).
      split.
      + destruct isS; [|exact Hs]. apply Forall_app. split; [exact Hs|].
        constructor; [|constructor]. apply (list_elem_of_fmap_2 Low), Hin.
      + destruct isR; [|exact Hr]. apply Forall_app. split; [exact Hr|].
        constructor; [|constructor]. apply (list_elem_of_fmap_2 High), Hin. }
  destruct (for_range lo hi body ([], [])) as [s r]. exact Hinv.
Qed.

Lemma FindSupportResistanceLevels_separated (bts : BTCTimeSeries F)
    (lookbackPeriod : nat) (tolerance : F) :
  Forall (fun bar => (0 < toR (Low bar))%R ∧ (0 < toR (High bar))%R) (Data bts) ->
  let levels := (FindSupportResistanceLevels bts lookbackPeriod tolerance).1 in
  let series := (FindSupportResistanceLevels bts lookbackPeriod tolerance).2 in
  (length (Data bts) < lookbackPeriod * 2 ->
   levels = SupportResistanceData_zero ∧ series = bts)
  ∧ (lookbackPeriod * 2 ≤ length (Data bts) -> series = Sort bts)
  ∧ well_separated tolerance (SupportLevels levels)
  ∧ well_separated tolerance (ResistanceLevels levels)
  ∧ (forall lo hi,
       Forall (fun bar => (lo <= toR (Low bar) <= hi)%R) (Data bts) ->
       Forall (fun v => (lo <= toR v <= hi)%R) (SupportLevels levels))
  ∧ (forall lo hi,
       Forall (fun bar => (lo <= toR (High bar) <= hi)%R) (Data bts) ->
       Forall (fun v => (lo <= toR v <= hi)%R) (ResistanceLevels levels)).
Proof.
  intros Hpos. cbv zeta. unfold FindSupportResistanceLevels.
  destruct (decide (length (Data bts) < lookbackPeriod * 2)) as [Hshort|Hlong].
  { cbn [fst snd]. split; [done|]. split; [lia|].
    split; [exact I|]. split; [exact I|]. split; intros; constructor. }
  pose proof (level_candidates (Data (Sort bts)) lookbackPeriod lookbackPeriod
                (length (Data (Sort bts)) - lookbackPeriod) ltac:(lia)) as Hcand.
  destruct (for_range _ _ _ _) as [s r]. cbn [fst snd SupportLevels ResistanceLevels].
  destruct Hcand as [Hs Hr].
  assert (HLow : forall (P : F -> Prop),
            Forall (fun bar => P (Low bar)) (Data bts) -> Forall P s).
  { intros P HP. eapply Forall_impl; [exact Hs|]. intros v Hv. simpl in Hv.
    apply (list_elem_of_fmap_1 Low) in Hv. destruct Hv as (p & -> & Hp).
    rewrite Forall_forall in HP. apply HP, Sort_elem, Hp. }
  assert (HHigh : forall (P : F -> Prop),
            Forall (fun bar => P (High bar)) (Data bts) -> Forall P r).
  { intros P HP. eapply Forall_impl; [exact Hr|]. intros v Hv. simpl in Hv.
    apply (list_elem_of_fmap_1 High) in Hv. destruct Hv as (p & -> & Hp).
    rewrite Forall_forall in HP. apply HP, Sort_elem, Hp. }
  split; [lia|]. split; [reflexivity|].
  split; [|split; [|split]].
  - apply clusterLevels_separated, HLow.
    eapply Forall_impl; [exact Hpos|]. intros bar [Hl _]. exact Hl.
  - apply clusterLevels_separated, HHigh.
    eapply Forall_impl; [exact Hpos|]. intros bar [_ Hh]. exact Hh.
  - intros lo hi Hb. apply clusterLevels_bounds, (HLow (fun v => (lo <= toR v <= hi)%R)), Hb.
  - intros lo hi Hb. apply clusterLevels_bounds, (HHigh (fun v => (lo <= toR v <= hi)%R)), Hb.
Qed.
End LevelsProps.

(** ** package analyzer *)

Section AnalysisProps.
Context {F : Type} `{Float64Ops F} `{Float64Math F}.

Lemma PerformComprehensiveAnalysis_short (bts : BTCTimeSeries F) :
  length (Data bts) < 2 -> PerformComprehensiveAnalysis bts = (BTCAnalytics_zero, bts).
Proof.
  intros Hlt. unfold PerformComprehensiveAnalysis. rewrite decide_True by lia. done.
Qed.

Lemma PerformComprehensiveAnalysis_fields (bts : BTCTimeSeries F) :
  2 ≤ length (Data bts) ->
  let analytics := (PerformComprehensiveAnalysis bts).1 in
  PriceStats analytics = Calculate (GetClosePrices bts)
  ∧ VolumeStats analytics = Calculate (GetVolumeData bts)
  ∧ Returns analytics = CalculateReturns bts
  ∧ RSI analytics = (if decide (14 ≤ length (Data bts)) then CalculateRSI bts 14 else [])
  ∧ MACD_ analytics = (if decide (26 ≤ length (Data bts)) then CalculateMACD bts 12 26 9
                       else MACDData_zero)
  ∧ BollingerBands analytics
    = (if decide (20 ≤ length (Data bts)) then CalculateBollingerBands bts 20 (fromZ 2)
       else BollingerBandsData_zero)
  ∧ (PerformComprehensiveAnalysis bts).2
    = (if decide (10 ≤ length (Data bts)) then Sort bts else bts).
Proof.
  intros Hle. cbv zeta. unfold PerformComprehensiveAnalysis.
  rewrite decide_False by lia.
  destruct (if decide (0 < length (CalculateReturns bts)) then _ else _) as [[v s] m].
  destruct (decide (10 ≤ length (Data bts))) as [H10|H10].
  - unfold FindSupportResistanceLevels. rewrite decide_False by lia.
    destruct (for_range _ _ _ _) as [sl rl]. cbn. done.
  - cbn. done.
Qed.

Lemma PerformComprehensiveAnalysis_lengths (bts : BTCTimeSeries F) :
  let analytics := (PerformComprehensiveAnalysis bts).1 in
  let n := length (Data bts) in
  length (Returns analytics) = n - 1
  ∧ length (RSI analytics) = n - 14
  ∧ length (MACD (MACD_ analytics)) = n - 25
  ∧ length (Signal (MACD_ analytics)) = n - 33
  ∧ length (Histogram (MACD_ analytics)) = n - 33
  ∧ length (Upper (BollingerBands analytics)) = n - 19
  ∧ length (Middle (BollingerBands analytics)) = n - 19
  ∧ length (Lower (BollingerBands analytics)) = n - 19.
Proof.
  cbv zeta.
  destruct (decide (length (Data bts) < 2)) as [Hshort|Hlong].
  { rewrite PerformComprehensiveAnalysis_short by exact Hshort. cbn.
    repeat split; lia. }
  destruct (PerformComprehensiveAnalysis_fields bts ltac:(lia))
    as (_ & _ & -> & -> & -> & -> & _).
  split; [apply CalculateReturns_length; lia|].
  split.
  { destruct (decide (14 ≤ length (Data bts))); [|simpl; lia].
    destruct (decide (length (Data bts) < 14 + 1)) as [H14|H15].
    - rewrite CalculateRSI_short by exact H14. simpl. lia.
    - apply CalculateRSI_slots. lia. }
  split; [|split; [|split]].
  1-3: destruct (decide (26 ≤ length (Data bts))) as [H26|H26]; [|simpl; lia].
  1-3: destruct (CalculateMACD_shape bts 12 26 9 H26) as (Hm & Hs & Hh & _);
       cbv zeta in Hm, Hs, Hh.
  - lia.
  - rewrite Hs.
    destruct (decide (length (MACD (CalculateMACD bts 12 26 9)) < 9)) as [Hlt|Hge].
    + rewrite calculateEMA_short by exact Hlt. simpl. lia.
    + rewrite calculateEMA_length by lia. lia.
  - rewrite Hh, Hs.
    destruct (decide (length (MACD (CalculateMACD bts 12 26 9)) < 9)) as [Hlt|Hge].
    + rewrite calculateEMA_short by exact Hlt. simpl. lia.
    + rewrite calculateEMA_length by lia. lia.
  - destruct (decide (20 ≤ length (Data bts))) as [H20|H20]; [|simpl; lia].
    rewrite CalculateBollingerBands_tabulate by exact H20. cbn.
    rewrite !length_fmap, !length_seq. lia.
Qed.
End AnalysisProps.

Section SignalTable.
Context {F : Type} `{Float64Ops F} `{Float64Math F}.

Lemma from_table_insert (k v : string) (signals : gmap string string) :
  (k, v) ∈ signal_table -> from_table signals -> from_table (<[k := v]> signals).
Proof.
  intros Hkv Hs k' v'. destruct (decide (k' = k)) as [->|Hne].
  - rewrite lookup_insert_eq. intros [= <-]. exact Hkv.
  - rewrite lookup_insert_ne by congruence. apply Hs.
Qed.

Ltac table_step :=
  repeat (match goal with |- context [if ?c then _ else _] => destruct c end);
  try assumption;
  repeat (apply from_table_insert; [unfold signal_table; in_list|]);
  assumption.

Lemma rsi_signal_table (analytics : BTCAnalytics F) signals :
  from_table signals -> from_table (rsi_signal analytics signals).
Proof. intros Hs. unfold rsi_signal. table_step. Qed.

Lemma macd_signal_table (analytics : BTCAnalytics F) signals :
  from_table signals -> from_table (macd_signal analytics signals).
Proof. intros Hs. unfold macd_signal. table_step. Qed.

(** What the Bollinger block does when it returns: nothing without
    bands, and otherwise one entry under its key. *)
Lemma bollinger_signal_inv (analytics : BTCAnalytics F) signals bts r :
  bollinger_signal analytics (signals, bts) = Some r ->
  (Upper (BollingerBands analytics) = [] ∧ r = (signals, bts))
  ∨ (Upper (BollingerBands analytics) ≠ []
     ∧ exists text, ("Bollinger", text) ∈ signal_table
                    ∧ r.1 = <["Bollinger" := text]> signals).
Proof.
  unfold bollinger_signal.
  destruct (decide (0 < length (Upper (BollingerBands analytics)))) as [Hlen|Hlen].
  - destruct (GetLatestPrice bts) as [bar bts'].
    destruct (Lower _ !! _) as [lower|]; [|discriminate].
    intros Hr. apply (inj Some) in Hr. subst r. right.
    split; [intros Hnil; rewrite Hnil in Hlen; simpl in Hlen; lia|].
    cbn [fst].
    repeat (match goal with |- context [if ?c then _ else _] => destruct c end);
      (eexists; split; [|reflexivity]; unfold signal_table; in_list).
  - intros Hr. apply (inj Some) in Hr. subst r. left.
    split; [|reflexivity].
    destruct (Upper (BollingerBands analytics)); [done|simpl in Hlen; lia].
Qed.

(** The Bollinger block panics exactly when the lower band is shorter
    than the upper one. *)
Lemma bollinger_signal_panics (analytics : BTCAnalytics F) st :
  bollinger_signal analytics st = None
  <-> length (Lower (BollingerBands analytics))
      < length (Upper (BollingerBands analytics)).
Proof.
  destruct st as [signals bts]. unfold bollinger_signal.
  destruct (decide (0 < length (Upper (BollingerBands analytics)))) as [Hlen|Hlen].
  - destruct (GetLatestPrice bts) as [bar bts'].
    destruct (Lower _ !! _) as [lower|] eqn:Hlower.
    + apply lookup_lt_Some in Hlower. split; [discriminate|lia].
    + apply lookup_ge_None in Hlower. split; [lia|reflexivity].
  - split; [discriminate|lia].
Qed.

Lemma bollinger_signal_table (analytics : BTCAnalytics F) signals bts r :
  bollinger_signal analytics (signals, bts) = Some r ->
  from_table signals -> from_table r.1.
Proof.
  intros Hr Hs.
  destruct (bollinger_signal_inv _ _ _ _ Hr) as [[_ ->]|(_ & text & Htext & ->)];
    [exact Hs|].
  apply from_table_insert; assumption.
Qed.

Lemma trend_signal_table (bts : BTCTimeSeries F) signals :
  from_table signals -> from_table (trend_signal bts signals).
Proof. intros Hs. unfold trend_signal. table_step. Qed.

Lemma level_signal_table (analytics : BTCAnalytics F) signals bts :
  from_table signals -> from_table (level_signal analytics (signals, bts)).1.
Proof.
  intros Hs. unfold level_signal.
  destruct (decide _); [|exact Hs].
  destruct (GetLatestPrice bts) as [bar bts']. cbn [fst]. table_step.
Qed.

(** Each block writes its own key only. *)
Lemma rsi_signal_other (analytics : BTCAnalytics F) signals k :
  k ≠ "RSI" -> rsi_signal analytics signals !! k = signals !! k.
Proof.
  intros Hk. unfold rsi_signal.
  repeat (match goal with |- context [if ?c then _ else _] => destruct c end);
    try reflexivity; apply lookup_insert_ne; congruence.
Qed.

Lemma macd_signal_other (analytics : BTCAnalytics F) signals k :
  k ≠ "MACD" -> macd_signal analytics signals !! k = signals !! k.
Proof.
  intros Hk. unfold macd_signal.
  repeat (match goal with |- context [if ?c then _ else _] => destruct c end);
    try reflexivity; apply lookup_insert_ne; congruence.
Qed.

Lemma bollinger_signal_other (analytics : BTCAnalytics F) signals bts r k :
  bollinger_signal analytics (signals, bts) = Some r ->
  k ≠ "Bollinger" -> r.1 !! k = signals !! k.
Proof.
  intros Hr Hk.
  destruct (bollinger_signal_inv _ _ _ _ Hr) as [[_ ->]|(_ & text & _ & ->)];
    [reflexivity|].
  apply lookup_insert_ne. congruence.
Qed.

Lemma trend_signal_other (bts : BTCTimeSeries F) signals k :
  k ≠ "Trend" -> trend_signal bts signals !! k = signals !! k.
Proof.
  intros Hk. unfold trend_signal.
  repeat (match goal with |- context [if ?c then _ else _] => destruct c end);
    apply lookup_insert_ne; congruence.
Qed.

Lemma level_signal_other (analytics : BTCAnalytics F) signals bts k :
  k ≠ "Support" -> k ≠ "Resistance" ->
  (level_signal analytics (signals, bts)).1 !! k = signals !! k.
Proof.
  intros Hs Hr. unfold level_signal.
  destruct (decide _); [|reflexivity].
  destruct (GetLatestPrice bts) as [bar bts']. cbn [fst].
  repeat (match goal with |- context [if ?c then _ else _] => destruct c end);
    rewrite ?lookup_insert_ne by congruence; reflexivity.
Qed.

Lemma rsi_signal_own (analytics : BTCAnalytics F) :
  is_Some (rsi_signal analytics ∅ !! "RSI") <-> RSI analytics ≠ [].
Proof.
  unfold rsi_signal. destruct (decide (0 < length (RSI analytics))) as [Hlen|Hlen].
  - split; [intros _ Hnil; rewrite Hnil in Hlen; simpl in Hlen; lia|].
    intros _.
    repeat (match goal with |- context [if ?c then _ else _] => destruct c end);
      rewrite lookup_insert_eq; eauto.
  - rewrite lookup_empty. split; [intros [? ?]; discriminate|].
    intros Hne. destruct (RSI analytics); [done|simpl in Hlen; lia].
Qed.

Lemma macd_signal_own (analytics : BTCAnalytics F) signals :
  signals !! "MACD" = None ->
  is_Some (macd_signal analytics signals !! "MACD")
  <-> 1 < length (MACD (MACD_ analytics)) ∧ 1 < length (Signal (MACD_ analytics)).
Proof.
  intros Hnone. unfold macd_signal. destruct (decide _) as [Hlen|Hlen].
  - split; [intros _; exact Hlen|]. intros _.
    repeat (match goal with |- context [if ?c then _ else _] => destruct c end);
      rewrite lookup_insert_eq; eauto.
  - rewrite Hnone. split; [intros [? ?]; discriminate|]. intros Hl. contradiction.
Qed.

Lemma bollinger_signal_own (analytics : BTCAnalytics F) signals bts r :
  bollinger_signal analytics (signals, bts) = Some r ->
  signals !! "Bollinger" = None ->
  is_Some (r.1 !! "Bollinger") <-> Upper (BollingerBands analytics) ≠ [].
Proof.
  intros Hr Hnone.
  destruct (bollinger_signal_inv _ _ _ _ Hr) as [[Hnil ->]|(Hne & text & _ & ->)].
  - cbn [fst]. rewrite Hnone, Hnil. split; [intros [? ?]; discriminate|done].
  - rewrite lookup_insert_eq. split; [intros _; exact Hne|eauto].
Qed.

Lemma trend_signal_own (bts : BTCTimeSeries F) signals :
  trend_signal bts signals !! "Trend"
  = Some (if decide (DetectTrend bts 30 = "uptrend") then "BUY - Uptrend detected"
          else if decide (DetectTrend bts 30 = "downtrend")
               then "SELL - Downtrend detected"
          else "HOLD - Sideways movement").
Proof.
  unfold trend_signal.
  repeat (match goal with |- context [if ?c then _ else _] => destruct c end);
    apply lookup_insert_eq.
Qed.

Lemma GetTradingSignals_panics (bts : BTCTimeSeries F) (analytics : BTCAnalytics F) :
  GetTradingSignals bts analytics = None
  <-> length (Lower (BollingerBands analytics))
      < length (Upper (BollingerBands analytics)).
Proof.
  rewrite <- (bollinger_signal_panics analytics
                (macd_signal analytics (rsi_signal analytics ∅), bts)).
  unfold GetTradingSignals.
  destruct (bollinger_signal _ _) as [[s3 bts3]|]; [|done].
  split; discriminate.
Qed.

Lemma GetTradingSignals_table (bts : BTCTimeSeries F) (analytics : BTCAnalytics F) r :
  GetTradingSignals bts analytics = Some r ->
  let signals := r.1 in
  (forall k v, signals !! k = Some v -> (k, v) ∈ signal_table)
  ∧ (is_Some (signals !! "RSI") <-> RSI analytics ≠ [])
  ∧ (is_Some (signals !! "MACD")
     <-> 1 < length (MACD (MACD_ analytics)) ∧ 1 < length (Signal (MACD_ analytics)))
  ∧ (is_Some (signals !! "Bollinger") <-> Upper (BollingerBands analytics) ≠ [])
  ∧ is_Some (signals !! "Trend").
Proof.
  cbv zeta. unfold GetTradingSignals.
  set (s1 := rsi_signal analytics ∅).
  set (s2 := macd_signal analytics s1).
  destruct (bollinger_signal analytics (s2, bts)) as [[s3 bts3]|] eqn:Hb; [|discriminate].
  pose proof (bollinger_signal_table analytics s2 bts _ Hb) as Htab.
  pose proof (fun k => bollinger_signal_other analytics s2 bts _ k Hb) as Hother.
  pose proof (bollinger_signal_own analytics s2 bts _ Hb) as Hown.
  cbn [fst] in Htab, Hother, Hown.
  intros Hr. apply (inj Some) in Hr. subst r.
  assert (Hempty : from_table (∅ : gmap string string))
    by (intros k v Hk; rewrite lookup_empty in Hk; discriminate).
  split; [|split; [|split; [|split]]].
  - apply level_signal_table, trend_signal_table, Htab, macd_signal_table,
      rsi_signal_table, Hempty.
  - rewrite level_signal_other, trend_signal_other, Hother by discriminate.
    unfold s2. rewrite macd_signal_other by discriminate. apply rsi_signal_own.
  - rewrite level_signal_other, trend_signal_other, Hother by discriminate.
    apply macd_signal_own. unfold s1. rewrite rsi_signal_other by discriminate.
    apply lookup_empty.
  - rewrite level_signal_other, trend_signal_other by discriminate.
    apply Hown. unfold s2, s1.
    rewrite macd_signal_other, rsi_signal_other by discriminate. apply lookup_empty.
  - rewrite level_signal_other by discriminate. rewrite trend_signal_own. eauto.
Qed.

(** The call returns whenever the lower band is not shorter than the
    upper one, and panics otherwise. *)
Lemma GetTradingSignals_cases (bts : BTCTimeSeries F) (analytics : BTCAnalytics F) :
  let bands := BollingerBands analytics in
  (length (Lower bands) < length (Upper bands) ->
   GetTradingSignals bts analytics = None)
  ∧ (length (Upper bands) ≤ length (Lower bands) ->
     exists r,
       GetTradingSignals bts analytics = Some r
       ∧ (forall k v, r.1 !! k = Some v -> (k, v) ∈ signal_table)
       ∧ (is_Some (r.1 !! "RSI") <-> RSI analytics ≠ [])
       ∧ (is_Some (r.1 !! "MACD")
          <-> 1 < length (MACD (MACD_ analytics))
              ∧ 1 < length (Signal (MACD_ analytics)))
       ∧ (is_Some (r.1 !! "Bollinger") <-> Upper bands ≠ [])
       ∧ is_Some (r.1 !! "Trend")).
Proof.
  cbv zeta. split.
  - apply GetTradingSignals_panics.
  - intros Hle.
    destruct (GetTradingSignals bts analytics) as [r|] eqn:Hr.
    + exists r. split; [reflexivity|]. apply (GetTradingSignals_table _ _ _ Hr).
    + apply GetTradingSignals_panics in Hr. lia.
Qed.
End SignalTable.

(** ** package dataloader *)

Section ValidateProps.
Context {F : Type} `{Float64Ops F}.

Lemma for_range_concat {A} (f : nat -> list A) (n : nat) :
  for_range 0 n (fun i acc => acc ++ f i) [] = concat (f <$> seq 0 n).
Proof.
  induction n as [|n IH]; [reflexivity|].
  rewrite for_range_snoc by lia. rewrite IH.
  rewrite seq_S, fmap_app, concat_app. simpl. rewrite app_nil_r. reflexivity.
Qed.

Lemma concat_tabulate_nil {A} (f : nat -> list A) (n : nat) :
  concat (f <$> seq 0 n) = [] <-> forall i, i < n -> f i = [].
Proof.
  induction n as [|n IH].
  - simpl. split; [intros _ i Hi; lia|reflexivity].
  - rewrite seq_S, fmap_app, concat_app. simpl. rewrite app_nil_r.
    split.
    + intros Hnil. apply app_eq_nil in Hnil as [Hl Hr].
      intros i Hi. destruct (decide (i = n)) as [->|Hne]; [exact Hr|].
      apply IH; [exact Hl|lia].
    + intros Hall. rewrite (proj2 IH) by (intros i Hi; apply Hall; lia).
      rewrite Hall by lia. reflexivity.
Qed.

(** The second loop adds an issue for each bar whose Unix time an
    earlier bar has. *)
Lemma duplicate_loop (data : list (BTCPrice F)) (issues : list string) :
  exists duplicates,
    (for_range 0 (length data) (duplicate_step data) (issues, ∅)).1
    = issues ++ duplicates
    ∧ (duplicates = [] <-> NoDup (map (fun bar => Unix (Timestamp bar)) data)).
Proof.
  set (stamps := map (fun bar => Unix (Timestamp bar)) data).
  pose (P := fun (h : nat) (st : list string * gset Z) =>
    exists duplicates,
      st.1 = issues ++ duplicates
      ∧ (forall t, t ∈ st.2 <-> t ∈ take h stamps)
      ∧ (duplicates = [] <-> NoDup (take h stamps))).
  assert (Hinv : P (length data)
                   (for_range 0 (length data) (duplicate_step data) (issues, ∅))).
  { apply (for_range_ind P); unfold P; [lia| |].
    - exists []. simpl. rewrite app_nil_r. split; [reflexivity|].
      split; [intros t; rewrite elem_of_empty, elem_of_nil; tauto|].
      split; [intros _; constructor|reflexivity].
    - intros i [iss seen] Hi (dups & Hiss & Hseen & Hdups). simpl in Hiss, Hseen.
      assert (Hstamp : stamps !! i = Some (Unix (Timestamp (data !!! i)))).
      { unfold stamps. rewrite list_lookup_fmap.
        rewrite (list_lookup_lookup_total_lt data i) by lia. reflexivity. }
      rewrite (take_S_r _ _ _ Hstamp).
      unfold duplicate_step.
      set (timestamp := Unix (Timestamp (data !!! i))) in *.
      assert (Hnodup : NoDup (take i stamps ++ [timestamp])
                       <-> NoDup (take i stamps) ∧ timestamp ∉ take i stamps).
      { rewrite NoDup_app. split.
        - intros (Hl & Hd & _). split; [exact Hl|]. intros Hin.
          apply (Hd _ Hin). apply list_elem_of_here.
        - intros [Hl Hnin]. split; [exact Hl|]. split; [|apply NoDup_singleton].
          intros t Ht Ht'. apply list_elem_of_singleton in Ht'. subst t. contradiction. }
      destruct (decide (timestamp ∈ seen)) as [Hin|Hnin].
      + exists (dups ++ [issue_at "Duplicate timestamp at index " i]). simpl.
        split; [rewrite Hiss, app_assoc; reflexivity|]. split.
        * intros t. rewrite elem_of_union, elem_of_singleton, elem_of_app,
            list_elem_of_singleton, Hseen. tauto.
        * rewrite Hnodup. split.
          -- intros Hnil. apply app_eq_nil in Hnil as [_ Hnil]. discriminate.
          -- intros [_ Hnot]. exfalso. apply Hnot, Hseen, Hin.
      + exists dups. simpl. split; [exact Hiss|]. split.
        * intros t. rewrite elem_of_union, elem_of_singleton, elem_of_app,
            list_elem_of_singleton, Hseen. tauto.
        * rewrite Hnodup, Hdups. split; [intros Hn; split; [exact Hn|]|tauto].
          intros Hin. apply Hnin, Hseen, Hin. }
  destruct Hinv as (dups & Hiss & _ & Hdups).
  exists dups. split; [exact Hiss|].
  rewrite Hdups. unfold stamps. rewrite <- (length_map (fun bar => Unix (Timestamp bar))).
  rewrite firstn_all. reflexivity.
Qed.

Lemma ValidateData_empty (now : nat -> Z) (bts : BTCTimeSeries F) :
  Data bts = [] -> ValidateData now bts = ["No data points found"].
Proof. intros Hnil. unfold ValidateData. rewrite Hnil. reflexivity. Qed.

Lemma ValidateData_clean (now : nat -> Z) (bts : BTCTimeSeries F) :
  ValidateData now bts = []
  <-> Data bts ≠ []
      ∧ (forall i, i < length (Data bts) -> bar_issues (now i) i (Data bts !!! i) = [])
      ∧ NoDup (map (fun bar => Unix (Timestamp bar)) (Data bts)).
Proof.
  unfold ValidateData.
  destruct (decide (length (Data bts) = 0)) as [Hz|Hnz].
  { apply length_zero_iff_nil in Hz. split; [discriminate|].
    intros [Hne _]. contradiction. }
  assert (Hne : Data bts ≠ []) by (intros Hnil; rewrite Hnil in Hnz; done).
  rewrite (for_range_concat (fun i => bar_issues (now i) i (Data bts !!! i))).
  destruct (duplicate_loop (Data bts)
              (concat ((fun i => bar_issues (now i) i (Data bts !!! i))
                       <$> seq 0 (length (Data bts))))) as (dups & -> & Hdups).
  rewrite <- Hdups, <- concat_tabulate_nil.
  split.
  - intros Hnil. apply app_eq_nil in Hnil as [Hl Hr]. done.
  - intros (_ & -> & ->). reflexivity.
Qed.
End ValidateProps.

Section ValidateExact.
Context {F : Type} `{ExactArith F}.

Lemma issue_nil (c : bool) (message : string) :
  (if c then [message] else []) = [] <-> c = false.
Proof. destruct c; split; intros Hc; first [discriminate|reflexivity]. Qed.

Lemma bar_issues_nil (now : Z) (i : nat) (bar : BTCPrice F) :
  bar_issues now i bar = [] <-> well_formed now bar.
Proof.
  unfold bar_issues, well_formed.
  rewrite !app_nil, !issue_nil, !orb_false_iff.
  rewrite !fleb_gt, !fltb_ge, Z.ltb_ge, !toR_fromZ.
  split.
  - intros ((((HO & HH) & HL) & HC) & HHL & (HHO & HHC) & (HLO & HLC) & HV & HT).
    repeat split; first [lra|lia].
  - intros ((HO & HH & HL & HC) & (HLO & HOH) & (HLC & HCH) & HV & HT).
    repeat split; first [lra|lia].
Qed.

Lemma ValidateData_well_formed (now : nat -> Z) (bts : BTCTimeSeries F) :
  ValidateData now bts = []
  <-> Data bts ≠ []
      ∧ (forall i bar, Data bts !! i = Some bar -> well_formed (now i) bar)
      ∧ NoDup (map (fun bar => Unix (Timestamp bar)) (Data bts)).
Proof.
  rewrite ValidateData_clean. split; intros (Hne & Hbars & Hdup);
    (split; [exact Hne|split; [|exact Hdup]]).
  - intros i bar Hbar. pose proof (lookup_lt_Some _ _ _ Hbar) as Hi.
    apply (bar_issues_nil (now i) i).
    rewrite <- (list_lookup_total_correct _ _ _ Hbar). apply Hbars, Hi.
  - intros i Hi. apply bar_issues_nil, Hbars.
    apply list_lookup_lookup_total_lt, Hi.
Qed.
End ValidateExact.

Section SampleProps.
Context {F : Type} `{ExactArith F}.

(** One generated day: a well-formed bar that opens at the price the
    day before closed at. *)
Lemma sample_step_bar (stamp : nat -> Z) (i : nat) (bts : BTCTimeSeries F)
    (currentPrice : F) (now : Z) :
  exists bar,
    sample_step stamp i (bts, currentPrice) = (AddPrice bts bar, Close bar)
    ∧ Timestamp bar = stamp i ∧ Open bar = currentPrice
    ∧ ((0 < toR currentPrice)%R -> (stamp i <= now)%Z ->
       well_formed now bar ∧ (0 < toR (Close bar))%R).
Proof.
  unfold sample_step. cbv zeta. eexists.
  split; [apply (f_equal2 pair); [reflexivity|reflexivity]|].
  cbn [Timestamp Open High Low Close Volume].
  split; [reflexivity|]. split; [reflexivity|].
  intros Hpos Hstamp.
  set (change := ((fromZ (Z.of_nat (i mod 10)) - lit 45 10) / fromZ 100)%f64).
  assert (Hchange : (- (45 / 1000) <= toR change <= 45 / 1000)%R).
  { unfold change. rewrite toR_div by (rewrite toR_fromZ; lra).
    rewrite toR_sub, toR_lit, !toR_fromZ by lia.
    assert (Hmod : (0 <= IZR (Z.of_nat (i mod 10)) <= 9)%R).
    { pose proof (Nat.mod_upper_bound i 10 ltac:(lia)) as Hub.
      split; [apply IZR_le; lia|apply IZR_le; lia]. }
    lra. }
  assert (Habs : (0 <= Rabs (toR change) <= 45 / 1000)%R
                 ∧ (- Rabs (toR change) <= toR change <= Rabs (toR change))%R).
  { unfold Rabs. destruct (Rcase_abs (toR change)); lra. }
  assert (Hvol : (0 <= IZR (Z.of_nat (i mod 100)))%R) by (apply IZR_le; lia).
  unfold well_formed. cbn [Timestamp Open High Low Close Volume].
  fold change.
  repeat (rewrite ?toR_mul, ?toR_add, ?toR_sub, ?toR_abs, ?toR_fromZ;
          rewrite ?toR_lit by lia).
  set (c := toR change) in *. set (a := Rabs c) in *. set (p := toR currentPrice) in *.
  repeat split; try exact Hstamp; nra.
Qed.

Lemma GenerateSampleData_bars (stamp : nat -> Z) (now : nat -> Z) (days : nat)
    (startPrice : F) :
  (0 < toR startPrice)%R ->
  (forall i, i < days -> (stamp i <= now i)%Z) ->
  let bts := GenerateSampleData stamp days startPrice in
  Symbol bts = "BTC-USD-SAMPLE"
  ∧ length (Data bts) = days
  ∧ (forall i bar, Data bts !! i = Some bar ->
       well_formed (now i) bar ∧ Timestamp bar = stamp i)
  ∧ (forall bar, Data bts !! 0 = Some bar -> Open bar = startPrice)
  ∧ (forall i prev bar, Data bts !! i = Some prev -> Data bts !! (S i) = Some bar ->
       Open bar = Close prev).
Proof.
  intros Hpos Hstamp. cbv zeta. unfold GenerateSampleData.
  pose (P := fun (h : nat) (st : BTCTimeSeries F * F) =>
    Symbol st.1 = "BTC-USD-SAMPLE"
    ∧ length (Data st.1) = h
    ∧ (0 < toR st.2)%R
    ∧ (forall i bar, Data st.1 !! i = Some bar ->
         well_formed (now i) bar ∧ Timestamp bar = stamp i)
    ∧ (forall bar, Data st.1 !! 0 = Some bar -> Open bar = startPrice)
    ∧ (forall i prev bar, Data st.1 !! i = Some prev -> Data st.1 !! (S i) = Some bar ->
         Open bar = Close prev)
    ∧ (forall bar, last (Data st.1) = Some bar -> Close bar = st.2)
    ∧ (h = 0 -> st.2 = startPrice)).
  assert (Hinv : P days (for_range 0 days (sample_step stamp)
                           (New "BTC-USD-SAMPLE", startPrice))).
  { apply (for_range_ind P); unfold P; [lia| |].
    - simpl. repeat split; try done.
    - intros i [bts cur] Hi (Hsym & Hlen & Hcur & Hbars & Hfirst & Hchain & Hlast & Hzero).
      simpl in Hsym, Hlen, Hcur, Hbars, Hfirst, Hchain, Hlast, Hzero.
      destruct (sample_step_bar stamp i bts cur (now i))
        as (bar & -> & Hts & Hopen & Hwf).
      destruct (Hwf Hcur (Hstamp i ltac:(lia))) as [Hbar Hclose].
      cbn [fst snd AddPrice Data Symbol].
      split; [exact Hsym|]. split; [rewrite length_app; simpl; lia|].
      split; [exact Hclose|]. split; [|split; [|split; [|split]]].
      + intros j b Hj. apply lookup_app_Some in Hj as [Hj|[Hge Hj]].
        * apply Hbars, Hj.
        * rewrite Hlen in Hj, Hge. apply list_lookup_singleton_Some in Hj as [Hj <-].
          replace j with i by lia. done.
      + intros b Hb. apply lookup_app_Some in Hb as [Hb|[Hge Hb]].
        * apply Hfirst, Hb.
        * rewrite Hlen in Hb, Hge. apply list_lookup_singleton_Some in Hb as [Hb <-].
          rewrite Hopen. apply Hzero. lia.
      + intros j prev b Hprev Hb.
        apply lookup_app_Some in Hb as [Hb|[Hge Hb]].
        * apply (Hchain j prev b); [|exact Hb].
          apply lookup_app_Some in Hprev as [Hprev|[Hge' _]]; [exact Hprev|].
          apply lookup_lt_Some in Hb. lia.
        * rewrite Hlen in Hb, Hge. apply list_lookup_singleton_Some in Hb as [Hb <-].
          assert (Hj : j = length (Data bts) - 1 ∧ 0 < length (Data bts)) by lia.
          apply lookup_app_Some in Hprev as [Hprev|[Hge' _]]; [|lia].
          rewrite Hopen. symmetry. apply Hlast.
          rewrite last_lookup.
          replace (Init.Nat.pred (length (Data bts))) with j by lia. exact Hprev.
      + intros b Hb. rewrite last_snoc in Hb. injection Hb as <-. reflexivity.
      + intros Hz. lia. }
  destruct Hinv as (Hsym & Hlen & _ & Hbars & Hfirst & Hchain & _).
  destruct (for_range 0 days (sample_step stamp) _) as [bts cur]. simpl in *.
  done.
Qed.

(** The sample data passes the validation. *)
Lemma GenerateSampleData_valid (stamp : nat -> Z) (now : nat -> Z) (days : nat)
    (startPrice : F) :
  1 ≤ days ->
  (0 < toR startPrice)%R ->
  (forall i, i < days -> (stamp i <= now i)%Z) ->
  (forall i j, i < j < days -> Unix (stamp i) ≠ Unix (stamp j)) ->
  ValidateData now (GenerateSampleData stamp days startPrice) = [].
Proof.
  intros Hdays Hpos Hstamp Hdistinct.
  destruct (GenerateSampleData_bars stamp now days startPrice Hpos Hstamp)
    as (_ & Hlen & Hbars & _).
  cbv zeta in Hlen, Hbars.
  set (bts := GenerateSampleData stamp days startPrice) in *.
  apply ValidateData_well_formed.
  split; [intros Hnil; rewrite Hnil in Hlen; simpl in Hlen; lia|].
  split; [intros i bar Hbar; apply Hbars, Hbar|].
  apply NoDup_alt. intros i j t Hi Hj.
  rewrite list_lookup_fmap in Hi, Hj.
  destruct (Data bts !! i) as [bi|] eqn:Ei; [|discriminate].
  destruct (Data bts !! j) as [bj|] eqn:Ej; [|discriminate].
  simpl in Hi, Hj. injection Hi as Hi. injection Hj as Hj.
  destruct (Hbars i bi Ei) as [_ Hti]. destruct (Hbars j bj Ej) as [_ Htj].
  apply lookup_lt_Some in Ei, Ej. rewrite Hlen in Ei, Ej.
  rewrite Hti in Hi. rewrite Htj in Hj.
  destruct (Nat.lt_trichotomy i j) as [Hlt|[Heq|Hgt]]; [|exact Heq|].
  - exfalso. apply (Hdistinct i j); [lia|]. congruence.
  - exfalso. apply (Hdistinct j i); [lia|]. congruence.
Qed.
End SampleProps.

(** ** FindPivotPoints: order of the levels *)

Section PivotOrder.
Context {F : Type} `{ExactArith F}.

(** The result depends on the bar stored last only. *)
Lemma FindPivotPoints_of_last (bts : BTCTimeSeries F) (latest : BTCPrice F) :
  last (Data bts) = Some latest ->
  FindPivotPoints bts = FindPivotPoints {| Symbol := Symbol bts; Data := [latest] |}.
Proof.
  intros Hlast. unfold FindPivotPoints.
  assert (Hne : length (Data bts) ≠ 0).
  { intros Hz. apply length_zero_iff_nil in Hz. rewrite Hz in Hlast. discriminate. }
  rewrite decide_False by exact Hne.
  assert (Hlatest : Data bts !!! (length (Data bts) - 1) = latest).
  { apply list_lookup_total_correct. rewrite last_lookup in Hlast.
    replace (length (Data bts) - 1) with (Init.Nat.pred (length (Data bts))) by lia.
    exact Hlast. }
  rewrite Hlatest. reflexivity.
Qed.

Lemma FindPivotPoints_keys (bts : BTCTimeSeries F) (key : string) :
  is_Some (FindPivotPoints bts !! key) ->
  key ∈ ["pivot"; "r1"; "s1"; "r2"; "s2"; "r3"; "s3"].
Proof.
  unfold FindPivotPoints. destruct (decide _).
  - rewrite lookup_empty. intros [? ?]. discriminate.
  - cbv zeta. intros [v Hv].
    repeat (rewrite lookup_insert in Hv; destruct (decide (_ = key)) as [<-|];
            [in_list|]).
    rewrite lookup_empty in Hv. discriminate.
Qed.

Lemma FindPivotPoints_order (bts : BTCTimeSeries F) (latest : BTCPrice F) :
  last (Data bts) = Some latest ->
  (toR (Low latest) <= toR (Close latest) <= toR (High latest))%R ->
  exists pivot r1 s1 r2 s2 r3 s3 : F,
    (FindPivotPoints bts !! "pivot" = Some pivot
     ∧ FindPivotPoints bts !! "r1" = Some r1
     ∧ FindPivotPoints bts !! "s1" = Some s1
     ∧ FindPivotPoints bts !! "r2" = Some r2
     ∧ FindPivotPoints bts !! "s2" = Some s2
     ∧ FindPivotPoints bts !! "r3" = Some r3
     ∧ FindPivotPoints bts !! "s3" = Some s3)
    ∧ (toR (Low latest) <= toR pivot <= toR (High latest))%R
    ∧ (toR s3 <= toR s2)%R ∧ (toR s2 <= toR s1)%R ∧ (toR s1 <= toR pivot)%R
    ∧ (toR pivot <= toR r1)%R ∧ (toR r1 <= toR r2)%R ∧ (toR r2 <= toR r3)%R
    ∧ (toR r1 - toR pivot = toR pivot - toR (Low latest))%R
    ∧ (toR pivot - toR s1 = toR (High latest) - toR pivot)%R
    ∧ (toR r2 - toR pivot = toR (High latest) - toR (Low latest))%R
    ∧ (toR pivot - toR s2 = toR (High latest) - toR (Low latest))%R.
Proof.
  intros Hlast [Hlc Hch].
  destruct (FindPivotPoints_last bts latest Hlast)
    as (Hp & Hr1 & Hs1 & Hr2 & Hs2 & Hr3 & Hs3).
  eexists _, _, _, _, _, _, _.
  split; [repeat split; eassumption|].
  set (pivot := ((High latest + Low latest + Close latest) / fromZ 3)%f64).
  assert (Hpivot : toR pivot
                   = ((toR (High latest) + toR (Low latest) + toR (Close latest)) / 3)%R).
  { unfold pivot. rewrite toR_div by (rewrite toR_fromZ; lra).
    rewrite !toR_add, toR_fromZ. reflexivity. }
  rewrite !toR_sub, !toR_add, !toR_mul, !toR_sub, !toR_fromZ, Hpivot.
  repeat split; lra.
Qed.
End PivotOrder.

(** * Properties of the rest of the packages *)

(** ** timeseries *)

(** X2.  For every non-empty series, in whatever order its bars are
    stored, [GetTimeRange] returns the least and the greatest timestamp
    among its bars, and [GetLatestPrice] returns a bar of the series
    that has the greatest timestamp; both leave the series sorted. *)
Theorem GetLatestPrice_and_GetTimeRange {F : Type} `{Float64Ops F}
    (bts : BTCTimeSeries F) :
  Data bts ≠ [] ->
  let latest := (GetLatestPrice bts).1 in
  let first := (GetTimeRange bts).1.1 in
  let last := (GetTimeRange bts).1.2 in
  latest ∈ Data bts ∧ Timestamp latest = last
  ∧ first ∈ map Timestamp (Data bts)
  ∧ (forall p, p ∈ Data bts -> (first <= Timestamp p <= last)%Z)
  ∧ (GetLatestPrice bts).2 = Sort bts ∧ (GetTimeRange bts).2 = Sort bts.
Proof.
  intros Hne. unfold GetLatestPrice, GetTimeRange.
  destruct (decide (length (Data bts) = 0)) as [Hz|_].
  { apply length_zero_iff_nil in Hz. contradiction. }
  cbn [fst snd]. destruct (Sort_ends bts Hne) as (Hfirst & Hlast & Hall).
  cbv zeta in Hfirst, Hlast, Hall.
  split; [exact Hlast|]. split; [reflexivity|].
  split; [apply (list_elem_of_fmap_2 Timestamp), Hfirst|].
  split; [exact Hall|]. split; reflexivity.
Qed.

Lemma GetLatestPrice_and_GetTimeRange_witness :
  let bar t c : BTCPrice float :=
    {| Timestamp := t; Open := c; High := c; Low := c; Close := c; Volume := 0%float |} in
  let bts := {| Symbol := "BTC";
                Data := [bar 3%Z 30%float; bar 1%Z 10%float; bar 2%Z 20%float] |} in
  let latest := (GetLatestPrice bts).1 in
  let first := (GetTimeRange bts).1.1 in
  let last := (GetTimeRange bts).1.2 in
  latest ∈ Data bts ∧ Timestamp latest = last
  ∧ first ∈ map Timestamp (Data bts)
  ∧ (forall p, p ∈ Data bts -> (first <= Timestamp p <= last)%Z)
  ∧ (GetLatestPrice bts).2 = Sort bts ∧ (GetTimeRange bts).2 = Sort bts.
Proof.
  intros bar bts. apply (@GetLatestPrice_and_GetTimeRange float _ bts). discriminate.
Defined.

(** X4.  [FilterByDateRange] keeps, in their order, exactly the bars
    whose timestamp lies between [start] and [end], both ends included,
    and names the result after the series; the time range of a result
    that is not empty lies within [start] and [end]. *)
Theorem FilterByDateRange_inclusive {F : Type} `{Float64Ops F}
    (bts : BTCTimeSeries F) (start end_ : Z) :
  let filtered := FilterByDateRange bts start end_ in
  Symbol filtered = String.append (Symbol bts) "_filtered"
  ∧ Data filtered = filter (fun p => (start <= Timestamp p <= end_)%Z) (Data bts)
  ∧ (Data filtered ≠ [] ->
     (start <= (GetTimeRange filtered).1.1)%Z ∧ ((GetTimeRange filtered).1.2 <= end_)%Z).
Proof.
  simpl. destruct (FilterByDateRange_filter bts start end_) as [Hs Hd].
  split; [exact Hs|]. split; [exact Hd|].
  intros Hne. unfold GetTimeRange.
  destruct (decide (length (Data (FilterByDateRange bts start end_)) = 0)) as [Hz|_].
  { apply length_zero_iff_nil in Hz. contradiction. }
  cbn [fst snd]. destruct (Sort_ends _ Hne) as (Hfirst & Hlast & _).
  rewrite Hd in Hfirst, Hlast.
  apply list_elem_of_filter in Hfirst, Hlast. lia.
Qed.

(** X5.  In exact arithmetic, the bar [aggregateDayData] makes of the
    bars of a day has the day as its timestamp, the open of the first
    bar, the close of the last, the sum of the volumes, the greatest of
    the highs and the least of the lows. *)
Theorem aggregateDayData_summary {F : Type} `{ExactArith F}
    (dayData : list (BTCPrice F)) (day : Z) :
  dayData ≠ [] ->
  let daily := aggregateDayData dayData day in
  Timestamp daily = day
  ∧ Open daily = Open (dayData !!! 0)
  ∧ Close daily = Close (dayData !!! (length dayData - 1))
  ∧ Volume daily = sum_range (map Volume dayData)
  ∧ High daily ∈ map High dayData
  ∧ (forall p, p ∈ dayData -> (toR (High p) <= toR (High daily))%R)
  ∧ Low daily ∈ map Low dayData
  ∧ (forall p, p ∈ dayData -> (toR (Low daily) <= toR (Low p))%R).
Proof.
  intros Hne. simpl. rewrite (aggregateDayData_fields dayData day Hne). simpl.
  destruct dayData as [|p0 l]; [done|]. clear Hne.
  change ((p0 :: l) !!! 0) with p0.
  do 4 (split; [reflexivity|]).
  pose proof (fold_fmax_elem (High <$> (p0 :: l)) (High p0)) as Hmax.
  pose proof (fold_fmin_elem (Low <$> (p0 :: l)) (Low p0)) as Hmin.
  pose proof (fold_fmax_upper (High <$> (p0 :: l)) (High p0)) as Hup.
  pose proof (fold_fmin_lower (Low <$> (p0 :: l)) (Low p0)) as Hlo.
  apply Forall_cons in Hup as [_ Hup]. apply Forall_cons in Hlo as [_ Hlo].
  rewrite Forall_forall in Hup, Hlo.
  split; [|split; [|split]].
  - apply elem_of_cons in Hmax as [->|Hmax]; [apply list_elem_of_here|exact Hmax].
  - intros p Hp. apply Hup, (list_elem_of_fmap_2 High), Hp.
  - apply elem_of_cons in Hmin as [->|Hmin]; [apply list_elem_of_here|exact Hmin].
  - intros p Hp. apply Hlo, (list_elem_of_fmap_2 Low), Hp.
Qed.

Lemma aggregateDayData_summary_witness :
  let bar (o h l c v : Z) : BTCPrice Qc :=
    {| Timestamp := 0; Open := fromZ o; High := fromZ h; Low := fromZ l;
       Close := fromZ c; Volume := fromZ v |} in
  let dayData := [bar 10 12 9 11 5; bar 11 15 10 14 7; bar 14 14 8 9 3]%Z in
  let daily := aggregateDayData dayData 86400000000000 in
  Timestamp daily = 86400000000000%Z
  ∧ Open daily = Open (dayData !!! 0)
  ∧ Close daily = Close (dayData !!! (length dayData - 1))
  ∧ Volume daily = sum_range (map Volume dayData)
  ∧ High daily ∈ map High dayData
  ∧ (forall p, p ∈ dayData -> (toR (High p) <= toR (High daily))%R)
  ∧ Low daily ∈ map Low dayData
  ∧ (forall p, p ∈ dayData -> (toR (Low daily) <= toR (Low p))%R).
Proof.
  intros bar dayData.
  apply (@aggregateDayData_summary Qc _ _ dayData 86400000000000). discriminate.
Defined.

(** X6.  [ResampleToDaily] returns one bar for each calendar day that
    has bars, in ascending order of the days; the bar of a day is the
    aggregate ([aggregateDayData]) of the bars of that day, taken in the
    order [Sort] gives them. *)
Theorem ResampleToDaily_one_bar_per_day {F : Type} `{Float64Ops F}
    (bts : BTCTimeSeries F) :
  let daily := (ResampleToDaily bts).1 in
  Symbol daily = String.append (Symbol bts) "_daily"
  ∧ StronglySorted Z.lt (map Timestamp (Data daily))
  ∧ (forall d, d ∈ map Timestamp (Data daily) <-> exists p, p ∈ Data bts ∧ day_of p = d)
  ∧ (forall b, b ∈ Data daily ->
       b = aggregateDayData
             (filter (fun p => day_of p = Timestamp b) (Data (Sort bts)))
             (Timestamp b)).
Proof. apply ResampleToDaily_days. Qed.

(** ** indicators *)

(** X7.  [CalculateMovingAverage] returns nothing for a series shorter
    than the period and otherwise one value for each window of [period]
    consecutive closes, the sum of the window (taken from 0, left to
    right) over the period; the middle Bollinger band of the same period
    is this moving average, value for value. *)
Theorem CalculateMovingAverage_windows {F : Type} `{Float64Ops F} `{Float64Math F}
    (bts : BTCTimeSeries F) (period : nat) (stdDevFactor : F) :
  CalculateMovingAverage bts period
  = (if decide (length (Data bts) < period) then []
     else (fun k => simple_mean (drop k (GetClosePrices bts)) period)
          <$> seq 0 (length (Data bts) - period + 1))
  ∧ Middle (CalculateBollingerBands bts period stdDevFactor)
    = CalculateMovingAverage bts period.
Proof.
  destruct (decide (length (Data bts) < period)) as [Hshort|Hlong].
  - rewrite CalculateMovingAverage_short, CalculateBollingerBands_short by exact Hshort.
    done.
  - rewrite CalculateMovingAverage_tabulate, CalculateBollingerBands_tabulate by lia.
    split; [|reflexivity].
    apply list_eq. intros k. rewrite !list_lookup_fmap.
    destruct (seq _ _ !! k) as [j|] eqn:Hj; [|reflexivity]. simpl.
    apply lookup_seq in Hj as [-> Hlt].
    rewrite window_mean_simple_mean; [reflexivity|].
    unfold GetClosePrices. rewrite length_map. lia.
Qed.

(** X8.  In exact arithmetic with the real square root, for a period of
    at least 1 and a factor that is not negative, the Bollinger bands
    are ordered at every index, lower <= middle <= upper, and the middle
    band lies halfway between the other two. *)
Theorem CalculateBollingerBands_ordered {F : Type} `{ExactMath F}
    (bts : BTCTimeSeries F) (period : nat) (stdDevFactor : F) :
  1 ≤ period -> (0 <= toR stdDevFactor)%R ->
  let bands := CalculateBollingerBands bts period stdDevFactor in
  forall k u m l,
    Upper bands !! k = Some u -> Middle bands !! k = Some m ->
    Lower bands !! k = Some l ->
    (toR l <= toR m <= toR u)%R ∧ (toR u - toR m = toR m - toR l)%R.
Proof. apply CalculateBollingerBands_order. Qed.

Lemma CalculateBollingerBands_ordered_witness :
  let bts : BTCTimeSeries R := series_of_closes [100; 104; 98; 101]%R in
  let bands := CalculateBollingerBands bts 2 2%R in
  (0 <= toR 2%R)%R
  ∧ forall k u m l,
      Upper bands !! k = Some u -> Middle bands !! k = Some m ->
      Lower bands !! k = Some l ->
      (toR l <= toR m <= toR u)%R ∧ (toR u - toR m = toR m - toR l)%R.
Proof.
  intros bts.
  assert (Hfactor : (0 <= toR 2%R)%R) by (simpl; lra).
  split; [exact Hfactor|].
  apply (@CalculateBollingerBands_ordered R _ _ _ _ bts 2 2%R); [lia|exact Hfactor].
Defined.

(** X9.  In exact arithmetic, for a period of at least 1, every value of
    the moving average lies between any two bounds that hold all the
    closes. *)
Theorem CalculateMovingAverage_within_closes {F : Type} `{ExactArith F}
    (bts : BTCTimeSeries F) (period : nat) (lo hi : R) :
  1 ≤ period ->
  Forall (fun bar => (lo <= toR (Close bar) <= hi)%R) (Data bts) ->
  Forall (fun v => (lo <= toR v <= hi)%R) (CalculateMovingAverage bts period).
Proof.
  intros Hp Hall.
  destruct (decide (length (Data bts) < period)) as [Hshort|Hlong].
  { rewrite CalculateMovingAverage_short by exact Hshort. constructor. }
  rewrite CalculateMovingAverage_tabulate by lia.
  apply Forall_fmap, Forall_forall. intros k Hk. simpl.
  apply elem_of_seq in Hk.
  apply window_mean_bounds; [exact Hp| |].
  - unfold GetClosePrices. rewrite length_map. lia.
  - unfold GetClosePrices. apply Forall_map. exact Hall.
Qed.

Lemma CalculateMovingAverage_within_closes_witness :
  let bts : BTCTimeSeries Qc := series_of_closes (fromZ <$> [100; 120; 90; 130; 65]%Z) in
  Forall (fun v => (65 <= toR v <= 130)%R) (CalculateMovingAverage bts 3).
Proof.
  intros bts.
  apply (@CalculateMovingAverage_within_closes Qc _ _ bts 3 65%R 130%R); [lia|].
  repeat constructor; simpl; unfold Q2R; simpl; lra.
Defined.

(** X10.  In exact arithmetic, for a period of at least 1, every value
    of the exponential moving average lies between any two bounds that
    hold all the prices. *)
Theorem calculateEMA_within_prices {F : Type} `{ExactArith F}
    (prices : list F) (period : nat) (lo hi : R) :
  1 ≤ period ->
  Forall (fun c => (lo <= toR c <= hi)%R) prices ->
  Forall (fun v => (lo <= toR v <= hi)%R) (calculateEMA prices period).
Proof. apply calculateEMA_bounds. Qed.

Lemma calculateEMA_within_prices_witness :
  Forall (fun v : Qc => (65 <= toR v <= 130)%R)
    (calculateEMA (fromZ <$> [100; 120; 90; 130; 65]%Z) 3).
Proof.
  apply (@calculateEMA_within_prices Qc _ _ (fromZ <$> [100; 120; 90; 130; 65]%Z) 3
           65%R 130%R); [lia|].
  repeat constructor; simpl; unfold Q2R; simpl; lra.
Defined.

(** X11.  In exact arithmetic, for a period of at least 1 and bars
    whose close lies between their low and their high,
    [CalculateStochasticOscillator] returns nothing for a series shorter
    than the period and otherwise [len - kPeriod + 1] values, and every
    value lies between 0 and 100. *)
Theorem CalculateStochasticOscillator_between_0_and_100 {F : Type} `{ExactArith F}
    (bts : BTCTimeSeries F) (kPeriod : nat) :
  1 ≤ kPeriod ->
  Forall (fun bar => (toR (Low bar) <= toR (Close bar) <= toR (High bar))%R) (Data bts) ->
  length (CalculateStochasticOscillator bts kPeriod)
  = (if decide (length (Data bts) < kPeriod) then 0
     else length (Data bts) - kPeriod + 1)
  ∧ Forall in_0_100 (CalculateStochasticOscillator bts kPeriod).
Proof.
  intros Hp Hall.
  destruct (decide (length (Data bts) < kPeriod)) as [Hshort|Hlong].
  { rewrite CalculateStochasticOscillator_short by exact Hshort.
    split; [reflexivity|constructor]. }
  rewrite CalculateStochasticOscillator_tabulate by lia.
  split; [rewrite length_fmap, length_seq; reflexivity|].
  apply Forall_fmap, Forall_forall. intros k Hk. simpl.
  apply elem_of_seq in Hk.
  apply stochastic_value_range; [exact Hp|].
  rewrite Forall_forall in Hall. apply Hall.
  apply list_elem_of_lookup_total_2. lia.
Qed.

Lemma CalculateStochasticOscillator_between_0_and_100_witness :
  let bar (h l c : Z) : BTCPrice Qc :=
    {| Timestamp := 0; Open := fromZ c; High := fromZ h; Low := fromZ l;
       Close := fromZ c; Volume := fromZ 0 |} in
  let bts := {| Symbol := "BTC";
                Data := [bar 12 9 11; bar 15 10 14; bar 14 8 9; bar 9 9 9]%Z |} in
  length (CalculateStochasticOscillator bts 2) = 3
  ∧ Forall in_0_100 (CalculateStochasticOscillator bts 2).
Proof.
  intros bar bts.
  apply (@CalculateStochasticOscillator_between_0_and_100 Qc _ _ bts 2); [lia|].
  repeat constructor; simpl; unfold Q2R; simpl; lra.
Defined.

(** ** statistics *)

(** X12.  In exact arithmetic with the real square root, the statistics
    of a non-empty slice count its values, have as minimum and maximum
    values of the slice that bound all the others, a mean and a median
    between the minimum and the maximum, a variance that is not
    negative, and its square root as standard deviation. *)
Theorem Calculate_bounds {F : Type} `{ExactMath F} (values : list F) :
  values ≠ [] ->
  let stats := Calculate values in
  Count stats = length values
  ∧ Min stats ∈ values ∧ Max stats ∈ values
  ∧ (forall v, v ∈ values -> (toR (Min stats) <= toR v <= toR (Max stats))%R)
  ∧ (toR (Min stats) <= toR (Mean stats) <= toR (Max stats))%R
  ∧ (toR (Min stats) <= toR (Median stats) <= toR (Max stats))%R
  ∧ (0 <= toR (Variance stats))%R
  ∧ toR (StdDev stats) = R_sqrt.sqrt (toR (Variance stats)).
Proof. apply Calculate_summary. Qed.

Lemma Calculate_bounds_witness :
  let values := [3; 1; 2; 5]%R in
  let stats := Calculate values in
  Count stats = length values
  ∧ Min stats ∈ values ∧ Max stats ∈ values
  ∧ (forall v, v ∈ values -> (toR (Min stats) <= toR v <= toR (Max stats))%R)
  ∧ (toR (Min stats) <= toR (Mean stats) <= toR (Max stats))%R
  ∧ (toR (Min stats) <= toR (Median stats) <= toR (Max stats))%R
  ∧ (0 <= toR (Variance stats))%R
  ∧ toR (StdDev stats) = R_sqrt.sqrt (toR (Variance stats)).
Proof.
  intros values. apply (@Calculate_bounds R _ _ _ _ values). discriminate.
Defined.

(** X13.  [CalculateReturns] returns nothing for fewer than two bars and
    otherwise one return for each pair of consecutive bars, in order:
    the change of the close over the earlier close, and 0 when the
    earlier close is not above 0. *)
Theorem CalculateReturns_entries {F : Type} `{Float64Ops F} (bts : BTCTimeSeries F) :
  CalculateReturns bts
  = (if decide (length (Data bts) < 2) then []
     else (fun k =>
             if (Close (Data bts !!! k) >? fromZ 0)%f64
             then ((Close (Data bts !!! (k + 1)%nat) - Close (Data bts !!! k))
                   / Close (Data bts !!! k))%f64
             else fromZ 0)
          <$> seq 0 (length (Data bts) - 1)).
Proof.
  destruct (decide (length (Data bts) < 2)) as [Hshort|Hlong].
  - apply CalculateReturns_short, Hshort.
  - apply CalculateReturns_tabulate. lia.
Qed.

(** X14.  In exact arithmetic, for a series of at least two bars with
    closes above 0 and a start amount other than 0, [PerformBacktest]
    buys at the close of the bar with the earliest timestamp and values
    the holding at the close of the bar with the latest one, in whatever
    order the bars are stored; the total return does not depend on the
    amount, [1 + total_return] is the ratio of the two closes and the
    product of [1 + r] over the returns [CalculateReturns] gives for the
    sorted series, the end value is the amount times that factor, and
    days_held is the time between the two bars in days of 24 hours
    where that time fits a [Duration] (at most [2^63 - 1] ns, about 292
    years), and [2^63 - 1] ns in days where it does not. *)
Theorem PerformBacktest_total_return {F : Type} `{ExactArith F} `{!Float64Pow F}
    (bts : BTCTimeSeries F) (startAmount : F) :
  2 ≤ length (Data bts) ->
  toR startAmount <> 0%R ->
  Forall (fun bar => (0 < toR (Close bar))%R) (Data bts) ->
  let results := (PerformBacktest bts startAmount).1 in
  let sorted := (PerformBacktest bts startAmount).2 in
  let first := Data sorted !!! 0 in
  let last := Data sorted !!! (length (Data sorted) - 1) in
  sorted = Sort bts
  ∧ first ∈ Data bts ∧ last ∈ Data bts
  ∧ (forall p, p ∈ Data bts -> (Timestamp first <= Timestamp p <= Timestamp last)%Z)
  ∧ exists total endValue,
      results !! "total_return" = Some total
      ∧ results !! "end_value" = Some endValue
      ∧ (1 + toR total = toR (Close last) / toR (Close first))%R
      ∧ (1 + toR total)%R = compound (CalculateReturns sorted)
      ∧ (toR endValue = toR startAmount * (1 + toR total))%R
      ∧ exists days,
          results !! "days_held" = Some days
          ∧ ((Timestamp last - Timestamp first <= maxDuration)%Z ->
             toR days = (IZR (Timestamp last - Timestamp first) / IZR day_ns)%R)
          ∧ ((maxDuration < Timestamp last - Timestamp first)%Z ->
             toR days = (IZR maxDuration / IZR day_ns)%R).
Proof. apply PerformBacktest_growth. Qed.

Lemma PerformBacktest_total_return_witness :
  let bar t c : BTCPrice R :=
    {| Timestamp := t; Open := c; High := c; Low := c; Close := c; Volume := 0%R |} in
  let bts := {| Symbol := "BTC";
                Data := [bar 3%Z 120%R; bar 1%Z 100%R; bar 2%Z 90%R] |} in
  let results := (PerformBacktest bts 1000%R).1 in
  let sorted := (PerformBacktest bts 1000%R).2 in
  let first := Data sorted !!! 0 in
  let last := Data sorted !!! (length (Data sorted) - 1) in
  sorted = Sort bts
  ∧ first ∈ Data bts ∧ last ∈ Data bts
  ∧ (forall p, p ∈ Data bts -> (Timestamp first <= Timestamp p <= Timestamp last)%Z)
  ∧ exists total endValue,
      results !! "total_return" = Some total
      ∧ results !! "end_value" = Some endValue
      ∧ (1 + toR total = toR (Close last) / toR (Close first))%R
      ∧ (1 + toR total)%R = compound (CalculateReturns sorted)
      ∧ (toR endValue = toR 1000%R * (1 + toR total))%R
      ∧ exists days,
          results !! "days_held" = Some days
          ∧ ((Timestamp last - Timestamp first <= maxDuration)%Z ->
             toR days = (IZR (Timestamp last - Timestamp first) / IZR day_ns)%R)
          ∧ ((maxDuration < Timestamp last - Timestamp first)%Z ->
             toR days = (IZR maxDuration / IZR day_ns)%R).
Proof.
  intros bar bts.
  apply (@PerformBacktest_total_return R _ _ _ bts 1000%R).
  - simpl. lia.
  - simpl. lra.
  - repeat constructor; simpl; lra.
Defined.

(** Between Go's zero time and a bar 739616 days later [Time.Sub]
    saturates, and on [float64] the days held come out as 106751.99. *)
Example Hours_of_saturated_span :
  Sub (739616 * day_ns) 0 = maxDuration
  ∧ (Hours (Sub (739616 * day_ns) 0) / fromZ 24)%f64 = 0x1.a0fffdbd23e53p+16%float.
Proof. split; vm_compute; reflexivity. Qed.

(** X3.  In exact arithmetic, for closes above 0, the maximum drawdown
    [CalculateMaxDrawdown] returns is at least 0 and below 1. *)
Theorem CalculateMaxDrawdown_below_one {F : Type} `{ExactArith F}
    (bts : BTCTimeSeries F) :
  Forall (fun bar => (0 < toR (Close bar))%R) (Data bts) ->
  (0 <= toR (CalculateMaxDrawdown bts) < 1)%R.
Proof.
  intros Hpos. unfold CalculateMaxDrawdown.
  assert (Hprices : Forall (fun p => (0 < toR p)%R) (GetClosePrices bts)).
  { unfold GetClosePrices. apply Forall_map. exact Hpos. }
  destruct (GetClosePrices bts) as [|p0 l] eqn:Hp.
  - simpl. rewrite toR_fromZ. lra.
  - rewrite decide_False by (simpl; lia).
    change ((p0 :: l) !!! 0) with p0.
    apply drawdown_loop_range; [|rewrite toR_fromZ; lra|exact Hprices].
    apply Forall_cons in Hprices as [Hp0 _]. exact Hp0.
Qed.

Lemma CalculateMaxDrawdown_below_one_witness :
  let bts : BTCTimeSeries Qc := series_of_closes (fromZ <$> [100; 120; 90; 130; 65]%Z) in
  (0 <= toR (CalculateMaxDrawdown bts) < 1)%R.
Proof.
  apply (@CalculateMaxDrawdown_below_one Qc _ _).
  apply positive_closes_check. vm_compute. reflexivity.
Defined.

(** X15.  In exact arithmetic with the real square root, for at least
    one period a year: the annualized volatility is not negative and is
    0 exactly when all the returns are equal (or there is none); in that
    case the Sharpe ratio is 0, and otherwise it is the annualized mean
    less the risk-free rate, over the annualized volatility. *)
Theorem CalculateSharpeRatio_over_volatility {F : Type} `{ExactMath F}
    (returns : list F) (riskFreeRate : F) (periodsPerYear : nat) :
  1 ≤ periodsPerYear ->
  let volatility := CalculateVolatility returns periodsPerYear in
  let sharpeRatio := CalculateSharpeRatio returns riskFreeRate periodsPerYear in
  (0 <= toR volatility)%R
  ∧ (volatility = fromZ 0 <-> exists c, Forall (fun r => r = c) returns)
  ∧ (volatility = fromZ 0 -> sharpeRatio = fromZ 0)
  ∧ (volatility <> fromZ 0 ->
     toR sharpeRatio
     = ((toR (Mean (Calculate returns)) * INR periodsPerYear - toR riskFreeRate)
        / toR volatility)%R).
Proof.
  intros Hp. cbv zeta.
  destruct (CalculateVolatility_zero returns periodsPerYear Hp) as [Hnn Hzero].
  destruct (CalculateSharpeRatio_value returns riskFreeRate periodsPerYear Hp)
    as [Hconst Hvaried].
  split; [exact Hnn|]. split; [exact Hzero|].
  split; [intros Hv; apply Hconst, Hzero, Hv|].
  intros Hv.
  assert (Hno : ~ (exists c, Forall (fun r => r = c) returns))
    by (intros Hc; apply Hv, Hzero, Hc).
  destruct (Hvaried Hno) as [_ ->]. f_equal.
  unfold CalculateVolatility.
  destruct (decide (length returns = 0)) as [Hz|_].
  { exfalso. apply Hno. apply length_zero_iff_nil in Hz. subst returns.
    exists (fromZ 0). constructor. }
  rewrite toR_mul. f_equal.
  rewrite toR_sqrt by (rewrite toR_float64; apply pos_INR).
  rewrite toR_float64. reflexivity.
Qed.

Lemma CalculateSharpeRatio_over_volatility_witness :
  let returns := [1 / 100; - (2 / 100); 3 / 100]%R in
  let volatility := CalculateVolatility returns 365 in
  let sharpeRatio := CalculateSharpeRatio returns 0%R 365 in
  (0 <= toR volatility)%R
  ∧ (volatility = fromZ 0 <-> exists c, Forall (fun r => r = c) returns)
  ∧ (volatility = fromZ 0 -> sharpeRatio = fromZ 0)
  ∧ (volatility <> fromZ 0 ->
     toR sharpeRatio
     = ((toR (Mean (Calculate returns)) * INR 365 - toR 0%R) / toR volatility)%R).
Proof.
  intros returns.
  apply (@CalculateSharpeRatio_over_volatility R _ _ _ _ returns 0%R 365). lia.
Defined.

(** X16.  For a series of at least 30 bars [GetRiskMetrics] always
    returns the six entries volatility_annual, max_drawdown,
    sharpe_ratio, var_95, var_95_annual and beta_estimate, computed from
    the returns of the series as stored: var_95 is the mean less 1.645
    standard deviations, var_95_annual is var_95 times the square root
    of 365, beta_estimate is the volatility over 0.16; the only other
    keys it can return are cvar_95 and sortino_ratio. *)
Theorem GetRiskMetrics_keys {F : Type} `{Float64Ops F} `{Float64Math F}
    (bts : BTCTimeSeries F) :
  30 ≤ length (Data bts) ->
  let returns := CalculateReturns bts in
  let metrics := GetRiskMetrics bts in
  let var_95 := (Mean (Calculate returns)
                 - lit 1645 1000 * StdDev (Calculate returns))%f64 in
  metrics !! "volatility_annual" = Some (CalculateVolatility returns 365)
  ∧ metrics !! "max_drawdown" = Some (CalculateMaxDrawdown bts)
  ∧ metrics !! "sharpe_ratio" = Some (CalculateSharpeRatio returns (fromZ 0) 365)
  ∧ metrics !! "var_95" = Some var_95
  ∧ metrics !! "var_95_annual" = Some (var_95 * fsqrt (fromZ 365))%f64
  ∧ metrics !! "beta_estimate"
    = Some (CalculateVolatility returns 365 / lit 16 100)%f64
  ∧ forall key, is_Some (metrics !! key) ->
      key ∈ ["volatility_annual"; "max_drawdown"; "sharpe_ratio"; "var_95";
             "var_95_annual"; "cvar_95"; "sortino_ratio"; "beta_estimate"].
Proof. apply GetRiskMetrics_entries. Qed.

Lemma GetRiskMetrics_keys_witness :
  let bts := series_of_closes
               ((fun i => float_of_Z (100 + Z.of_nat ((i * i * 7) mod 13))) <$> seq 0 40) in
  let returns := CalculateReturns bts in
  let metrics := GetRiskMetrics bts in
  let var_95 := (Mean (Calculate returns)
                 - lit 1645 1000 * StdDev (Calculate returns))%f64 in
  metrics !! "volatility_annual" = Some (CalculateVolatility returns 365)
  ∧ metrics !! "max_drawdown" = Some (CalculateMaxDrawdown bts)
  ∧ metrics !! "sharpe_ratio" = Some (CalculateSharpeRatio returns (fromZ 0) 365)
  ∧ metrics !! "var_95" = Some var_95
  ∧ metrics !! "var_95_annual" = Some (var_95 * fsqrt (fromZ 365))%f64
  ∧ metrics !! "beta_estimate"
    = Some (CalculateVolatility returns 365 / lit 16 100)%f64
  ∧ forall key, is_Some (metrics !! key) ->
      key ∈ ["volatility_annual"; "max_drawdown"; "sharpe_ratio"; "var_95";
             "var_95_annual"; "cvar_95"; "sortino_ratio"; "beta_estimate"].
Proof.
  intros bts. apply (@GetRiskMetrics_keys float _ _ bts). vm_compute. lia.
Defined.

(** X17.  In exact arithmetic with the real square root, the
    correlation [CalculateCorrelation] computes lies between -1 and 1,
    does not depend on the order of its two arguments, and is 0 when the
    lengths differ or the series are empty. *)
Theorem CalculateCorrelation_between_minus_1_and_1 {F : Type} `{ExactMath F}
    (x y : list F) :
  (-1 <= toR (CalculateCorrelation x y) <= 1)%R
  ∧ CalculateCorrelation x y = CalculateCorrelation y x
  ∧ (length x ≠ length y ∨ length x = 0 -> CalculateCorrelation x y = fromZ 0).
Proof.
  split; [apply CalculateCorrelation_range|].
  split; [apply CalculateCorrelation_comm|].
  intros Hbad. unfold CalculateCorrelation. rewrite decide_True by exact Hbad.
  reflexivity.
Qed.

(** X18.  In exact arithmetic with the real square root, a series with
    two different values has correlation 1 with itself. *)
Theorem CalculateCorrelation_with_itself {F : Type} `{ExactMath F}
    (x : list F) (i j : nat) :
  i < length x -> j < length x -> x !!! i <> x !!! j ->
  CalculateCorrelation x x = fromZ 1.
Proof. apply CalculateCorrelation_self. Qed.

Lemma CalculateCorrelation_with_itself_witness :
  CalculateCorrelation [1; 2; 4]%R [1; 2; 4]%R = fromZ 1.
Proof.
  apply (@CalculateCorrelation_with_itself R _ _ _ _ [1; 2; 4]%R 0 1).
  - simpl. lia.
  - simpl. lia.
  - simpl. lra.
Defined.

(** ** analyzer: portfolio metrics *)

(** X19.  The portfolio metrics hold every entry of the backtest and
    every risk metric of the sorted series, unchanged, and besides them
    at most information_ratio, which is the annualized return over the
    annualized volatility and is present exactly when both are and the
    volatility is above 0; with fewer than 30 bars the portfolio metrics
    are the backtest results. *)
Theorem CalculatePortfolioMetrics_composition {F : Type}
    `{Float64Ops F} `{Float64Math F} `{Float64Pow F}
    (bts : BTCTimeSeries F) (initialInvestment : F) :
  let metrics := (CalculatePortfolioMetrics bts initialInvestment).1 in
  let backtest := (PerformBacktest bts initialInvestment).1 in
  let riskMetrics := GetRiskMetrics (Sort bts) in
  (forall key v, backtest !! key = Some v -> metrics !! key = Some v)
  ∧ (forall key v, riskMetrics !! key = Some v -> metrics !! key = Some v)
  ∧ (forall key, is_Some (metrics !! key) ->
       is_Some (backtest !! key) ∨ is_Some (riskMetrics !! key)
       ∨ key = "information_ratio")
  ∧ (length (Data bts) < 30 -> metrics = backtest)
  ∧ (metrics !! "information_ratio"
     = match riskMetrics !! "volatility_annual", backtest !! "annualized_return" with
       | Some volatility, Some annualized =>
           if (volatility >? fromZ 0)%f64 then Some (annualized / volatility)%f64
           else None
       | _, _ => None
       end).
Proof. apply CalculatePortfolioMetrics_parts. Qed.

(** ** patterns *)

(** X20.  In exact arithmetic, for [1 <= period <= len] and a close
    above 0 at the start of the window, [DetectTrend] answers "uptrend"
    exactly when the last close is more than 5% above the close [period]
    bars earlier (in the order stored), "downtrend" exactly when it is
    more than 5% below, and "sideways" in between, both bounds included;
    for every series it answers "insufficient_data" exactly when the
    series is shorter than the period. *)
Theorem DetectTrend_five_percent {F : Type} `{ExactArith F}
    (bts : BTCTimeSeries F) (period : nat) :
  1 ≤ period ≤ length (Data bts) ->
  let startPrice := toR (Close (Data bts !!! (length (Data bts) - period))) in
  let endPrice := toR (Close (Data bts !!! (length (Data bts) - 1))) in
  (0 < startPrice)%R ->
  (DetectTrend bts period = "uptrend" <-> (105 / 100 * startPrice < endPrice)%R)
  ∧ (DetectTrend bts period = "downtrend" <-> (endPrice < 95 / 100 * startPrice)%R)
  ∧ (DetectTrend bts period = "sideways"
     <-> (95 / 100 * startPrice <= endPrice <= 105 / 100 * startPrice)%R)
  ∧ (forall other : BTCTimeSeries F,
       DetectTrend other period = "insufficient_data" <-> length (Data other) < period).
Proof.
  intros Hp. cbv zeta. intros Hpos.
  destruct (DetectTrend_thresholds bts period ltac:(lia) Hpos) as (Hu & Hd & Hs).
  split; [exact Hu|]. split; [exact Hd|]. split; [exact Hs|].
  intros other. apply DetectTrend_short.
Qed.

Lemma DetectTrend_five_percent_witness :
  let bts : BTCTimeSeries Qc := series_of_closes (fromZ <$> [100; 103; 96]%Z) in
  let startPrice := toR (Close (Data bts !!! (length (Data bts) - 3))) in
  let endPrice := toR (Close (Data bts !!! (length (Data bts) - 1))) in
  (DetectTrend bts 3 = "uptrend" <-> (105 / 100 * startPrice < endPrice)%R)
  ∧ (DetectTrend bts 3 = "downtrend" <-> (endPrice < 95 / 100 * startPrice)%R)
  ∧ (DetectTrend bts 3 = "sideways"
     <-> (95 / 100 * startPrice <= endPrice <= 105 / 100 * startPrice)%R)
  ∧ (forall other : BTCTimeSeries Qc,
       DetectTrend other 3 = "insufficient_data" <-> length (Data other) < 3).
Proof.
  intros bts.
  apply (@DetectTrend_five_percent Qc _ _ bts 3).
  - simpl. lia.
  - simpl. unfold Q2R. simpl. lra.
Defined.

(** X21.  [DetectCandlestickPatterns] sorts the series and lists, under
    each of its seven keys, exactly the inner bars (neither the first
    nor the last) that pass the test of the key, the two star patterns
    from the third bar on; a key is present only with a list that is not
    empty, and every list is in ascending order.  With fewer than three
    bars the map is empty. *)
Theorem DetectCandlestickPatterns_indices {F : Type} `{Float64Ops F}
    (bts : BTCTimeSeries F) :
  let patterns := (DetectCandlestickPatterns bts).1 in
  let data := Data (Sort bts) in
  let n := length (Data bts) in
  let marked key := default [] (patterns !! key) in
  (forall i, i ∈ marked "doji" <-> 1 ≤ i < n - 1 ∧ isDoji (data !!! i) = true)
  ∧ (forall i, i ∈ marked "hammer" <-> 1 ≤ i < n - 1 ∧ isHammer (data !!! i) = true)
  ∧ (forall i, i ∈ marked "shooting_star"
     <-> 1 ≤ i < n - 1 ∧ isShootingStar (data !!! i) = true)
  ∧ (forall i, i ∈ marked "bullish_engulfing"
     <-> 1 ≤ i < n - 1 ∧ isBullishEngulfing (data !!! (i - 1)) (data !!! i) = true)
  ∧ (forall i, i ∈ marked "bearish_engulfing"
     <-> 1 ≤ i < n - 1 ∧ isBearishEngulfing (data !!! (i - 1)) (data !!! i) = true)
  ∧ (forall i, i ∈ marked "morning_star"
     <-> 2 ≤ i < n - 1
         ∧ isMorningStar (data !!! (i - 2)) (data !!! (i - 1)) (data !!! i) = true)
  ∧ (forall i, i ∈ marked "evening_star"
     <-> 2 ≤ i < n - 1
         ∧ isEveningStar (data !!! (i - 2)) (data !!! (i - 1)) (data !!! i) = true)
  ∧ (forall key l, patterns !! key = Some l ->
       l ≠ [] ∧ StronglySorted lt l ∧ key ∈ candlestick_names)
  ∧ (n < 3 -> patterns = ∅)
  ∧ (DetectCandlestickPatterns bts).2 = (if decide (n < 3) then bts else Sort bts).
Proof.
  cbv zeta.
  repeat (split; [intros i; rewrite DetectCandlestickPatterns_elem
                    by (unfold candlestick_names; in_list);
                  unfold candlestick_test; simpl;
                  rewrite ?andb_true_iff, ?bool_decide_eq_true;
                  intuition lia|]).
  split; [apply DetectCandlestickPatterns_keys|].
  unfold DetectCandlestickPatterns.
  destruct (decide (length (Data bts) < 3)); split; first [done|lia].
Qed.

(** X22.  In exact arithmetic, no bar is listed by
    [DetectCandlestickPatterns] both as a hammer and as a shooting star,
    nor both as a bullish and as a bearish engulfing, nor both as a
    morning and as an evening star. *)
Theorem DetectCandlestickPatterns_exclusive {F : Type} `{ExactArith F}
    (bts : BTCTimeSeries F) (i : nat) :
  let marked key := default [] ((DetectCandlestickPatterns bts).1 !! key) in
  ~ (i ∈ marked "hammer" ∧ i ∈ marked "shooting_star")
  ∧ ~ (i ∈ marked "bullish_engulfing" ∧ i ∈ marked "bearish_engulfing")
  ∧ ~ (i ∈ marked "morning_star" ∧ i ∈ marked "evening_star").
Proof.
  cbv zeta.
  rewrite !DetectCandlestickPatterns_elem by (unfold candlestick_names; in_list).
  unfold candlestick_test. simpl.
  split; [|split].
  - intros [[_ Hh] [_ Hs]].
    rewrite (isHammer_not_isShootingStar _ Hh) in Hs. discriminate.
  - intros [[_ Hb] [_ Hs]].
    rewrite (isBullishEngulfing_not_isBearishEngulfing _ _ Hb) in Hs. discriminate.
  - intros [[_ Hm] [_ He]].
    apply andb_true_iff in Hm as [_ Hm]. apply andb_true_iff in He as [_ He].
    rewrite (isMorningStar_not_isEveningStar _ _ _ Hm) in He. discriminate.
Qed.

(** X23.  [DetectVolumePatterns] returns the empty map for fewer than 20
    bars and otherwise lists, in ascending order and for the bars as
    stored, every bar but the first whose volume is more than twice the
    average and whose close is more than 2% above the close before
    (volume_breakout) or more than 2% below it (volume_selloff), and
    every bar whose volume is less than half the average (low_volume). *)
Theorem DetectVolumePatterns_indices {F : Type} `{Float64Ops F}
    (bts : BTCTimeSeries F) :
  let patterns := DetectVolumePatterns bts in
  let n := length (Data bts) in
  let marked key := default [] (patterns !! key) in
  let volume i := Volume (Data bts !!! i) in
  let close i := Close (Data bts !!! i) in
  (forall i, i ∈ marked "volume_breakout"
     <-> 20 ≤ n ∧ 1 ≤ i < n
         ∧ (volume i >? average_volume bts * fromZ 2)%f64 = true
         ∧ (close i >? close (i - 1)%nat * lit 102 100)%f64 = true)
  ∧ (forall i, i ∈ marked "volume_selloff"
     <-> 20 ≤ n ∧ 1 ≤ i < n
         ∧ (volume i >? average_volume bts * fromZ 2)%f64 = true
         ∧ (close i <? close (i - 1)%nat * lit 98 100)%f64 = true)
  ∧ (forall i, i ∈ marked "low_volume"
     <-> 20 ≤ n ∧ 1 ≤ i < n
         ∧ (volume i <? average_volume bts * lit 5 10)%f64 = true)
  ∧ (forall key l, patterns !! key = Some l ->
       l ≠ [] ∧ StronglySorted lt l ∧ key ∈ volume_names)
  ∧ (n < 20 -> patterns = ∅).
Proof.
  cbv zeta.
  repeat (split; [intros i; rewrite DetectVolumePatterns_elem
                    by (unfold volume_names; in_list);
                  unfold volume_test; simpl;
                  rewrite ?andb_true_iff; tauto|]).
  split; [apply DetectVolumePatterns_keys|apply DetectVolumePatterns_short].
Qed.

(** X24.  In exact arithmetic, for a series whose closes and volumes
    are not negative, no bar is listed by [DetectVolumePatterns] under
    two of its three keys. *)
Theorem DetectVolumePatterns_exclusive {F : Type} `{ExactArith F}
    (bts : BTCTimeSeries F) (i : nat) :
  Forall (fun bar => (0 <= toR (Close bar))%R ∧ (0 <= toR (Volume bar))%R) (Data bts) ->
  let marked key := default [] (DetectVolumePatterns bts !! key) in
  ~ (i ∈ marked "volume_breakout" ∧ i ∈ marked "volume_selloff")
  ∧ ~ (i ∈ marked "volume_breakout" ∧ i ∈ marked "low_volume")
  ∧ ~ (i ∈ marked "volume_selloff" ∧ i ∈ marked "low_volume").
Proof.
  intros Hall. cbv zeta.
  rewrite !DetectVolumePatterns_elem by (unfold volume_names; in_list).
  assert (Hex : 20 ≤ length (Data bts) -> 1 ≤ i < length (Data bts) ->
    (volume_test bts "volume_breakout" i = true ->
     volume_test bts "volume_selloff" i = false
     ∧ volume_test bts "low_volume" i = false)
    ∧ (volume_test bts "volume_selloff" i = true ->
       volume_test bts "low_volume" i = false)).
  { intros Hn Hi. apply volume_tests_exclusive.
    - apply average_volume_nonneg.
      + intros Hnil. rewrite Hnil in Hn. simpl in Hn. lia.
      + eapply Forall_impl; [exact Hall|]. intros bar [_ Hv]. exact Hv.
    - rewrite Forall_forall in Hall.
      apply (Hall (Data bts !!! (i - 1))), list_elem_of_lookup_total_2. lia. }
  split; [|split].
  - intros [(Hn & Hi & Hb) (_ & _ & Hs)].
    destruct (Hex Hn Hi) as [Hbs _]. destruct (Hbs Hb) as [Hs' _]. congruence.
  - intros [(Hn & Hi & Hb) (_ & _ & Hl)].
    destruct (Hex Hn Hi) as [Hbs _]. destruct (Hbs Hb) as [_ Hl']. congruence.
  - intros [(Hn & Hi & Hs) (_ & _ & Hl)].
    destruct (Hex Hn Hi) as [_ Hsl]. specialize (Hsl Hs). congruence.
Qed.

Lemma DetectVolumePatterns_exclusive_witness :
  let bts : BTCTimeSeries Qc :=
    {| Symbol := "BTC";
       Data := (fun i => {| Timestamp := Z.of_nat i; Open := fromZ 100;
                            High := fromZ 120; Low := fromZ 90;
                            Close := fromZ (100 + Z.of_nat ((i * 7) mod 11));
                            Volume := fromZ (Z.of_nat ((i * i) mod 17) * 100) |})
               <$> seq 0 24 |} in
  let marked key := default [] (DetectVolumePatterns bts !! key) in
  ~ (5 ∈ marked "volume_breakout" ∧ 5 ∈ marked "volume_selloff")
  ∧ ~ (5 ∈ marked "volume_breakout" ∧ 5 ∈ marked "low_volume")
  ∧ ~ (5 ∈ marked "volume_selloff" ∧ 5 ∈ marked "low_volume").
Proof.
  intros bts. apply (@DetectVolumePatterns_exclusive Qc _ _ bts 5).
  apply Forall_fmap, Forall_forall. intros i _.
  cbn [Close Volume compose]. rewrite !toR_fromZ.
  split; apply IZR_le; lia.
Defined.

(** X1.  In exact arithmetic, for a non-empty series whose bar stored
    last has [low <= close <= high], [FindPivotPoints] computes its
    levels from that bar alone, whatever bars are stored before it, and
    returns exactly the seven keys pivot, r1, s1, r2, s2, r3, s3; the
    pivot lies between the low and the high of the bar, the levels are
    in the order [s3 <= s2 <= s1 <= pivot <= r1 <= r2 <= r3], r1 is as
    far above the pivot as the low is below it, s1 as far below the pivot
    as the high is above it, and r2 and s2 are at the distance
    [high - low] from the pivot. *)
Theorem FindPivotPoints_ordered {F : Type} `{ExactArith F}
    (bts : BTCTimeSeries F) (latest : BTCPrice F) :
  last (Data bts) = Some latest ->
  (toR (Low latest) <= toR (Close latest) <= toR (High latest))%R ->
  FindPivotPoints bts = FindPivotPoints {| Symbol := Symbol bts; Data := [latest] |}
  ∧ (forall key, is_Some (FindPivotPoints bts !! key) ->
       key ∈ ["pivot"; "r1"; "s1"; "r2"; "s2"; "r3"; "s3"])
  ∧ exists pivot r1 s1 r2 s2 r3 s3 : F,
      (FindPivotPoints bts !! "pivot" = Some pivot
       ∧ FindPivotPoints bts !! "r1" = Some r1
       ∧ FindPivotPoints bts !! "s1" = Some s1
       ∧ FindPivotPoints bts !! "r2" = Some r2
       ∧ FindPivotPoints bts !! "s2" = Some s2
       ∧ FindPivotPoints bts !! "r3" = Some r3
       ∧ FindPivotPoints bts !! "s3" = Some s3)
      ∧ (toR (Low latest) <= toR pivot <= toR (High latest))%R
      ∧ (toR s3 <= toR s2)%R ∧ (toR s2 <= toR s1)%R ∧ (toR s1 <= toR pivot)%R
      ∧ (toR pivot <= toR r1)%R ∧ (toR r1 <= toR r2)%R ∧ (toR r2 <= toR r3)%R
      ∧ (toR r1 - toR pivot = toR pivot - toR (Low latest))%R
      ∧ (toR pivot - toR s1 = toR (High latest) - toR pivot)%R
      ∧ (toR r2 - toR pivot = toR (High latest) - toR (Low latest))%R
      ∧ (toR pivot - toR s2 = toR (High latest) - toR (Low latest))%R.
Proof.
  intros Hlast Hbar. split; [apply FindPivotPoints_of_last, Hlast|].
  split; [apply FindPivotPoints_keys|].
  apply FindPivotPoints_order; assumption.
Qed.

Lemma FindPivotPoints_ordered_witness :
  let bar (t h l c : Z) : BTCPrice Qc :=
    {| Timestamp := t; Open := fromZ c; High := fromZ h; Low := fromZ l;
       Close := fromZ c; Volume := fromZ 0 |} in
  let latest := (bar 1 20 10 16)%Z in
  let bts := {| Symbol := "BTC";
                Data := [bar 2 110 90 100; bar 3 130 95 120; latest]%Z |} in
  FindPivotPoints bts = FindPivotPoints {| Symbol := Symbol bts; Data := [latest] |}
  ∧ (forall key, is_Some (FindPivotPoints bts !! key) ->
       key ∈ ["pivot"; "r1"; "s1"; "r2"; "s2"; "r3"; "s3"])
  ∧ exists pivot r1 s1 r2 s2 r3 s3 : Qc,
      (FindPivotPoints bts !! "pivot" = Some pivot
       ∧ FindPivotPoints bts !! "r1" = Some r1
       ∧ FindPivotPoints bts !! "s1" = Some s1
       ∧ FindPivotPoints bts !! "r2" = Some r2
       ∧ FindPivotPoints bts !! "s2" = Some s2
       ∧ FindPivotPoints bts !! "r3" = Some r3
       ∧ FindPivotPoints bts !! "s3" = Some s3)
      ∧ (toR (Low latest) <= toR pivot <= toR (High latest))%R
      ∧ (toR s3 <= toR s2)%R ∧ (toR s2 <= toR s1)%R ∧ (toR s1 <= toR pivot)%R
      ∧ (toR pivot <= toR r1)%R ∧ (toR r1 <= toR r2)%R ∧ (toR r2 <= toR r3)%R
      ∧ (toR r1 - toR pivot = toR pivot - toR (Low latest))%R
      ∧ (toR pivot - toR s1 = toR (High latest) - toR pivot)%R
      ∧ (toR r2 - toR pivot = toR (High latest) - toR (Low latest))%R
      ∧ (toR pivot - toR s2 = toR (High latest) - toR (Low latest))%R.
Proof.
  intros bar latest bts.
  apply (@FindPivotPoints_ordered Qc _ _ bts latest).
  - reflexivity.
  - simpl. unfold Q2R. simpl. lra.
Defined.

(** X25.  In exact arithmetic, for [1 <= period <= len] and bars whose
    low is not above their high, [CalculateFibonacciRetracements] takes
    the greatest high and the least low of the last [period] bars as
    stored, returns them under "high" and "low", and under the other
    five keys the levels [high - ratio * (high - low)], with the ratio
    0.236 under the key "fib_76_4", 0.382 under "fib_61_8", 0.5 under
    "fib_50", 0.618 under "fib_38_2" and 0.786 under "fib_23_6". *)
Theorem CalculateFibonacciRetracements_between_low_and_high {F : Type} `{ExactArith F}
    (bts : BTCTimeSeries F) (period : nat) :
  1 ≤ period ≤ length (Data bts) ->
  Forall (fun bar => (toR (Low bar) <= toR (High bar))%R) (Data bts) ->
  let recentData := drop (length (Data bts) - period) (Data bts) in
  let fibs := CalculateFibonacciRetracements bts period in
  exists high low : F,
    high ∈ map High recentData ∧ low ∈ map Low recentData
    ∧ (forall p, p ∈ recentData ->
         (toR (High p) <= toR high)%R ∧ (toR low <= toR (Low p))%R)
    ∧ (toR low <= toR high)%R
    ∧ fibs !! "high" = Some high ∧ fibs !! "low" = Some low
    ∧ forall key ratio,
        (key, ratio) ∈ [("fib_76_4", 236 / 1000); ("fib_61_8", 382 / 1000);
                        ("fib_50", 5 / 10); ("fib_38_2", 618 / 1000);
                        ("fib_23_6", 786 / 1000)]%R ->
        exists v, fibs !! key = Some v
                  ∧ toR v = (toR high - (toR high - toR low) * ratio)%R.
Proof. apply CalculateFibonacciRetracements_levels. Qed.

Lemma CalculateFibonacciRetracements_between_low_and_high_witness :
  let bar (h l : Z) : BTCPrice Qc :=
    {| Timestamp := 0; Open := fromZ l; High := fromZ h; Low := fromZ l;
       Close := fromZ h; Volume := fromZ 0 |} in
  let bts := {| Symbol := "BTC"; Data := [bar 500 10; bar 120 90; bar 150 100]%Z |} in
  let recentData := drop (length (Data bts) - 2) (Data bts) in
  let fibs := CalculateFibonacciRetracements bts 2 in
  exists high low : Qc,
    high ∈ map High recentData ∧ low ∈ map Low recentData
    ∧ (forall p, p ∈ recentData ->
         (toR (High p) <= toR high)%R ∧ (toR low <= toR (Low p))%R)
    ∧ (toR low <= toR high)%R
    ∧ fibs !! "high" = Some high ∧ fibs !! "low" = Some low
    ∧ forall key ratio,
        (key, ratio) ∈ [("fib_76_4", 236 / 1000); ("fib_61_8", 382 / 1000);
                        ("fib_50", 5 / 10); ("fib_38_2", 618 / 1000);
                        ("fib_23_6", 786 / 1000)]%R ->
        exists v, fibs !! key = Some v
                  ∧ toR v = (toR high - (toR high - toR low) * ratio)%R.
Proof.
  intros bar bts.
  apply (@CalculateFibonacciRetracements_between_low_and_high Qc _ _ bts 2).
  - simpl. lia.
  - repeat constructor; simpl; unfold Q2R; simpl; lra.
Defined.

(** X26.  In exact arithmetic, for bars with lows and highs above 0,
    [FindSupportResistanceLevels] returns support and resistance levels
    in ascending order, each more than the tolerance (relatively) above
    the one before, and within any bounds that hold the lows
    (respectively the highs) of the series; it sorts the series, unless
    the series has fewer than [2 * lookbackPeriod] bars, when it returns
    no level and leaves the series as it is. *)
Theorem FindSupportResistanceLevels_well_separated {F : Type} `{ExactArith F}
    (bts : BTCTimeSeries F) (lookbackPeriod : nat) (tolerance : F) :
  Forall (fun bar => (0 < toR (Low bar))%R ∧ (0 < toR (High bar))%R) (Data bts) ->
  let levels := (FindSupportResistanceLevels bts lookbackPeriod tolerance).1 in
  let series := (FindSupportResistanceLevels bts lookbackPeriod tolerance).2 in
  (length (Data bts) < lookbackPeriod * 2 ->
   levels = SupportResistanceData_zero ∧ series = bts)
  ∧ (lookbackPeriod * 2 ≤ length (Data bts) -> series = Sort bts)
  ∧ well_separated tolerance (SupportLevels levels)
  ∧ well_separated tolerance (ResistanceLevels levels)
  ∧ (forall lo hi,
       Forall (fun bar => (lo <= toR (Low bar) <= hi)%R) (Data bts) ->
       Forall (fun v => (lo <= toR v <= hi)%R) (SupportLevels levels))
  ∧ (forall lo hi,
       Forall (fun bar => (lo <= toR (High bar) <= hi)%R) (Data bts) ->
       Forall (fun v => (lo <= toR v <= hi)%R) (ResistanceLevels levels)).
Proof. apply FindSupportResistanceLevels_separated. Qed.

Lemma FindSupportResistanceLevels_well_separated_witness :
  let bar (t h l : Z) : BTCPrice Qc :=
    {| Timestamp := t; Open := fromZ l; High := fromZ h; Low := fromZ l;
       Close := fromZ h; Volume := fromZ 0 |} in
  let bts := {| Symbol := "BTC";
                Data := [bar 1 110 100; bar 2 105 90; bar 3 120 101; bar 4 108 91;
                         bar 5 112 99]%Z |} in
  let tolerance : Qc := lit 2 100 in
  let levels := (FindSupportResistanceLevels bts 1 tolerance).1 in
  let series := (FindSupportResistanceLevels bts 1 tolerance).2 in
  (length (Data bts) < 1 * 2 ->
   levels = SupportResistanceData_zero ∧ series = bts)
  ∧ (1 * 2 ≤ length (Data bts) -> series = Sort bts)
  ∧ well_separated tolerance (SupportLevels levels)
  ∧ well_separated tolerance (ResistanceLevels levels)
  ∧ (forall lo hi,
       Forall (fun bar => (lo <= toR (Low bar) <= hi)%R) (Data bts) ->
       Forall (fun v => (lo <= toR v <= hi)%R) (SupportLevels levels))
  ∧ (forall lo hi,
       Forall (fun bar => (lo <= toR (High bar) <= hi)%R) (Data bts) ->
       Forall (fun v => (lo <= toR v <= hi)%R) (ResistanceLevels levels)).
Proof.
  intros bar bts tolerance.
  apply (@FindSupportResistanceLevels_well_separated Qc _ _ bts 1 tolerance).
  repeat constructor; simpl; unfold Q2R; simpl; lra.
Defined.

(** ** analyzer *)

(** X27.  For a series of [n] bars [PerformComprehensiveAnalysis]
    returns [n - 1] returns, [n - 14] RSI values, a MACD line of
    [n - 25] values with a signal line and a histogram of [n - 33], and
    Bollinger bands of [n - 19] values each (a difference that would be
    negative is 0); with fewer than two bars it returns the zero
    aggregate, and with ten bars or more it leaves the series sorted. *)
Theorem PerformComprehensiveAnalysis_shape {F : Type} `{Float64Ops F} `{Float64Math F}
    (bts : BTCTimeSeries F) :
  let analytics := (PerformComprehensiveAnalysis bts).1 in
  let n := length (Data bts) in
  (length (Returns analytics) = n - 1
   ∧ length (RSI analytics) = n - 14
   ∧ length (MACD (MACD_ analytics)) = n - 25
   ∧ length (Signal (MACD_ analytics)) = n - 33
   ∧ length (Histogram (MACD_ analytics)) = n - 33
   ∧ length (Upper (BollingerBands analytics)) = n - 19
   ∧ length (Middle (BollingerBands analytics)) = n - 19
   ∧ length (Lower (BollingerBands analytics)) = n - 19)
  ∧ (n < 2 -> analytics = BTCAnalytics_zero)
  ∧ (PerformComprehensiveAnalysis bts).2 = (if decide (10 ≤ n) then Sort bts else bts).
Proof.
  cbv zeta. split; [apply PerformComprehensiveAnalysis_lengths|].
  destruct (decide (length (Data bts) < 2)) as [Hshort|Hlong].
  - rewrite PerformComprehensiveAnalysis_short by exact Hshort.
    split; [reflexivity|]. rewrite decide_False by lia. reflexivity.
  - split; [lia|].
    apply (PerformComprehensiveAnalysis_fields bts ltac:(lia)).
Qed.

(** X28.  [GetTradingSignals] panics when the lower Bollinger band of
    the aggregate is shorter than the upper one (it reads the lower band
    at the last index of the upper one).  In every other case it returns,
    and every signal it returns is one of fifteen fixed pairs of key and
    text; the Trend signal is always present, the RSI signal exactly when
    there is an RSI value, the MACD signal exactly when the MACD line and
    the signal line have two values or more, the Bollinger signal exactly
    when the bands are not empty. *)
Theorem GetTradingSignals_keys {F : Type} `{Float64Ops F} `{Float64Math F}
    (bts : BTCTimeSeries F) (analytics : BTCAnalytics F) :
  let bands := BollingerBands analytics in
  (length (Lower bands) < length (Upper bands) ->
   GetTradingSignals bts analytics = None)
  ∧ (length (Upper bands) ≤ length (Lower bands) ->
     exists r,
       GetTradingSignals bts analytics = Some r
       ∧ (forall k v, r.1 !! k = Some v -> (k, v) ∈ signal_table)
       ∧ (is_Some (r.1 !! "RSI") <-> RSI analytics ≠ [])
       ∧ (is_Some (r.1 !! "MACD")
          <-> 1 < length (MACD (MACD_ analytics))
              ∧ 1 < length (Signal (MACD_ analytics)))
       ∧ (is_Some (r.1 !! "Bollinger") <-> Upper bands ≠ [])
       ∧ is_Some (r.1 !! "Trend")).
Proof. apply GetTradingSignals_cases. Qed.

(** An aggregate with one upper and no lower band value: the call panics. *)
Example GetTradingSignals_shorter_lower_band :
  let bands : BollingerBandsData float :=
    {| Upper := [110%float]; Middle := [100%float]; Lower := [] |} in
  let analytics :=
    {| PriceStats := Statistics_zero; VolumeStats := Statistics_zero;
       Volatility := 0%float; SharpeRatio := 0%float; MaxDrawdown := 0%float;
       Returns := []; RSI := []; MACD_ := MACDData_zero;
       BollingerBands := bands;
       SupportResistance := SupportResistanceData_zero |} in
  GetTradingSignals (series_of_closes [100; 101]%float) analytics = None.
Proof. vm_compute. reflexivity. Qed.

(** ** dataloader *)

(** X29.  In exact arithmetic, [ValidateData] reports no issue exactly
    when the series is not empty, every bar is well formed when it is
    checked (prices above 0, open and close between low and high, volume
    not negative, timestamp not in the future) and no two bars fall in
    the same second; for the empty series it reports the one issue
    "No data points found". *)
Theorem ValidateData_no_issue {F : Type} `{ExactArith F}
    (now : nat -> Z) (bts : BTCTimeSeries F) :
  (ValidateData now bts = []
   <-> Data bts ≠ []
       ∧ (forall i bar, Data bts !! i = Some bar -> well_formed (now i) bar)
       ∧ NoDup (map (fun bar => Unix (Timestamp bar)) (Data bts)))
  ∧ (Data bts = [] -> ValidateData now bts = ["No data points found"]).
Proof. split; [apply ValidateData_well_formed|apply ValidateData_empty]. Qed.

(** X30.  In exact arithmetic, for at least one day, a start price
    above 0, days that are not in the future and no two of which fall in
    the same second, [GenerateSampleData] returns [days] bars, each well
    formed and with the timestamp of its day, the first opening at the
    start price and every other at the close of the bar before, and
    [ValidateData] finds no issue in the result. *)
Theorem GenerateSampleData_passes_validation {F : Type} `{ExactArith F}
    (stamp : nat -> Z) (now : nat -> Z) (days : nat) (startPrice : F) :
  1 ≤ days ->
  (0 < toR startPrice)%R ->
  (forall i, i < days -> (stamp i <= now i)%Z) ->
  (forall i j, i < j < days -> Unix (stamp i) ≠ Unix (stamp j)) ->
  let bts := GenerateSampleData stamp days startPrice in
  length (Data bts) = days
  ∧ (forall i bar, Data bts !! i = Some bar ->
       well_formed (now i) bar ∧ Timestamp bar = stamp i)
  ∧ (forall bar, Data bts !! 0 = Some bar -> Open bar = startPrice)
  ∧ (forall i prev bar, Data bts !! i = Some prev -> Data bts !! (S i) = Some bar ->
       Open bar = Close prev)
  ∧ ValidateData now bts = [].
Proof.
  intros Hdays Hpos Hstamp Hdistinct. cbv zeta.
  destruct (GenerateSampleData_bars stamp now days startPrice Hpos Hstamp)
    as (_ & Hlen & Hbars & Hfirst & Hchain).
  split; [exact Hlen|]. split; [exact Hbars|]. split; [exact Hfirst|].
  split; [exact Hchain|].
  apply GenerateSampleData_valid; assumption.
Qed.

Lemma GenerateSampleData_passes_validation_witness :
  let stamp (i : nat) : Z := ((63900000000 + Z.of_nat i * 86400) * 1000000000)%Z in
  let now (i : nat) : Z := (64000000000 * 1000000000)%Z in
  let bts : BTCTimeSeries Qc := GenerateSampleData stamp 30 (fromZ 45000) in
  length (Data bts) = 30
  ∧ (forall i bar, Data bts !! i = Some bar ->
       well_formed (now i) bar ∧ Timestamp bar = stamp i)
  ∧ (forall bar, Data bts !! 0 = Some bar -> Open bar = fromZ 45000)
  ∧ (forall i prev bar, Data bts !! i = Some prev -> Data bts !! (S i) = Some bar ->
       Open bar = Close prev)
  ∧ ValidateData now bts = [].
Proof.
  intros stamp now.
  apply (@GenerateSampleData_passes_validation Qc _ _ stamp now 30 (fromZ 45000)).
  - lia.
  - rewrite toR_fromZ. lra.
  - intros i Hi. unfold stamp, now. lia.
  - intros i j Hij. unfold stamp, Unix.
    rewrite !Z.div_mul by lia. lia.
Defined.
